(** * Alert engine and pipeline orchestration of ydata-profiling

    Part I is a shallow embedding of
    - [ydata_profiling/model/correlations.py]
    - [ydata_profiling/model/alerts.py]
    - [ydata_profiling/model/missing.py]
    - the correlation, missing-diagram and alert stages of
      [ydata_profiling/model/describe.py].
    Part II holds the vocabulary of the statements and the sample inputs,
    Part III the rest of the modelled files and [get_dataset_alerts] of
    [ydata_profiling/report/structure/overview.py], Part IV the properties
    of the alert engine and of the pipeline that the specification states,
    each marked with the claim it settles, and Part V further properties of
    the code. *)

From Stdlib Require Import List String Ascii Bool Arith ZArith QArith Qabs.
From Stdlib Require Import Qround Lqa Lia Permutation Sorted FinFun.
From Stdlib Require Import DecimalString.
Import ListNotations.

Set Implicit Arguments.

Close Scope Q_scope.
Close Scope Z_scope.
Open Scope string_scope.
Open Scope list_scope.

(* ================================================================== *)
(** * Part I: the embedding                                            *)
(* ================================================================== *)

(** ** Python values used by the modelled code *)

Module Py.

(** Floating-point and integer quantities.  Every comparison the code
    performs ([==], [!=], [<], [>], [>=]) is exact on the numbers it is
    given, so a number is embedded as the rational it denotes, with
    [np.nan] kept apart: every ordered comparison with it is [False] and
    [!=] is [True]. *)
Inductive num : Type :=
| NaN
| Fin (q : Q).

Definition abs (x : num) : num :=
  match x with
  | NaN => NaN
  | Fin q => Fin (Qabs q)
  end.

Definition neg (x : num) : num :=
  match x with
  | NaN => NaN
  | Fin q => Fin (Qopp q)
  end.

Definition mul (a b : num) : num :=
  match a, b with
  | Fin x, Fin y => Fin (Qmult x y)
  | _, _ => NaN
  end.

Definition sub (a b : num) : num :=
  match a, b with
  | Fin x, Fin y => Fin (Qminus x y)
  | _, _ => NaN
  end.

Definition ge (a b : num) : bool :=
  match a, b with
  | Fin x, Fin y => Qle_bool y x
  | _, _ => false
  end.

Definition gt (a b : num) : bool :=
  match a, b with
  | Fin x, Fin y => negb (Qle_bool x y)
  | _, _ => false
  end.

Definition lt (a b : num) : bool := gt b a.

Definition eq (a b : num) : bool :=
  match a, b with
  | Fin x, Fin y => Qeq_bool x y
  | _, _ => false
  end.

Definition ne (a b : num) : bool := negb (eq a b).

(** [pd.isna] on a scalar number. *)
Definition isna (x : num) : bool :=
  match x with
  | NaN => true
  | Fin _ => false
  end.

(** Exceptions, by class, with the text [str(e)] gives. *)
Inductive exn : Type :=
| KeyError (key : string)
| IndexError (msg : string)
| ValueError (msg : string)
| AssertionError (msg : string)
| TypeError (msg : string)
| DataError (msg : string)
| NotImplementedError
| OtherError (msg : string).

Definition str_exn (e : exn) : string :=
  match e with
  | KeyError k => k
  | IndexError m | ValueError m | AssertionError m
  | TypeError m | DataError m | OtherError m => m
  | NotImplementedError => EmptyString
  end.

(** A computation that returns or raises. *)
Inductive result (A : Type) : Type :=
| Ok (a : A)
| Raise (e : exn).
Arguments Ok {A} a.
Arguments Raise {A} e.

Definition bind {A B} (m : result A) (k : A -> result B) : result B :=
  match m with
  | Ok a => k a
  | Raise e => Raise e
  end.

(** A [dict] with string keys: the insertion-ordered list of its items.
    Assigning to a key that is present keeps the key's position and
    replaces the value; a new key goes last. *)
Definition dict (V : Type) : Type := list (string * V).

Fixpoint get {V} (d : dict V) (k : string) : option V :=
  match d with
  | [] => None
  | (k', v) :: rest => if String.eqb k' k then Some v else get rest k
  end.

Fixpoint setitem {V} (d : dict V) (k : string) (v : V) : dict V :=
  match d with
  | [] => [(k, v)]
  | (k', v') :: rest =>
      if String.eqb k' k then (k', v) :: rest else (k', v') :: setitem rest k v
  end.

Definition keys {V} (d : dict V) : list string := map fst d.

(** [d[k]] *)
Definition getitem {V} (d : dict V) (k : string) : result V :=
  match get d k with
  | Some v => Ok v
  | None => Raise (KeyError k)
  end.

(** [d.get(k, default)] *)
Definition get_default {V} (d : dict V) (k : string) (default : V) : V :=
  match get d k with
  | Some v => v
  | None => default
  end.

(** [r[k]] for a key of a dictionary embedded as a record field:
    [None] is the absent key. *)
Definition field {A} (k : string) (f : option A) : result A :=
  match f with
  | Some v => Ok v
  | None => Raise (KeyError k)
  end.

(** [l[i] = v].  Outside the list nothing is written: of the two
    callers, [np.fill_diagonal] skips a row too short to have a diagonal
    entry and the closing loop of [check_variable_alerts] stays within
    [range(len(alerts))]. *)
Fixpoint set_nth {A} (l : list A) (i : nat) (v : A) : list A :=
  match l, i with
  | [], _ => []
  | _ :: rest, O => v :: rest
  | x :: rest, S i' => x :: set_nth rest i' v
  end.

(** [any(mask)] *)
Definition any (mask : list bool) : bool := existsb (fun b => b) mask.

(** [list.sort(key=key)] with string keys: the sort is stable and compares
    keys with [<] only.  A stable sort has one possible outcome (see
    [sort_unique] below), computed here by insertion: an element goes in
    front of the first sorted element whose key is not smaller. *)
Fixpoint insert {A} (key : A -> string) (x : A) (l : list A) : list A :=
  match l with
  | [] => [x]
  | y :: rest =>
      if String.ltb (key y) (key x)
      then y :: insert key x rest
      else x :: y :: rest
  end.

Fixpoint sort {A} (key : A -> string) (l : list A) : list A :=
  match l with
  | [] => []
  | x :: rest => insert key x (sort key rest)
  end.

(** What a run leaves behind besides its value: the warnings given to
    [warnings.warn] and the calls made to collaborators that live outside
    the modelled files, in the order they happen. *)
Inductive event : Type :=
| Warning (message : string)
| Call (callee : string).

(** Code that warns or calls out: a log transformer that returns or
    raises.  What was logged before an exception stays logged. *)
Definition M (A : Type) : Type := list event -> result A * list event.

Definition ret {A} (a : A) : M A := fun log => (Ok a, log).

Definition lift {A} (r : result A) : M A := fun log => (r, log).

Definition mbind {A B} (m : M A) (k : A -> M B) : M B :=
  fun log =>
    match m log with
    | (Ok a, log') => k a log'
    | (Raise e, log') => (Raise e, log')
    end.

Definition warn (message : string) : M unit :=
  fun log => (Ok tt, log ++ [Warning message]).

(** A call of the collaborator [callee] whose outcome is [outcome]. *)
Definition call {A} (callee : string) (outcome : result A) : M A :=
  fun log => (outcome, log ++ [Call callee]).

(** [try: body  except <classes accepted by handles> as e: handler e] *)
Definition try_except {A} (body : M A) (handles : exn -> bool)
    (handler : exn -> M A) : M A :=
  fun log =>
    match body log with
    | (Ok a, log') => (Ok a, log')
    | (Raise e, log') =>
        if handles e then handler e log' else (Raise e, log')
    end.

(** The double quote character, for message templates. *)
Definition dquote : string :=
  String (Ascii false true false false false true false false) EmptyString.

End Py.

Notation "x <- m ;; k" := (Py.bind m (fun x => k))
  (at level 61, m at next level, right associativity).
Notation "x <~ m ;; k" := (Py.mbind m (fun x => k))
  (at level 61, m at next level, right associativity).

Import Py.

(** A [pd.DataFrame] with cells of type [A]: the column labels and the
    rows of [.values].  [len] of a frame is its number of rows.  A
    correlation matrix is a frame of numbers; of the profiled dataset the
    modelled code reads the length only. *)
Record DataFrame (A : Type) : Type := mkDataFrame {
  columns : list string;
  values : list (list A)
}.

Definition len {A} (df : DataFrame A) : nat := List.length (values df).

Definition Matrix : Type := DataFrame num.

(** ** Configuration ([ydata_profiling.config.Settings]) *)

(** The fields of [Settings] that the modelled code reads:
    [config.correlations[name].{calculate, warn_high_correlations,
    threshold}], [config.vars.{num, cat, bool}.*] and
    [config.missing_diagrams[name]]. *)
Record CorrelationSettings : Type := mkCorrelationSettings {
  calculate : bool;
  warn_high_correlations : bool;
  threshold : num
}.

Record Settings : Type := mkSettings {
  correlations : dict CorrelationSettings;
  vars_num_skewness_threshold : num;
  vars_num_chi_squared_threshold : num;
  vars_cat_cardinality_threshold : num;
  vars_cat_chi_squared_threshold : num;
  vars_cat_imbalance_threshold : num;
  vars_bool_imbalance_threshold : num;
  missing_diagrams : dict bool
}.

(** ** Column summaries and table statistics *)

(** [summary["chi_squared"]], a mapping read at ["pvalue"]. *)
Record ChiSquared : Type := mkChiSquared {
  pvalue : option num
}.

(** The summary dictionary of one column, as the record of the keys the
    alert rules read.  A field is [None] when the dictionary lacks the key.
    Of ["composition"] only the presence is ever tested. *)
Record Summary : Type := mkSummary {
  type_ : option string;
  n : option num;
  n_distinct : option num;
  p_missing : option num;
  skewness : option num;
  p_infinite : option num;
  p_zeros : option num;
  chi_squared : option ChiSquared;
  stationary : option bool;
  seasonal : option bool;
  date_warning : option bool;
  composition : option unit;
  min_length : option num;
  max_length : option num;
  imbalance : option num
}.

(** The table statistics dictionary, likewise. *)
Record TableStats : Type := mkTableStats {
  table_n : option num;
  table_n_duplicates : option num;
  table_p_duplicates : option num;
  table_n_vars_with_missing : option num;
  table_n_vars_all_missing : option num
}.

(** ** [model/correlations.py] *)

Module Correlations.

(** [abs(correlation_matrix.values) >= threshold], elementwise. *)
Definition abs_ge (vals : list (list num)) (threshold : num)
  : list (list bool) :=
  map (map (fun x => ge (abs x) threshold)) vals.

(** [np.fill_diagonal(a, val)] on a two-dimensional array: entry
    [(i, i)] of every row [i] that has one. *)
Fixpoint fill_diagonal_from (i : nat) (a : list (list bool)) (val : bool)
  : list (list bool) :=
  match a with
  | [] => []
  | row :: rest => set_nth row i val :: fill_diagonal_from (S i) rest val
  end.

Definition fill_diagonal (a : list (list bool)) (val : bool)
  : list (list bool) :=
  fill_diagonal_from 0 a val.

(** [cols[mask].values.tolist()]: boolean-mask indexing keeps the labels
    at the positions where the mask is [True]; a mask of another length
    is an [IndexError]. *)
Fixpoint mask_select (cols : list string) (mask : list bool) : list string :=
  match cols, mask with
  | c :: cols', b :: mask' =>
      if b then c :: mask_select cols' mask' else mask_select cols' mask'
  | _, _ => []
  end.

Definition index_by_mask (cols : list string) (mask : list bool)
  : result (list string) :=
  if Nat.eqb (List.length mask) (List.length cols)
  then Ok (mask_select cols mask)
  else Raise (IndexError "boolean index did not match indexed array").

(** The dictionary comprehension
    [{col: cols[bool_index[i]].values.tolist()
      for i, col in enumerate(cols) if any(bool_index[i])}],
    with [todo] the labels still to enumerate and [i] the index of the
    first of them. *)
Fixpoint comprehension (cols : list string) (bool_index : list (list bool))
    (i : nat) (todo : list string) (acc : dict (list string))
  : result (dict (list string)) :=
  match todo with
  | [] => Ok acc
  | col :: rest =>
      match nth_error bool_index i with
      | None => Raise (IndexError "index out of bounds")
      | Some mask =>
          if any mask
          then fields <- index_by_mask cols mask ;;
               comprehension cols bool_index (S i) rest (setitem acc col fields)
          else comprehension cols bool_index (S i) rest acc
      end
  end.

Definition perform_check_correlation
    (correlation_matrix : Matrix) (threshold : num)
  : result (dict (list string)) :=
  let cols := columns correlation_matrix in
  let bool_index := abs_ge (values correlation_matrix) threshold in
  let bool_index := fill_diagonal bool_index false in
  comprehension cols bool_index 0 cols [].

(** The correlation classes; their [compute] multimethods are registered
    by back-ends outside the modelled files. *)
Inductive Correlation : Type :=
| Auto
| Spearman
| Pearson
| Kendall
| Cramers
| PhiK.

Definition class_name (c : Correlation) : string :=
  match c with
  | Auto => "Auto"
  | Spearman => "Spearman"
  | Pearson => "Pearson"
  | Kendall => "Kendall"
  | Cramers => "Cramers"
  | PhiK => "PhiK"
  end.

(** The text [warn_correlation] hands to [warnings.warn]. *)
Definition correlation_warning (correlation_name error : string) : string :=
  "尝试计算 " ++ correlation_name ++ " 相关性失败。要隐藏此警告，请禁用计算
（使用 `df.profile_report(correlations={" ++ dquote ++ correlation_name
  ++ dquote ++ ": {" ++ dquote ++ "calculate" ++ dquote ++ ": False}})`
如果这对您的用例有问题，请将其作为问题报告：
https://github.com/ydataai/ydata-profiling/issues
(包括错误信息：" ++ dquote ++ error ++ dquote ++ "）。".

Definition warn_correlation (correlation_name error : string) : M unit :=
  warn (correlation_warning correlation_name error).

Definition correlation_measures : dict Correlation :=
  [("auto", Auto); ("pearson", Pearson); ("spearman", Spearman);
   ("kendall", Kendall); ("cramers", Cramers); ("phi_k", PhiK)].

(** [except (ValueError, AssertionError, TypeError, DataError,
    IndexError)] *)
Definition handled (e : exn) : bool :=
  match e with
  | ValueError _ | AssertionError _ | TypeError _ | DataError _
  | IndexError _ => true
  | _ => false
  end.

Section Calculate.

(** The dataset's cell type and the outcome of
    [<class>.compute(config, df, summary)]. *)
Variable A : Type.
Variable compute :
  Correlation -> Settings -> DataFrame A -> dict Summary ->
  result (option Matrix).

Definition calculate_correlation (config : Settings) (df : DataFrame A)
    (correlation_name : string) (summary : dict Summary)
  : M (option Matrix) :=
  correlation <~
    try_except
      (measure <~ lift (getitem correlation_measures correlation_name) ;;
       call (class_name measure ++ ".compute")
            (compute measure config df summary))
      handled
      (fun e =>
         _ <~ warn_correlation correlation_name (str_exn e) ;;
         ret None) ;;
  let correlation :=
    match correlation with
    | Some c => if Nat.leb (len c) 0 then None else Some c
    | None => None
    end in
  ret correlation.

End Calculate.

Definition get_active_correlations (config : Settings) : list string :=
  filter
    (fun correlation_name =>
       match get (correlations config) correlation_name with
       | Some settings => calculate settings
       | None => false
       end)
    (keys (correlations config)).

End Correlations.

(** ** [model/alerts.py] *)

Module Alerts.

Inductive AlertType : Type :=
| CONSTANT
| ZEROS
| HIGH_CORRELATION
| HIGH_CARDINALITY
| UNSUPPORTED
| DUPLICATES
| SKEWED
| IMBALANCE
| MISSING
| INFINITE
| TYPE_DATE
| UNIQUE
| CONSTANT_LENGTH
| REJECTED
| UNIFORM
| NON_STATIONARY
| SEASONAL
| EMPTY.

(** [alert_type.name] *)
Definition name (t : AlertType) : string :=
  match t with
  | CONSTANT => "CONSTANT"
  | ZEROS => "ZEROS"
  | HIGH_CORRELATION => "HIGH_CORRELATION"
  | HIGH_CARDINALITY => "HIGH_CARDINALITY"
  | UNSUPPORTED => "UNSUPPORTED"
  | DUPLICATES => "DUPLICATES"
  | SKEWED => "SKEWED"
  | IMBALANCE => "IMBALANCE"
  | MISSING => "MISSING"
  | INFINITE => "INFINITE"
  | TYPE_DATE => "TYPE_DATE"
  | UNIQUE => "UNIQUE"
  | CONSTANT_LENGTH => "CONSTANT_LENGTH"
  | REJECTED => "REJECTED"
  | UNIFORM => "UNIFORM"
  | NON_STATIONARY => "NON_STATIONARY"
  | SEASONAL => "SEASONAL"
  | EMPTY => "EMPTY"
  end.

(** [str(alert_type)], which for an [Enum] member is the class name, a
    dot and the member's name. *)
Definition str (t : AlertType) : string :=
  String.append "AlertType." (name t).

Definition AlertType_eqb (a b : AlertType) : bool :=
  String.eqb (name a) (name b).

(** What an alert's [values] attribute holds: the empty dictionary that
    [values or {}] puts in place of [None], a column summary, the table
    statistics, or the dictionary
    [{"corr": corr, "fields": fields}] of a correlation alert. *)
Inductive Values : Type :=
| NoValues
| SummaryValues (summary : Summary)
| TableValues (table : TableStats)
| CorrelationValues (corr : string) (fields : list string).

(** [class Alert]; the set [fields] is kept as the list of its members. *)
Record Alert : Type := mkAlert {
  alert_type : AlertType;
  alert_values : Values;
  column_name : option string;
  fields : list string;
  _is_empty : bool
}.

(** [Alert.__init__]; a dictionary passed as [values] is kept ([values or
    {}] replaces only [None], and an empty dictionary by an equal one). *)
Definition Alert_init (alert_type : AlertType) (values : option Values)
    (column_name : option string) (fields : option (list string))
    (is_empty : bool) : Alert :=
  {| alert_type := alert_type;
     alert_values := match values with Some v => v | None => NoValues end;
     column_name := column_name;
     fields := match fields with Some f => f | None => [] end;
     _is_empty := is_empty |}.

(** The subclasses: each fixes the type and the highlighted fields. *)
Definition ConstantLengthAlert (values : option Values)
    (column_name : option string) : Alert :=
  Alert_init CONSTANT_LENGTH values column_name
    (Some ["composition_min_length"; "composition_max_length"]) false.

Definition ConstantAlert (values : option Values)
    (column_name : option string) : Alert :=
  Alert_init CONSTANT values column_name (Some ["n_distinct"]) false.

Definition DuplicatesAlert (values : option Values)
    (column_name : option string) : Alert :=
  Alert_init DUPLICATES values column_name (Some ["n_duplicates"]) false.

Definition EmptyAlert (values : option Values)
    (column_name : option string) : Alert :=
  Alert_init EMPTY values column_name (Some ["n"]) false.

Definition HighCardinalityAlert (values : option Values)
    (column_name : option string) : Alert :=
  Alert_init HIGH_CARDINALITY values column_name (Some ["n_distinct"]) false.

Definition HighCorrelationAlert (values : option Values)
    (column_name : option string) : Alert :=
  Alert_init HIGH_CORRELATION values column_name None false.

Definition ImbalanceAlert (values : option Values)
    (column_name : option string) : Alert :=
  Alert_init IMBALANCE values column_name (Some ["imbalance"]) false.

Definition InfiniteAlert (values : option Values)
    (column_name : option string) : Alert :=
  Alert_init INFINITE values column_name
    (Some ["p_infinite"; "n_infinite"]) false.

Definition MissingAlert (values : option Values)
    (column_name : option string) : Alert :=
  Alert_init MISSING values column_name
    (Some ["p_missing"; "n_missing"]) false.

Definition NonStationaryAlert (values : option Values)
    (column_name : option string) : Alert :=
  Alert_init NON_STATIONARY values column_name None false.

Definition SeasonalAlert (values : option Values)
    (column_name : option string) : Alert :=
  Alert_init SEASONAL values column_name None false.

Definition SkewedAlert (values : option Values)
    (column_name : option string) : Alert :=
  Alert_init SKEWED values column_name (Some ["skewness"]) false.

Definition TypeDateAlert (values : option Values)
    (column_name : option string) : Alert :=
  Alert_init TYPE_DATE values column_name None false.

Definition UniformAlert (values : option Values)
    (column_name : option string) : Alert :=
  Alert_init UNIFORM values column_name None false.

Definition UniqueAlert (values : option Values)
    (column_name : option string) : Alert :=
  Alert_init UNIQUE values column_name
    (Some ["n_distinct"; "p_distinct"; "n_unique"; "p_unique"]) false.

Definition UnsupportedAlert (values : option Values)
    (column_name : option string) : Alert :=
  Alert_init UNSUPPORTED values column_name None false.

Definition ZerosAlert (values : option Values)
    (column_name : option string) : Alert :=
  Alert_init ZEROS values column_name (Some ["n_zeros"; "p_zeros"]) false.

Definition RejectedAlert (values : option Values)
    (column_name : option string) : Alert :=
  Alert_init REJECTED values column_name None false.

(** [if cond: alerts.append(alert)] *)
Definition append_if (cond : bool) (alerts : list Alert) (alert : Alert)
  : list Alert :=
  if cond then alerts ++ [alert] else alerts.

Definition alert_value (value : num) : bool :=
  negb (isna value) && gt value (Fin (1 # 100)).

Definition skewness_alert (v : num) (threshold : num) : bool :=
  negb (isna v)
  && (lt v (mul (Fin (-1 # 1)) threshold) || gt v threshold).

(** [x.get(key, np.nan)] on an embedded key. *)
Definition get_nan (f : option num) : num :=
  match f with
  | Some v => v
  | None => NaN
  end.

Definition check_table_alerts (table : TableStats) : result (list Alert) :=
  let alerts := [] in
  let alerts :=
    append_if (alert_value (get_nan (table_n_duplicates table))) alerts
      (DuplicatesAlert (Some (TableValues table)) None) in
  table_n <- field "n" (table_n table) ;;
  let alerts :=
    append_if (eq table_n (Fin 0)) alerts
      (EmptyAlert (Some (TableValues table)) None) in
  Ok alerts.

(** ["chi_squared" in summary and
     summary["chi_squared"]["pvalue"] > threshold] *)
Definition chi_squared_above (summary : Summary) (threshold : num)
  : result bool :=
  match chi_squared summary with
  | None => Ok false
  | Some chi =>
      p <- field "pvalue" (pvalue chi) ;;
      Ok (gt p threshold)
  end.

(** ["imbalance" in summary and summary["imbalance"] > threshold] *)
Definition imbalance_above (summary : Summary) (threshold : num) : bool :=
  match imbalance summary with
  | None => false
  | Some v => gt v threshold
  end.

Definition numeric_alerts (config : Settings) (summary : Summary)
  : result (list Alert) :=
  let alerts := [] in
  skewness <- field "skewness" (skewness summary) ;;
  let alerts :=
    append_if (skewness_alert skewness (vars_num_skewness_threshold config))
      alerts (SkewedAlert (Some (SummaryValues summary)) None) in
  p_infinite <- field "p_infinite" (p_infinite summary) ;;
  let alerts :=
    append_if (alert_value p_infinite) alerts
      (InfiniteAlert (Some (SummaryValues summary)) None) in
  p_zeros <- field "p_zeros" (p_zeros summary) ;;
  let alerts :=
    append_if (alert_value p_zeros) alerts
      (ZerosAlert (Some (SummaryValues summary)) None) in
  uniform <-
    chi_squared_above summary (vars_num_chi_squared_threshold config) ;;
  let alerts := append_if uniform alerts (UniformAlert None None) in
  Ok alerts.

Definition timeseries_alerts (config : Settings) (summary : Summary)
  : result (list Alert) :=
  alerts <- numeric_alerts config summary ;;
  stationary <- field "stationary" (stationary summary) ;;
  let alerts :=
    append_if (negb stationary) alerts (NonStationaryAlert None None) in
  seasonal <- field "seasonal" (seasonal summary) ;;
  let alerts := append_if seasonal alerts (SeasonalAlert None None) in
  Ok alerts.

Definition categorical_alerts (config : Settings) (summary : Summary)
  : result (list Alert) :=
  let alerts := [] in
  let alerts :=
    append_if
      (gt (get_nan (n_distinct summary))
          (vars_cat_cardinality_threshold config))
      alerts (HighCardinalityAlert (Some (SummaryValues summary)) None) in
  uniform <-
    chi_squared_above summary (vars_cat_chi_squared_threshold config) ;;
  let alerts := append_if uniform alerts (UniformAlert None None) in
  let alerts :=
    append_if
      (match date_warning summary with Some b => b | None => false end)
      alerts (TypeDateAlert None None) in
  constant_length <-
    match composition summary with
    | None => Ok false
    | Some _ =>
        min_length <- field "min_length" (min_length summary) ;;
        max_length <- field "max_length" (max_length summary) ;;
        Ok (eq min_length max_length)
    end ;;
  let alerts :=
    append_if constant_length alerts (ConstantLengthAlert None None) in
  let alerts :=
    append_if (imbalance_above summary (vars_cat_imbalance_threshold config))
      alerts (ImbalanceAlert (Some (SummaryValues summary)) None) in
  Ok alerts.

Definition boolean_alerts (config : Settings) (summary : Summary)
  : result (list Alert) :=
  let alerts := [] in
  let alerts :=
    append_if (imbalance_above summary (vars_bool_imbalance_threshold config))
      alerts (ImbalanceAlert None None) in
  Ok alerts.

Definition generic_alerts (summary : Summary) : result (list Alert) :=
  let alerts := [] in
  p_missing <- field "p_missing" (p_missing summary) ;;
  let alerts :=
    append_if (alert_value p_missing) alerts (MissingAlert None None) in
  Ok alerts.

Definition supported_alerts (summary : Summary) : result (list Alert) :=
  let alerts := [] in
  n <- field "n" (n summary) ;;
  let alerts :=
    append_if (eq (get_nan (n_distinct summary)) n) alerts
      (UniqueAlert None None) in
  let alerts :=
    append_if (eq (get_nan (n_distinct summary)) (Fin 1)) alerts
      (ConstantAlert (Some (SummaryValues summary)) None) in
  Ok alerts.

Definition unsupported_alerts (summary : Summary) : list Alert :=
  [UnsupportedAlert None None; RejectedAlert None None].

(** The closing loop of [check_variable_alerts]:
    [for idx in range(len(alerts)):
       alerts[idx].column_name = col; alerts[idx].values = description].
    Every alert in the list is an object of its own, so the two
    assignments change entry [idx] only. *)
Definition assign (alert : Alert) (col : string) (description : Summary)
  : Alert :=
  {| alert_type := alert_type alert;
     alert_values := SummaryValues description;
     column_name := Some col;
     fields := fields alert;
     _is_empty := _is_empty alert |}.

Definition backfill (alerts : list Alert) (col : string)
    (description : Summary) : list Alert :=
  fold_left
    (fun alerts idx =>
       match nth_error alerts idx with
       | Some alert => set_nth alerts idx (assign alert col description)
       | None => alerts
       end)
    (seq 0 (List.length alerts)) alerts.

(** [if type == tag: alerts += rules] *)
Definition extend_if (cond : bool) (alerts : list Alert)
    (rules : result (list Alert)) : result (list Alert) :=
  if cond then (more <- rules ;; Ok (alerts ++ more)) else Ok alerts.

Definition check_variable_alerts (config : Settings) (col : string)
    (description : Summary) : result (list Alert) :=
  let alerts := [] in
  generic <- generic_alerts description ;;
  let alerts := alerts ++ generic in
  type <- field "type" (type_ description) ;;
  alerts <-
    (if String.eqb type "Unsupported"
     then Ok (alerts ++ unsupported_alerts description)
     else
       supported <- supported_alerts description ;;
       let alerts := alerts ++ supported in
       alerts <- extend_if (String.eqb type "Categorical") alerts
                   (categorical_alerts config description) ;;
       alerts <- extend_if (String.eqb type "Numeric") alerts
                   (numeric_alerts config description) ;;
       alerts <- extend_if (String.eqb type "TimeSeries") alerts
                   (timeseries_alerts config description) ;;
       alerts <- extend_if (String.eqb type "Boolean") alerts
                   (boolean_alerts config description) ;;
       Ok alerts) ;;
  Ok (backfill alerts col description).

(** The inner loop of [check_correlation_alerts] over
    [correlated_mapping.items()].  The statement
    [set(fields).update(set(correlated_mapping.get(col, [])))] builds a
    set from [fields], updates that set and drops it: [fields] is what it
    was, and it is stored under [col], replacing what an earlier method
    left there. *)
Fixpoint consolidate_mapping (items : list (string * list string))
    (correlated_mapping : dict (list string))
    (correlations_consolidated : dict (list string))
  : dict (list string) :=
  match items with
  | [] => correlations_consolidated
  | (col, fields) :: rest =>
      let dropped := fields ++ get_default correlated_mapping col [] in
      consolidate_mapping rest correlated_mapping
        (setitem correlations_consolidated col fields)
  end.

(** The outer loop over [correlations.items()]. *)
Fixpoint consolidate (config : Settings) (items : list (string * Matrix))
    (correlations_consolidated : dict (list string))
  : result (dict (list string)) :=
  match items with
  | [] => Ok correlations_consolidated
  | (corr, matrix) :: rest =>
      settings <- getitem (correlations config) corr ;;
      if warn_high_correlations settings
      then
        correlated_mapping <-
          Correlations.perform_check_correlation matrix (threshold settings) ;;
        consolidate config rest
          (consolidate_mapping correlated_mapping correlated_mapping
             correlations_consolidated)
      else consolidate config rest correlations_consolidated
  end.

Definition check_correlation_alerts (config : Settings)
    (correlations : dict Matrix) : result (list Alert) :=
  let alerts := [] in
  correlations_consolidated <- consolidate config correlations [] ;;
  let alerts :=
    if Nat.ltb 0 (List.length correlations_consolidated)
    then
      alerts ++
      map (fun item : string * list string =>
             HighCorrelationAlert
               (Some (CorrelationValues "overall" (snd item)))
               (Some (fst item)))
          correlations_consolidated
    else alerts in
  Ok alerts.

(** The loop of [get_alerts] over [series_description.items()]. *)
Fixpoint variable_alerts (config : Settings)
    (items : list (string * Summary)) (alerts : list Alert)
  : result (list Alert) :=
  match items with
  | [] => Ok alerts
  | (col, description) :: rest =>
      more <- check_variable_alerts config col description ;;
      variable_alerts config rest (alerts ++ more)
  end.

Definition get_alerts (config : Settings) (table_stats : TableStats)
    (series_description : dict Summary) (correlations : dict Matrix)
  : result (list Alert) :=
  alerts <- check_table_alerts table_stats ;;
  alerts <- variable_alerts config series_description alerts ;;
  more <- check_correlation_alerts config correlations ;;
  let alerts := alerts ++ more in
  Ok (sort (fun alert => str (alert_type alert)) alerts).

End Alerts.

(** ** [model/missing.py] *)

Module Missing.

(** The three diagram multimethods, registered by back-ends outside the
    modelled files. *)
Inductive MissingFunction : Type :=
| missing_bar
| missing_matrix
| missing_heatmap.

Definition function_name (f : MissingFunction) : string :=
  match f with
  | missing_bar => "missing_bar"
  | missing_matrix => "missing_matrix"
  | missing_heatmap => "missing_heatmap"
  end.

(** One entry of [missing_map]. *)
Record DiagramSettings : Type := mkDiagramSettings {
  min_missing : num;
  name : string;
  caption : string;
  function : MissingFunction
}.

(** The dictionary [get_missing_diagram] returns. *)
Record Diagram : Type := mkDiagram {
  diagram_name : string;
  diagram_caption : string;
  diagram_matrix : string
}.

Definition missing_map : dict DiagramSettings :=
  [("bar",
    {| min_missing := Fin 0;
       name := "总数";
       caption := "按列简单可视化空值。";
       function := missing_bar |});
   ("matrix",
    {| min_missing := Fin 0;
       name := "矩阵";
       caption := "无效矩阵是一种数据密集显示，可以让您快速直观地识别出数据完整性中的模式。";
       function := missing_matrix |});
   ("heatmap",
    {| min_missing := Fin (2 # 1);
       name := "热力图";
       caption := "相关性热力图衡量了空值相关性：一个变量的存在或缺失对另一个变量的存在产生影响程度。";
       function := missing_heatmap |})].

(** The filter of the comprehension in [get_missing_active], with the
    short-circuit order of its [and] and [or]. *)
Definition is_active (config : Settings) (table_stats : TableStats)
    (name : string) (settings : DiagramSettings) : result bool :=
  enabled <- getitem (missing_diagrams config) name ;;
  enough <-
    (if enabled : bool
     then
       n_with <- field "n_vars_with_missing"
                   (table_n_vars_with_missing table_stats) ;;
       Ok (ge n_with (min_missing settings))
     else Ok false) ;;
  if enough : bool
  then
    if negb (String.eqb name "heatmap")
    then Ok true
    else
      n_with <- field "n_vars_with_missing"
                  (table_n_vars_with_missing table_stats) ;;
      n_all <- field "n_vars_all_missing"
                 (table_n_vars_all_missing table_stats) ;;
      Ok (ge (sub n_with n_all) (min_missing settings))
  else Ok false.

Fixpoint filter_active (config : Settings) (table_stats : TableStats)
    (items : list (string * DiagramSettings))
  : result (dict DiagramSettings) :=
  match items with
  | [] => Ok []
  | (name, settings) :: rest =>
      keep <- is_active config table_stats name settings ;;
      kept <- filter_active config table_stats rest ;;
      Ok (if keep : bool then (name, settings) :: kept else kept)
  end.

Definition get_missing_active (config : Settings) (table_stats : TableStats)
  : result (dict DiagramSettings) :=
  filter_active config table_stats missing_map.

(** The text [warn_missing] hands to [warnings.warn]. *)
Definition missing_warning (missing_name error : string) : string :=
  "尝试生成 " ++ missing_name ++ " 缺失值图表时失败。要隐藏此警告，请禁用计算
（使用 `df.profile_report(missing_diagrams={" ++ dquote ++ missing_name
  ++ dquote ++ ": False}`)
如果这对您的使用案例有问题，请将其报告为一个问题：
https://github.com/ydataai/ydata-profiling/issues
（包括错误信息: '" ++ error ++ "'）".

(** [handle_missing(name, fn)(...)], with [fn] applied to its arguments:
    the [except] clause returns nothing, that is [None]. *)
Definition handle_missing (name : string) (fn : M string)
  : M (option string) :=
  try_except
    (r <~ fn ;; ret (Some r))
    (fun e => match e with ValueError _ => true | _ => false end)
    (fun e =>
       _ <~ warn (missing_warning name (str_exn e)) ;;
       ret None).

Section Diagram.

(** The dataset's cell type and the outcome of [fn(config, df)] for a
    diagram function [fn]. *)
Variable A : Type.
Variable render :
  MissingFunction -> Settings -> DataFrame A -> result string.

Definition get_missing_diagram (config : Settings) (df : DataFrame A)
    (settings : DiagramSettings) : M (option Diagram) :=
  if Nat.eqb (len df) 0
  then ret None
  else
    result <~
      handle_missing (name settings)
        (call (function_name (function settings))
              (render (function settings) config df)) ;;
    match result with
    | None => ret None
    | Some r =>
        let missing :=
          {| diagram_name := name settings;
             diagram_caption := caption settings;
             diagram_matrix := r |} in
        ret (Some missing)
    end.

End Diagram.

End Missing.

(** ** [model/describe.py] *)

Module Describe.

(** Modelled from the spec: [get_duplicates] lives outside the modelled
    files; the metrics it returns for merging into the table statistics
    are the duplicate-row count and percentage (either may be absent). *)
Record DuplicateMetrics : Type := mkDuplicateMetrics {
  metrics_n_duplicates : option num;
  metrics_p_duplicates : option num
}.

(** [table_stats.update(metrics)] *)
Definition update (table_stats : TableStats) (metrics : DuplicateMetrics)
  : TableStats :=
  {| table_n := table_n table_stats;
     table_n_duplicates :=
       match metrics_n_duplicates metrics with
       | Some v => Some v
       | None => table_n_duplicates table_stats
       end;
     table_p_duplicates :=
       match metrics_p_duplicates metrics with
       | Some v => Some v
       | None => table_p_duplicates table_stats
       end;
     table_n_vars_with_missing := table_n_vars_with_missing table_stats;
     table_n_vars_all_missing := table_n_vars_all_missing table_stats |}.

(** The parts of [BaseDescription] built by the modelled stages. *)
Record BaseDescription : Type := mkBaseDescription {
  table : TableStats;
  variables : dict Summary;
  correlations : dict Matrix;
  missing : dict Missing.Diagram;
  alerts : list Alerts.Alert
}.

(** [{column: description["type"]
      for column, description in series_description.items()}] *)
Fixpoint variable_types (items : list (string * Summary))
  : result (dict string) :=
  match items with
  | [] => Ok []
  | (column, description) :: rest =>
      type <- field "type" (type_ description) ;;
      types <- variable_types rest ;;
      Ok ((column, type) :: types)
  end.

(** [{key: value for key, value in d.items() if value is not None}] *)
Fixpoint drop_none {V} (d : dict (option V)) : dict V :=
  match d with
  | [] => []
  | (key, Some value) :: rest => (key, value) :: drop_none rest
  | (key, None) :: rest => drop_none rest
  end.

Section Pipeline.

(** The dataset's cell type and the collaborators of [describe] that
    live outside the modelled files, each as the outcome of its call.
    The progress bar only counts and prints; it is left out.  The
    scatter, sampling and closing (time index, package, analysis)
    stages produce parts of the description no modelled stage reads;
    each is kept as one call that returns or raises. *)
Variable A : Type.
Variable check_dataframe : DataFrame A -> result unit.
Variable preprocess : Settings -> DataFrame A -> result (DataFrame A).
Variable get_series_descriptions :
  Settings -> DataFrame A -> result (dict Summary).
Variable get_table_stats :
  Settings -> DataFrame A -> dict Summary -> result TableStats.
Variable compute :
  Correlations.Correlation -> Settings -> DataFrame A -> dict Summary ->
  result (option Matrix).
Variable scatter_stage :
  Settings -> DataFrame A -> list string -> result unit.
Variable render :
  Missing.MissingFunction -> Settings -> DataFrame A -> result string.
Variable sample_stage : Settings -> DataFrame A -> result unit.
Variable get_duplicates :
  Settings -> DataFrame A -> list string -> result DuplicateMetrics.
Variable closing_stages :
  Settings -> DataFrame A -> TableStats -> result unit.

(** [{name: calculate_correlation(config, df, name, series_description)
      for name in correlation_names}] *)
Fixpoint calculate_correlations (config : Settings) (df : DataFrame A)
    (series_description : dict Summary) (correlation_names : list string)
    (acc : dict (option Matrix)) : M (dict (option Matrix)) :=
  match correlation_names with
  | [] => ret acc
  | correlation_name :: rest =>
      correlation <~
        Correlations.calculate_correlation compute config df
          correlation_name series_description ;;
      calculate_correlations config df series_description rest
        (setitem acc correlation_name correlation)
  end.

(** [{name: get_missing_diagram(config, df, settings)
      for name, settings in missing_map.items()}] *)
Fixpoint missing_diagrams_of (config : Settings) (df : DataFrame A)
    (items : list (string * Missing.DiagramSettings))
    (acc : dict (option Missing.Diagram))
  : M (dict (option Missing.Diagram)) :=
  match items with
  | [] => ret acc
  | (name, settings) :: rest =>
      diagram <~ Missing.get_missing_diagram render config df settings ;;
      missing_diagrams_of config df rest (setitem acc name diagram)
  end.

(** The correlation stage: skipped when the table has no rows. *)
Definition correlations_stage (config : Settings) (df : DataFrame A)
    (series_description : dict Summary) (table_stats : TableStats)
  : M (dict Matrix) :=
  n <~ lift (field "n" (table_n table_stats)) ;;
  if ne n (Fin 0)
  then
    let correlation_names := Correlations.get_active_correlations config in
    correlations <~
      calculate_correlations config df series_description
        correlation_names [] ;;
    ret (drop_none correlations)
  else ret [].

Definition describe (config : Settings) (df : option (DataFrame A))
  : M BaseDescription :=
  match df with
  | None =>
      lift (Raise (ValueError
        "无法在没有 DataFrame 的情况下描述一个 `lazy` ProfileReport。"))
  | Some df =>
      _ <~ call "check_dataframe" (check_dataframe df) ;;
      df <~ call "preprocess" (preprocess config df) ;;
      series_description <~
        call "get_series_descriptions"
             (get_series_descriptions config df) ;;
      variables <~ lift (variable_types series_description) ;;
      let supported_columns :=
        map fst
          (filter (fun item => negb (String.eqb (snd item) "Unsupported"))
             variables) in
      let interval_columns :=
        map fst
          (filter
             (fun item => String.eqb (snd item) "Numeric"
                          || String.eqb (snd item) "TimeSeries")
             variables) in
      table_stats <~
        call "get_table_stats"
             (get_table_stats config df series_description) ;;
      correlations <~
        correlations_stage config df series_description table_stats ;;
      _ <~ call "get_scatter_plot"
             (scatter_stage config df interval_columns) ;;
      missing_map <~ lift (Missing.get_missing_active config table_stats) ;;
      missing <~ missing_diagrams_of config df missing_map [] ;;
      let missing := drop_none missing in
      _ <~ call "get_sample" (sample_stage config df) ;;
      metrics <~
        call "get_duplicates" (get_duplicates config df supported_columns) ;;
      let table_stats := update table_stats metrics in
      alerts <~
        lift (Alerts.get_alerts config table_stats series_description
                correlations) ;;
      _ <~ call "finalize" (closing_stages config df table_stats) ;;
      ret {| table := table_stats;
             variables := series_description;
             correlations := correlations;
             missing := missing;
             alerts := alerts |}
  end.

End Pipeline.

End Describe.

(* ================================================================== *)
(** * Part II: vocabulary of the statements and sample inputs         *)
(* ================================================================== *)

(** ** The threshold check *)

(** Entry [(i, j)] of a matrix, when it has one. *)
Definition entry (m : Matrix) (i j : nat) : option num :=
  match nth_error (values m) i with
  | Some row => nth_error row j
  | None => None
  end.

(** Column [j] is another column than [i] and their coefficient reaches the
    threshold in absolute value. *)
Definition qualifies (m : Matrix) (t : num) (i j : nat) : Prop :=
  i <> j /\ exists x, entry m i j = Some x /\ ge (abs x) t = true.

(** A square matrix over its column labels. *)
Definition square (m : Matrix) : Prop :=
  List.length (values m) = List.length (columns m)
  /\ Forall (fun row => List.length row = List.length (columns m)) (values m).

(** Row [i] of the boolean index after the diagonal was cleared. *)
Definition mask_of (m : Matrix) (t : num) (i : nat) : option (list bool) :=
  option_map
    (fun row => set_nth (map (fun x => ge (abs x) t) row) i false)
    (nth_error (values m) i).

(** The item the comprehension contributes for column [i]. *)
Definition item_of (m : Matrix) (t : num) (i : nat) (col : string)
  : list (string * list string) :=
  match mask_of m t i with
  | Some mask =>
      if any mask
      then [(col, Correlations.mask_select (columns m) mask)]
      else []
  | None => []
  end.

Fixpoint items_from (m : Matrix) (t : num) (i : nat) (todo : list string)
  : list (string * list string) :=
  match todo with
  | [] => []
  | col :: rest => item_of m t i col ++ items_from m t (S i) rest
  end.

(** ** Sorting *)

(** The order of a rank in the natural numbers, and the elements of one
    rank. *)
Definition rank_le (A : Type) (rank : A -> nat) (a b : A) : Prop :=
  rank a <= rank b.

Definition has_rank (A : Type) (rank : A -> nat) (r : nat) (a : A) : bool :=
  Nat.eqb (rank a) r.

(** The alphabetical position of an alert type's name. *)
Definition alphabetical (t : Alerts.AlertType) : nat :=
  match t with
  | Alerts.CONSTANT => 0
  | Alerts.CONSTANT_LENGTH => 1
  | Alerts.DUPLICATES => 2
  | Alerts.EMPTY => 3
  | Alerts.HIGH_CARDINALITY => 4
  | Alerts.HIGH_CORRELATION => 5
  | Alerts.IMBALANCE => 6
  | Alerts.INFINITE => 7
  | Alerts.MISSING => 8
  | Alerts.NON_STATIONARY => 9
  | Alerts.REJECTED => 10
  | Alerts.SEASONAL => 11
  | Alerts.SKEWED => 12
  | Alerts.TYPE_DATE => 13
  | Alerts.UNIFORM => 14
  | Alerts.UNIQUE => 15
  | Alerts.UNSUPPORTED => 16
  | Alerts.ZEROS => 17
  end.

(** [a] does not come after [b] in the order of the alert types' names. *)
Definition by_name (a b : Alerts.Alert) : Prop :=
  String.leb (Alerts.name (Alerts.alert_type a))
             (Alerts.name (Alerts.alert_type b)) = true.

Definition of_type (t : Alerts.AlertType) (a : Alerts.Alert) : bool :=
  Alerts.AlertType_eqb (Alerts.alert_type a) t.

(** [per_column] lists, column by column, what [check_variable_alerts]
    returns on the items of [series_description]. *)
Definition column_alerts (config : Settings) (series_description : dict Summary)
    (per_column : list (list Alerts.Alert)) : Prop :=
  Forall2
    (fun item alerts =>
       Alerts.check_variable_alerts config (fst item) (snd item) = Ok alerts)
    series_description per_column.

Definition alert_rank (a : Alerts.Alert) : nat :=
  alphabetical (Alerts.alert_type a).

(** ** Alerts *)

(** The alert [check_correlation_alerts] builds for a column and its
    partner list. *)
Definition correlation_alert (col : string) (partners : list string)
  : Alerts.Alert :=
  Alerts.HighCorrelationAlert
    (Some (Alerts.CorrelationValues "overall" partners)) (Some col).

(** Some alert of type [t] is in the list. *)
Definition emits (t : Alerts.AlertType) (alerts : list Alerts.Alert) : bool :=
  existsb (of_type t) alerts.

(** The alerts have their types among [types]. *)
Definition emits_only (types : list Alerts.AlertType)
    (alerts : list Alerts.Alert) : Prop :=
  Forall (fun a => In (Alerts.alert_type a) types) alerts.

(** The types the rules of one column type may emit besides the generic
    and the supported ones. *)
Definition type_specific : list Alerts.AlertType :=
  [Alerts.HIGH_CARDINALITY; Alerts.UNIFORM; Alerts.TYPE_DATE;
   Alerts.CONSTANT_LENGTH; Alerts.IMBALANCE; Alerts.SKEWED; Alerts.INFINITE;
   Alerts.ZEROS; Alerts.NON_STATIONARY; Alerts.SEASONAL].

(** The types the column rules emit: every type but the two of the table
    rules and the one of the correlation alerts. *)
Definition column_rule_type (t : Alerts.AlertType) : bool :=
  match t with
  | Alerts.EMPTY | Alerts.DUPLICATES | Alerts.HIGH_CORRELATION => false
  | _ => true
  end.

Definition of_column_rule (a : Alerts.Alert) : Prop :=
  column_rule_type (Alerts.alert_type a) = true.

(** The alert belongs to no column. *)
Definition table_scope (a : Alerts.Alert) : Prop :=
  Alerts.column_name a = None.

(** ** Rounding *)

(** [10 ** ndigits] *)
Fixpoint pow10 (ndigits : nat) : positive :=
  match ndigits with
  | O => 1
  | S k => 10 * pow10 k
  end.

(** The nearest integer, a tie going to the even one. *)
Definition round_half_even (q : Q) : Z :=
  let f := Qfloor q in
  match Qcompare (q - inject_Z f) (1 # 2) with
  | Lt => f
  | Gt => (f + 1)%Z
  | Eq => if Z.even f then f else (f + 1)%Z
  end.

(** The built-in [round(value, ndigits)] that [fmt_percent] uses, for
    [ndigits >= 0]. *)
Definition round (value : Q) (ndigits : nat) : Q :=
  Qmake (round_half_even (value * (Zpos (pow10 ndigits) # 1)))
        (pow10 ndigits).

(** Following the words of the specification, "exceeds the cutoff of 0.01
    after rounding": the rule that first rounds a defined [p_missing] to
    [ndigits] decimals and then compares. *)
Definition missing_after_rounding (ndigits : nat) (p : num) : bool :=
  match p with
  | NaN => false
  | Fin q => gt (Fin (round q ndigits)) (Fin (1 # 100))
  end.

(** ** Warnings, calls and the correlation stage *)

(** The text [text] has the text [part] in it. *)
Definition mentions (text part : string) : Prop :=
  exists before after, text = (before ++ part ++ after)%string.

(** What computing the method called [name] comes to: the class's
    [compute], or the [KeyError] of an unknown name. *)
Definition outcome (A : Type)
    (compute : Correlations.Correlation -> Settings -> DataFrame A ->
               dict Summary -> result (option Matrix))
    (config : Settings) (df : DataFrame A) (series_description : dict Summary)
    (name : string) : result (option Matrix) :=
  match get Correlations.correlation_measures name with
  | Some measure => compute measure config df series_description
  | None => Raise (KeyError name)
  end.

(** The matrix that is kept of an outcome: a computed one that has rows. *)
Definition kept (o : result (option Matrix)) : option Matrix :=
  match o with
  | Ok (Some m) => if Nat.leb (len m) 0 then None else Some m
  | _ => None
  end.

(** The outcome returns, or raises one of the handled classes. *)
Definition absorbed (o : result (option Matrix)) : Prop :=
  match o with
  | Ok _ => True
  | Raise e => Correlations.handled e = true
  end.

(** The events of one [calculate_correlation]. *)
Definition events_of (A : Type)
    (compute : Correlations.Correlation -> Settings -> DataFrame A ->
               dict Summary -> result (option Matrix))
    (config : Settings) (df : DataFrame A) (series_description : dict Summary)
    (name : string) : list event :=
  match get Correlations.correlation_measures name with
  | Some measure =>
      Call (Correlations.class_name measure ++ ".compute")
      :: match compute measure config df series_description with
         | Ok _ => []
         | Raise e =>
             if Correlations.handled e
             then [Warning (Correlations.correlation_warning name (str_exn e))]
             else []
         end
  | None => []
  end.

(** The dictionary the comprehension over the method names builds. *)
Definition computed (A : Type)
    (compute : Correlations.Correlation -> Settings -> DataFrame A ->
               dict Summary -> result (option Matrix))
    (config : Settings) (df : DataFrame A) (series_description : dict Summary)
    (names : list string) (acc : dict (option Matrix))
  : dict (option Matrix) :=
  fold_left
    (fun acc name =>
       setitem acc name
         (kept (outcome compute config df series_description name)))
    names acc.

(** The event is a call of some correlation class's [compute]. *)
Definition is_compute_call (e : event) : bool :=
  match e with
  | Call callee =>
      existsb
        (fun c => String.eqb callee (Correlations.class_name c ++ ".compute"))
        [Correlations.Auto; Correlations.Spearman; Correlations.Pearson;
         Correlations.Kendall; Correlations.Cramers; Correlations.PhiK]
  | Warning _ => false
  end.

Definition no_compute_call (log : list event) : Prop :=
  Forall (fun e => is_compute_call e = false) log.

(** ** Sample inputs *)

(** A three-column matrix and threshold on which the hypotheses of C2
    hold: [a] and [b] correlate at 0.95, [c] with neither. *)
Definition sample_matrix : Matrix :=
  {| columns := ["a"; "b"; "c"];
     values :=
       [[Fin 1; Fin (95 # 100); Fin (1 # 10)];
        [Fin (95 # 100); Fin 1; NaN];
        [Fin (1 # 10); NaN; Fin 1]] |}.

Definition sample_config : Settings :=
  {| correlations :=
       [("pearson",
         {| calculate := true; warn_high_correlations := true;
            threshold := Fin (9 # 10) |});
        ("spearman",
         {| calculate := true; warn_high_correlations := true;
            threshold := Fin (9 # 10) |});
        ("phi_k",
         {| calculate := true; warn_high_correlations := false;
            threshold := Fin (9 # 10) |})];
     vars_num_skewness_threshold := Fin (20 # 1);
     vars_num_chi_squared_threshold := Fin (999 # 1000);
     vars_cat_cardinality_threshold := Fin (40 # 1);
     vars_cat_chi_squared_threshold := Fin (999 # 1000);
     vars_cat_imbalance_threshold := Fin (1 # 2);
     vars_bool_imbalance_threshold := Fin (1 # 2);
     missing_diagrams :=
       [("bar", true); ("matrix", true); ("heatmap", true)] |}.

(** A categorical column of 50 rows, all distinct, of three-character
    values that parse as dates, with a uniform chi-squared result. *)
Definition categorical_summary : Summary :=
  {| type_ := Some "Categorical";
     n := Some (Fin (50 # 1));
     n_distinct := Some (Fin (50 # 1));
     p_missing := Some (Fin (2 # 100));
     skewness := None;
     p_infinite := None;
     p_zeros := None;
     chi_squared := Some {| pvalue := Some (Fin 1) |};
     stationary := None;
     seasonal := None;
     date_warning := Some true;
     composition := Some tt;
     min_length := Some (Fin (3 # 1));
     max_length := Some (Fin (3 # 1));
     imbalance := None |}.

(** The same column as summarised without a ["composition"] entry. *)
Definition categorical_summary_without_composition : Summary :=
  {| type_ := Some "Categorical";
     n := Some (Fin (50 # 1));
     n_distinct := Some (Fin (50 # 1));
     p_missing := Some (Fin (2 # 100));
     skewness := None;
     p_infinite := None;
     p_zeros := None;
     chi_squared := Some {| pvalue := Some (Fin 1) |};
     stationary := None;
     seasonal := None;
     date_warning := Some true;
     composition := None;
     min_length := Some (Fin (3 # 1));
     max_length := Some (Fin (3 # 1));
     imbalance := None |}.

(** A column of a table without rows, typed as unsupported. *)
Definition unsupported_summary : Summary :=
  {| type_ := Some "Unsupported";
     n := Some (Fin 0);
     n_distinct := None;
     p_missing := Some (Fin 0);
     skewness := None;
     p_infinite := None;
     p_zeros := None;
     chi_squared := None;
     stationary := None;
     seasonal := None;
     date_warning := None;
     composition := None;
     min_length := None;
     max_length := None;
     imbalance := None |}.

Definition sample_table : TableStats :=
  {| table_n := Some (Fin (50 # 1));
     table_n_duplicates := Some (Fin (2 # 1));
     table_p_duplicates := Some (Fin (4 # 100));
     table_n_vars_with_missing := Some (Fin 1);
     table_n_vars_all_missing := Some (Fin 0) |}.

Definition empty_table : TableStats :=
  {| table_n := Some (Fin 0);
     table_n_duplicates := None;
     table_p_duplicates := None;
     table_n_vars_with_missing := Some (Fin 0);
     table_n_vars_all_missing := Some (Fin 0) |}.

(** A second matrix over the columns of [sample_matrix], in which [a]
    correlates with [c] and not with [b]. *)
Definition second_matrix : Matrix :=
  {| columns := ["a"; "b"; "c"];
     values :=
       [[Fin 1; Fin (1 # 10); Fin (95 # 100)];
        [Fin (1 # 10); Fin 1; NaN];
        [Fin (95 # 100); NaN; Fin 1]] |}.

(** A column of one row and one value: both alerts. *)
Definition single_row_summary : Summary :=
  {| type_ := Some "Boolean";
     n := Some (Fin 1);
     n_distinct := Some (Fin 1);
     p_missing := Some (Fin 0);
     skewness := None;
     p_infinite := None;
     p_zeros := None;
     chi_squared := None;
     stationary := None;
     seasonal := None;
     date_warning := None;
     composition := None;
     min_length := None;
     max_length := None;
     imbalance := None |}.

(** A summary that has [p_missing] and a type only. *)
Definition summary_with_p_missing (p : num) : Summary :=
  {| type_ := Some "Unsupported";
     n := None;
     n_distinct := None;
     p_missing := Some p;
     skewness := None;
     p_infinite := None;
     p_zeros := None;
     chi_squared := None;
     stationary := None;
     seasonal := None;
     date_warning := None;
     composition := None;
     min_length := None;
     max_length := None;
     imbalance := None |}.

(** Sample datasets and diagram functions: the heat map fails. *)
Definition empty_dataset : DataFrame nat :=
  {| columns := ["a"; "b"]; values := [] |}.

Definition small_dataset : DataFrame nat :=
  {| columns := ["a"; "b"]; values := [[1; 2]; [3; 4]] |}.

Definition sample_render (f : Missing.MissingFunction) (config : Settings)
    (df : DataFrame nat) : result string :=
  match f with
  | Missing.missing_heatmap => Raise (ValueError "zero-size array")
  | _ => Ok "<svg/>"
  end.

Definition heatmap_settings : Missing.DiagramSettings :=
  {| Missing.min_missing := Fin (2 # 1);
     Missing.name := "heatmap";
     Missing.caption := "nullity correlation";
     Missing.function := Missing.missing_heatmap |}.

(** Sample collaborators over the sample datasets: Pearson computes
    [sample_matrix], Spearman a matrix without rows, Phi-K fails with a
    [ValueError]; the other stages return. *)
Definition sample_compute (c : Correlations.Correlation) (config : Settings)
    (df : DataFrame nat) (summary : dict Summary) : result (option Matrix) :=
  match c with
  | Correlations.Pearson => Ok (Some sample_matrix)
  | Correlations.Spearman => Ok (Some {| columns := []; values := [] |})
  | Correlations.PhiK => Raise (ValueError "phik failed")
  | _ => Ok None
  end.

Definition sample_describe (series_description : dict Summary)
    (table_stats : TableStats) (df : DataFrame nat)
  : result Describe.BaseDescription * list event :=
  Describe.describe
    (fun _ => Ok tt)
    (fun _ df => Ok df)
    (fun _ _ => Ok series_description)
    (fun _ _ _ => Ok table_stats)
    sample_compute
    (fun _ _ _ => Ok tt)
    sample_render
    (fun _ _ => Ok tt)
    (fun _ _ _ =>
       Ok {| Describe.metrics_n_duplicates := Some (Fin 0);
             Describe.metrics_p_duplicates := Some (Fin 0) |})
    (fun _ _ _ => Ok tt)
    sample_config (Some df) [].

Definition sample_run : result Describe.BaseDescription * list event :=
  sample_describe [("x", categorical_summary)] sample_table small_dataset.

(** A categorical column of a table without rows: no row, no value. *)
Definition zero_row_categorical : Summary :=
  {| type_ := Some "Categorical";
     n := Some (Fin 0);
     n_distinct := Some (Fin 0);
     p_missing := Some (Fin 0);
     skewness := None;
     p_infinite := None;
     p_zeros := None;
     chi_squared := None;
     stationary := None;
     seasonal := None;
     date_warning := None;
     composition := None;
     min_length := None;
     max_length := None;
     imbalance := None |}.

(** A run over a dataset of two columns and no rows. *)
Definition empty_run : result Describe.BaseDescription * list event :=
  sample_describe
    [("y", unsupported_summary); ("z", zero_row_categorical)]
    empty_table empty_dataset.

(* ================================================================== *)
(** * Part III: more of the code                                      *)
(* ================================================================== *)

(** The functions of the modelled files that Part I leaves out and one of
    their callers in the report, with the vocabulary of their properties. *)

(** ** The threshold check, continued *)

(** [b] is listed as a partner of [a] by the check of [m] at threshold [t]. *)
Definition partner (m : Matrix) (t : num) (a b : string) : Prop :=
  exists d partners,
    Correlations.perform_check_correlation m t = Ok d
    /\ get d a = Some partners
    /\ In b partners.

(** Entries mirrored at the diagonal are the same. *)
Definition symmetric (m : Matrix) : Prop :=
  forall i j, entry m i j = entry m j i.

(** [l1] is [l2] with some elements left out. *)
Inductive subseq (A : Type) : list A -> list A -> Prop :=
| subseq_nil : subseq [] []
| subseq_skip x l1 l2 : subseq l1 l2 -> subseq l1 (x :: l2)
| subseq_keep x l1 l2 : subseq l1 l2 -> subseq (x :: l1) (x :: l2).

(** ** The column rules, continued *)

(** The p-value of the chi-squared entry is above the threshold; without
    the entry it is not. *)
Definition uniform_above (summary : Summary) (threshold : num) : bool :=
  match chi_squared summary with
  | Some chi => gt (Alerts.get_nan (pvalue chi)) threshold
  | None => false
  end.

(** The optional entries that are there are complete: a chi-squared
    result has its p-value. *)
Definition chi_squared_complete (summary : Summary) : Prop :=
  forall chi, chi_squared summary = Some chi -> pvalue chi <> None.

(** A strongly left-skewed, seasonal, non-stationary series with a zero in
    a fifth of its rows. *)
Definition timeseries_summary : Summary :=
  {| type_ := Some "TimeSeries";
     n := Some (Fin (50 # 1));
     n_distinct := Some (Fin (45 # 1));
     p_missing := Some (Fin 0);
     skewness := Some (Fin (-25 # 1));
     p_infinite := Some (Fin 0);
     p_zeros := Some (Fin (2 # 10));
     chi_squared := None;
     stationary := Some false;
     seasonal := Some true;
     date_warning := None;
     composition := None;
     min_length := None;
     max_length := None;
     imbalance := None |}.

(** A boolean column, nine values in ten the same. *)
Definition boolean_summary : Summary :=
  {| type_ := Some "Boolean";
     n := Some (Fin (50 # 1));
     n_distinct := Some (Fin (2 # 1));
     p_missing := Some (Fin 0);
     skewness := None;
     p_infinite := None;
     p_zeros := None;
     chi_squared := None;
     stationary := None;
     seasonal := None;
     date_warning := None;
     composition := None;
     min_length := None;
     max_length := None;
     imbalance := Some (Fin (6 # 10)) |}.

(** The types of the alerts of a list, in order. *)
Definition types (alerts : list Alerts.Alert) : list Alerts.AlertType :=
  map Alerts.alert_type alerts.

(** The alert types the rules can emit for a column of type [type], in
    the order the rules are evaluated. *)
Definition rule_order (type : string) : list Alerts.AlertType :=
  [Alerts.MISSING]
  ++ (if String.eqb type "Unsupported"
      then [Alerts.UNSUPPORTED; Alerts.REJECTED]
      else
        [Alerts.UNIQUE; Alerts.CONSTANT]
        ++ (if String.eqb type "Categorical"
            then [Alerts.HIGH_CARDINALITY; Alerts.UNIFORM; Alerts.TYPE_DATE;
                  Alerts.CONSTANT_LENGTH; Alerts.IMBALANCE]
            else [])
        ++ (if String.eqb type "Numeric"
            then [Alerts.SKEWED; Alerts.INFINITE; Alerts.ZEROS;
                  Alerts.UNIFORM]
            else [])
        ++ (if String.eqb type "TimeSeries"
            then [Alerts.SKEWED; Alerts.INFINITE; Alerts.ZEROS;
                  Alerts.UNIFORM; Alerts.NON_STATIONARY; Alerts.SEASONAL]
            else [])
        ++ (if String.eqb type "Boolean" then [Alerts.IMBALANCE] else [])).

(** ** The correlation alerts, continued *)

(** The method of [item] is checked for alerts and its matrix lists
    [fields] as the partners of [col]. *)
Definition flags (config : Settings) (item : string * Matrix) (col : string)
    (fields : list string) : Prop :=
  exists settings mapping,
    get (correlations config) (fst item) = Some settings
    /\ warn_high_correlations settings = true
    /\ Correlations.perform_check_correlation (snd item) (threshold settings)
       = Ok mapping
    /\ get mapping col = Some fields.

(** [fields] is what the last of the methods that flag [col] lists. *)
Definition last_flags (config : Settings) (correlations : dict Matrix)
    (col : string) (fields : list string) : Prop :=
  exists before item after,
    correlations = before ++ item :: after
    /\ flags config item col fields
    /\ forall item' fields', In item' after -> ~ flags config item' col fields'.

(** ** The alert list, continued *)

(** What identifies an alert in a report: its type and its column. *)
Definition slot (a : Alerts.Alert) : Alerts.AlertType * option string :=
  (Alerts.alert_type a, Alerts.column_name a).

(** The alert is one of the rule alerts of column [col]: it names the
    column and is not a correlation alert. *)
Definition of_column (col : string) (a : Alerts.Alert) : bool :=
  match Alerts.column_name a with
  | Some c => String.eqb c col
  | None => false
  end
  && negb (of_type Alerts.HIGH_CORRELATION a).

(** [str(alert.alert_type)], the key [get_alerts] sorts by. *)
Definition type_name (a : Alerts.Alert) : string :=
  Alerts.str (Alerts.alert_type a).

(** Two summarised columns, one categorical and one unsupported. *)
Definition sample_series : dict Summary :=
  [("x", categorical_summary); ("y", unsupported_summary)].

(** ** The missing-value diagrams, continued *)

(** Table statistics that lack the two counts of columns with missing
    values. *)
Definition table_without_counts : TableStats :=
  {| table_n := Some (Fin (50 # 1));
     table_n_duplicates := None;
     table_p_duplicates := None;
     table_n_vars_with_missing := None;
     table_n_vars_all_missing := None |}.

(** A configuration with every diagram switched off. *)
Definition config_without_diagrams : Settings :=
  {| correlations := correlations sample_config;
     vars_num_skewness_threshold := vars_num_skewness_threshold sample_config;
     vars_num_chi_squared_threshold :=
       vars_num_chi_squared_threshold sample_config;
     vars_cat_cardinality_threshold :=
       vars_cat_cardinality_threshold sample_config;
     vars_cat_chi_squared_threshold :=
       vars_cat_chi_squared_threshold sample_config;
     vars_cat_imbalance_threshold := vars_cat_imbalance_threshold sample_config;
     vars_bool_imbalance_threshold :=
       vars_bool_imbalance_threshold sample_config;
     missing_diagrams :=
       [("bar", false); ("matrix", false); ("heatmap", false)] |}.

(** A diagram function that fails outside the handled class. *)
Definition failing_render (f : Missing.MissingFunction) (config : Settings)
    (df : DataFrame nat) : result string :=
  Raise (TypeError "no numeric data to plot").

(** ** The pipeline, continued *)

(** The collaborators [describe] calls once each, in the order of the
    calls. *)
Definition stages : list string :=
  ["check_dataframe"; "preprocess"; "get_series_descriptions";
   "get_table_stats"; "get_scatter_plot"; "get_sample"; "get_duplicates";
   "finalize"].

Definition is_stage_call (e : event) : bool :=
  match e with
  | Call callee => existsb (String.eqb callee) stages
  | Warning _ => false
  end.

(** The stage calls of a log, in order. *)
Definition stage_calls (log : list event) : list event :=
  filter is_stage_call log.

Definition no_stage_call (log : list event) : Prop :=
  Forall (fun e => is_stage_call e = false) log.

(** The summarised columns whose type is not ["Unsupported"]. *)
Definition supported_columns (series_description : dict Summary)
  : list string :=
  keys
    (filter
       (fun item : string * Summary =>
          match type_ (snd item) with
          | Some type => negb (String.eqb type "Unsupported")
          | None => false
          end)
       series_description).

(** What is kept of a diagram: the rendered text with the entry's name and
    caption, when the dataset has rows and the diagram function returns. *)
Definition rendered (A : Type)
    (render : Missing.MissingFunction -> Settings -> DataFrame A ->
              result string)
    (config : Settings) (df : DataFrame A)
    (settings : Missing.DiagramSettings) : option Missing.Diagram :=
  if Nat.eqb (len df) 0
  then None
  else
    match render (Missing.function settings) config df with
    | Ok text =>
        Some {| Missing.diagram_name := Missing.name settings;
                Missing.diagram_caption := Missing.caption settings;
                Missing.diagram_matrix := text |}
    | Raise _ => None
    end.

(** The diagrams of a run, before the omitted ones are dropped. *)
Definition diagrams (A : Type)
    (render : Missing.MissingFunction -> Settings -> DataFrame A ->
              result string)
    (config : Settings) (df : DataFrame A)
    (items : list (string * Missing.DiagramSettings))
    (acc : dict (option Missing.Diagram)) : dict (option Missing.Diagram) :=
  fold_left
    (fun acc item =>
       setitem acc (fst item) (rendered render config df (snd item)))
    items acc.

(** A run in which [get_duplicates] counts 3 duplicate rows over table
    statistics that have no such count. *)
Definition duplicates_run : result Describe.BaseDescription * list event :=
  Describe.describe
    (fun _ => Ok tt)
    (fun _ df => Ok df)
    (fun _ _ => Ok sample_series)
    (fun _ _ _ => Ok table_without_counts)
    sample_compute
    (fun _ _ _ => Ok tt)
    sample_render
    (fun _ _ => Ok tt)
    (fun _ _ _ =>
       Ok {| Describe.metrics_n_duplicates := Some (Fin (3 # 1));
             Describe.metrics_p_duplicates := Some (Fin (6 # 100)) |})
    (fun _ _ _ => Ok tt)
    config_without_diagrams (Some small_dataset) [].

(** ** [model/alerts.py]: the texts *)

Module AlertText.


Section Percent.

(** [f"{x:2.1f}"], the fixed-point formatting of a float. *)
Variable format_1f : num -> string.


End Percent.

(** [s.replace(old, new)] for one-character [old] and [new]. *)
Fixpoint replace (old new : ascii) (s : string) : string :=
  match s with
  | EmptyString => EmptyString
  | String c rest =>
      String (if Ascii.eqb c old then new else c) (replace old new rest)
  end.

(** [str(n)] of a length. *)
Definition str_int (n : nat) : string :=
  NilEmpty.string_of_uint (Nat.to_uint n).

(** [self.values["fields"]] and [self.values["corr"]]: of the
    dictionaries an alert holds, the one of a correlation alert has the
    two keys. *)
Definition values_fields (values : Alerts.Values) : result (list string) :=
  match values with
  | Alerts.CorrelationValues _ fields => Ok fields
  | _ => Raise (KeyError "fields")
  end.

Definition values_corr (values : Alerts.Values) : result string :=
  match values with
  | Alerts.CorrelationValues corr _ => Ok corr
  | _ => Raise (KeyError "corr")
  end.

(** [Alert.fmt].  The test [self.values is not None] always holds:
    [__init__] stores [values or {}] and the rules assign a summary. *)
Definition fmt (alert : Alerts.Alert) : result string :=
  let name := replace "_" " " (Alerts.name (Alerts.alert_type alert)) in
  if String.eqb name "HIGH CORRELATION"
  then
    fields <- values_fields (Alerts.alert_values alert) ;;
    let num := List.length fields in
    let title := String.concat ", " fields in
    corr <- values_corr (Alerts.alert_values alert) ;;
    Ok ("<abbr title=" ++ dquote ++ "该变量与 " ++ str_int num
        ++ " 个字段的 " ++ corr ++ " 相关性很高: " ++ title ++ dquote
        ++ ">高度相关</abbr>")%string
  else Ok name.

End AlertText.

(** ** [model/alerts.py]: [type_date_alert] *)

(** What [dateutil.parser.parse] comes to on one value: the parsed date,
    a [ParserError], or an exception of another class. *)
Inductive Parsed (B : Type) : Type :=
| ParsedValue (value : B)
| ParserError (msg : string)
| ParseFailure (e : exn).

Arguments ParsedValue {B} value.
Arguments ParserError {B} msg.
Arguments ParseFailure {B} e.

Section TypeDate.

Variables A B : Type.
Variable parse : A -> Parsed B.

(** [series.apply(parse)]: the values are parsed in order and the first
    exception ends the pass. *)
Fixpoint apply (series : list A) : Parsed (list B) :=
  match series with
  | [] => ParsedValue []
  | x :: rest =>
      match parse x with
      | ParsedValue value =>
          match apply rest with
          | ParsedValue values => ParsedValue (value :: values)
          | ParserError msg => ParserError msg
          | ParseFailure e => ParseFailure e
          end
      | ParserError msg => ParserError msg
      | ParseFailure e => ParseFailure e
      end
  end.

Definition type_date_alert (series : list A) : result bool :=
  match apply series with
  | ParsedValue _ => Ok true
  | ParserError _ => Ok false
  | ParseFailure e => Raise e
  end.

End TypeDate.

(** A parser of numerals: a digit string parses, the empty string is a
    [ParserError], anything else a [TypeError]. *)
Definition sample_parse (text : string) : Parsed nat :=
  match text with
  | "1" => ParsedValue 1
  | "2" => ParsedValue 2
  | EmptyString => ParserError "String does not contain a date"
  | _ => ParseFailure (TypeError "Parser must be a string")
  end.

(** ** [report/structure/overview.py]: [get_dataset_alerts] *)

Module Overview.

(** The argument [alerts]: the alert list of a report, or the tuple of
    the alert lists of the reports that are compared. *)
Inductive AlertsArgument : Type :=
| AlertList (alerts : list Alerts.Alert)
| AlertTuple (alerts : list (list Alerts.Alert)).

(** What the renderable is given as its [alerts]: the list, or the
    combined dictionary with one slot per report under each key. *)
Inductive AlertsContent : Type :=
| ListContent (alerts : list Alerts.Alert)
| CombinedContent (alerts : dict (list (option Alerts.Alert))).

Section Renderable.

(** [config.html.style], handed on as it is. *)
Variable Style : Type.
Variable html_style : Settings -> Style.

(** The arguments of the [Alerts] renderable, a class outside the
    modelled files. *)
Record AlertsRenderable : Type := mkAlertsRenderable {
  renderable_alerts : AlertsContent;
  renderable_name : string;
  renderable_anchor_id : string;
  renderable_style : Style
}.

(** [f"{alert.alert_type}_{alert.column_name}"] *)
Definition alert_key (alert : Alerts.Alert) : string :=
  (Alerts.str (Alerts.alert_type alert) ++ "_"
   ++ match Alerts.column_name alert with
      | Some column => column
      | None => "None"
      end)%string.

(** [alert.alert_type != AlertType.REJECTED] *)
Definition not_rejected (alert : Alerts.Alert) : bool :=
  negb (Alerts.AlertType_eqb (Alerts.alert_type alert) Alerts.REJECTED).

(** The comprehension that initialises [combined_alerts]: a fresh list of
    [None], one per report, under the key of every alert. *)
Definition initialize (alerts : list (list Alerts.Alert))
  : dict (list (option Alerts.Alert)) :=
  fold_left
    (fun combined alert =>
       setitem combined (alert_key alert)
         (repeat None (List.length alerts)))
    (List.concat alerts) [].

(** [combined_alerts[key][report_idx] = alert] *)
Definition place (combined : dict (list (option Alerts.Alert)))
    (report_idx : nat) (alert : Alerts.Alert)
  : result (dict (list (option Alerts.Alert))) :=
  slot <- getitem combined (alert_key alert) ;;
  if Nat.ltb report_idx (List.length slot)
  then Ok (setitem combined (alert_key alert)
             (set_nth slot report_idx (Some alert)))
  else Raise (IndexError "list assignment index out of range").

(** The inner loop over the alerts of one report. *)
Fixpoint place_report (combined : dict (list (option Alerts.Alert)))
    (report_idx : nat) (report_alerts : list Alerts.Alert)
  : result (dict (list (option Alerts.Alert))) :=
  match report_alerts with
  | [] => Ok combined
  | alert :: rest =>
      combined <- place combined report_idx alert ;;
      place_report combined report_idx rest
  end.

(** The loop over [enumerate(alerts)], with the running [count]. *)
Fixpoint combine (report_idx : nat) (alerts : list (list Alerts.Alert))
    (combined : dict (list (option Alerts.Alert))) (count : nat)
  : result (dict (list (option Alerts.Alert)) * nat) :=
  match alerts with
  | [] => Ok (combined, count)
  | report_alerts :: rest =>
      combined <- place_report combined report_idx report_alerts ;;
      combine (S report_idx) rest combined
        (count + List.length (filter not_rejected report_alerts))
  end.

Definition get_dataset_alerts (config : Settings) (alerts : AlertsArgument)
  : result AlertsRenderable :=
  match alerts with
  | AlertTuple alerts =>
      let count := 0 in
      let combined_alerts := initialize alerts in
      filled <- combine 0 alerts combined_alerts count ;;
      Ok {| renderable_alerts := CombinedContent (fst filled);
            renderable_name :=
              ("警报 (" ++ AlertText.str_int (snd filled) ++ ")")%string;
            renderable_anchor_id := "alerts";
            renderable_style := html_style config |}
  | AlertList alerts =>
      let count := List.length (filter not_rejected alerts) in
      Ok {| renderable_alerts := ListContent alerts;
            renderable_name :=
              ("警报 (" ++ AlertText.str_int count ++ ")")%string;
            renderable_anchor_id := "alerts";
            renderable_style := html_style config |}
  end.

End Renderable.

End Overview.

(** The summarised columns whose type is ["Unsupported"]. *)
Definition unsupported_columns (series_description : dict Summary)
  : dict Summary :=
  filter
    (fun item : string * Summary =>
       match type_ (snd item) with
       | Some type => String.eqb type "Unsupported"
       | None => false
       end)
    series_description.

(** The last alert of a report that has the key [key], if any. *)
Definition last_with_key (key : string) (report_alerts : list Alerts.Alert)
  : option Alerts.Alert :=
  fold_left
    (fun found alert =>
       if String.eqb (Overview.alert_key alert) key then Some alert else found)
    report_alerts None.

(** Some alert of some report has the key [key]. *)
Definition has_key (alerts : list (list Alerts.Alert)) (key : string) : bool :=
  existsb (fun alert => String.eqb (Overview.alert_key alert) key)
    (List.concat alerts).

(** The alerts of two reports over the same table: the second report
    has the two alerts of the first in the other order and one more. *)
Definition two_reports : list (list Alerts.Alert) :=
  [[Alerts.ConstantAlert None (Some "LENGTH_x");
    Alerts.ConstantLengthAlert None (Some "x")];
   [Alerts.ConstantLengthAlert None (Some "x");
    Alerts.ConstantAlert None (Some "LENGTH_x");
    Alerts.RejectedAlert None (Some "y")]].

(* ================================================================== *)
(** * Part IV: properties                                             *)
(* ================================================================== *)

(** ** Dictionaries and lists *)

Section DictFacts.

Variable V : Type.
Implicit Types (d : dict V) (k : string) (v : V).

Lemma get_In d k v : get d k = Some v -> In (k, v) d.
Proof.
  induction d as [|[k' v'] d IH]; simpl; [discriminate|].
  destruct (String.eqb_spec k' k) as [->|Hne].
  - intros [= ->]. now left.
  - intros H. right. now apply IH.
Qed.

Lemma get_None_iff d k : get d k = None <-> ~ In k (keys d).
Proof.
  induction d as [|[k' v'] d IH]; simpl.
  - tauto.
  - destruct (String.eqb_spec k' k) as [->|Hne].
    + split; [discriminate|]. intros H. exfalso. apply H. now left.
    + rewrite IH. split; intros H; [intros [E|I]; [congruence|tauto]|tauto].
Qed.

Lemma In_get d k v : NoDup (keys d) -> In (k, v) d -> get d k = Some v.
Proof.
  induction d as [|[k' v'] d IH]; simpl; [tauto|].
  intros Hnd [E|Hin].
  - injection E as -> ->. now rewrite String.eqb_refl.
  - inversion Hnd as [|? ? Hk' Hnd']; subst.
    destruct (String.eqb_spec k' k) as [->|Hne].
    + exfalso. apply Hk'. unfold keys. change k with (fst (k, v)).
      now apply in_map.
    + now apply IH.
Qed.

Lemma setitem_fresh d k v : ~ In k (keys d) -> setitem d k v = d ++ [(k, v)].
Proof.
  induction d as [|[k' v'] d IH]; simpl; [reflexivity|].
  intros H. destruct (String.eqb_spec k' k) as [->|Hne].
  - exfalso. apply H. now left.
  - rewrite IH; [reflexivity|tauto].
Qed.

Lemma keys_setitem d k v :
  keys (setitem d k v) =
  match get d k with Some _ => keys d | None => keys d ++ [k] end.
Proof.
  induction d as [|[k' v'] d IH]; simpl; [reflexivity|].
  destruct (String.eqb_spec k' k) as [->|Hne]; simpl; [reflexivity|].
  rewrite IH. now destruct (get d k).
Qed.

Lemma get_setitem d k v k' :
  get (setitem d k v) k' = if String.eqb k k' then Some v else get d k'.
Proof.
  induction d as [|[k0 v0] d IH]; simpl.
  - reflexivity.
  - destruct (String.eqb_spec k0 k) as [->|Hne]; simpl.
    + now destruct (String.eqb_spec k k').
    + rewrite IH. destruct (String.eqb_spec k0 k') as [->|Hne'].
      * destruct (String.eqb_spec k k'); [congruence|reflexivity].
      * reflexivity.
Qed.

Lemma NoDup_keys_setitem d k v :
  NoDup (keys d) -> NoDup (keys (setitem d k v)).
Proof.
  intros Hnd. rewrite keys_setitem.
  destruct (get d k) eqn:E; [assumption|].
  apply get_None_iff in E.
  apply NoDup_app; [assumption|repeat constructor; simpl; tauto|].
  intros x Hx [<-|[]]. contradiction.
Qed.

End DictFacts.

Section ListFacts.

Variable A : Type.

Lemma nth_error_set_nth (l : list A) (i j : nat) (v : A) :
  nth_error (set_nth l i v) j =
  if Nat.eqb i j then (if Nat.ltb i (List.length l) then Some v else None)
  else nth_error l j.
Proof.
  revert i j. induction l as [|x l IH]; intros i j; simpl.
  - destruct (Nat.eqb i j); destruct j; reflexivity.
  - destruct i, j; simpl; try reflexivity.
    rewrite IH. reflexivity.
Qed.

Lemma length_set_nth (l : list A) (i : nat) (v : A) :
  List.length (set_nth l i v) = List.length l.
Proof.
  revert i. induction l as [|x l IH]; intros [|i]; simpl; auto.
Qed.

End ListFacts.

Lemma any_true_iff (mask : list bool) :
  any mask = true <-> exists j, nth_error mask j = Some true.
Proof.
  unfold any. rewrite existsb_exists. split.
  - intros [b [Hin ->]]. now apply In_nth_error in Hin.
  - intros [j Hj]. exists true. split; [|reflexivity].
    now apply nth_error_In in Hj.
Qed.

(** ** The threshold check ([perform_check_correlation]) *)

Section ThresholdCheck.

Import Correlations.

Lemma nth_error_fill_diagonal_from k a v i :
  nth_error (fill_diagonal_from k a v) i =
  option_map (fun row => set_nth row (k + i) v) (nth_error a i).
Proof.
  revert k i. induction a as [|row a IH]; intros k i; simpl.
  - now destruct i.
  - destruct i as [|i]; simpl.
    + now rewrite Nat.add_0_r.
    + rewrite IH. now rewrite Nat.add_succ_r.
Qed.

Lemma nth_error_bool_index m t i :
  nth_error (fill_diagonal (abs_ge (values m) t) false) i = mask_of m t i.
Proof.
  unfold fill_diagonal, abs_ge, mask_of.
  rewrite nth_error_fill_diagonal_from, nth_error_map. simpl.
  now destruct (nth_error (values m) i).
Qed.

Lemma mask_of_true m t i mask j :
  mask_of m t i = Some mask ->
  (nth_error mask j = Some true <-> qualifies m t i j).
Proof.
  unfold mask_of, qualifies, entry.
  destruct (nth_error (values m) i) as [row|]; [|discriminate].
  intros [= <-]. rewrite nth_error_set_nth, nth_error_map.
  destruct (Nat.eqb_spec i j) as [->|Hne].
  - split.
    + destruct (Nat.ltb j _); discriminate.
    + intros [H _]. now elim H.
  - split.
    + destruct (nth_error row j) as [x|]; simpl; [|discriminate].
      intros [= H]. split; [assumption|]. now exists x.
    + intros [_ [x [-> H]]]. simpl. now rewrite H.
Qed.

Lemma mask_of_length m t i mask :
  mask_of m t i = Some mask ->
  exists row, nth_error (values m) i = Some row
              /\ List.length mask = List.length row.
Proof.
  unfold mask_of. destruct (nth_error (values m) i) as [row|]; [|discriminate].
  intros [= <-]. exists row. split; [reflexivity|].
  now rewrite length_set_nth, length_map.
Qed.

Lemma In_mask_select cols mask p :
  In p (mask_select cols mask) <->
  exists j, nth_error cols j = Some p /\ nth_error mask j = Some true.
Proof.
  revert mask. induction cols as [|c cols IH]; intros mask; simpl.
  - split; [tauto|]. intros [[|j] [H _]]; discriminate.
  - destruct mask as [|b mask].
    + split; [simpl; tauto|]. intros [[|j] [_ H]]; discriminate.
    + split.
      * destruct b; simpl.
        -- intros [<-|H]; [now exists 0|].
           apply IH in H as [j Hj]. now exists (S j).
        -- intros H. apply IH in H as [j Hj]. now exists (S j).
      * intros [[|j] [H1 H2]]; simpl in *.
        -- injection H1 as ->. injection H2 as ->. now left.
        -- assert (In p (mask_select cols mask)) by (apply IH; eauto).
           destruct b; simpl; auto.
Qed.

Lemma keys_items_from m t i todo col :
  In col (keys (items_from m t i todo)) -> In col todo.
Proof.
  revert i. induction todo as [|c todo IH]; intros i; simpl; [tauto|].
  unfold keys. rewrite map_app, in_app_iff. intros [H|H].
  - left. unfold item_of in H. destruct (mask_of m t i) as [mask|]; [|easy].
    destruct (any mask); simpl in H; tauto.
  - right. eapply IH. exact H.
Qed.

Lemma NoDup_keys_items_from m t i todo :
  NoDup todo -> NoDup (keys (items_from m t i todo)).
Proof.
  revert i. induction todo as [|c todo IH]; intros i Hnd; simpl.
  - constructor.
  - inversion Hnd as [|? ? Hc Hnd']; subst.
    unfold keys. rewrite map_app. apply NoDup_app.
    + unfold item_of. destruct (mask_of m t i) as [mask|]; [|constructor].
      destruct (any mask); repeat constructor. simpl. tauto.
    + now apply IH.
    + intros x Hx Hy. apply keys_items_from in Hy.
      unfold item_of in Hx. destruct (mask_of m t i) as [mask|]; [|easy].
      destruct (any mask); simpl in Hx; [|easy].
      destruct Hx as [<-|[]]. contradiction.
Qed.

Lemma In_items_from m t i todo col fields :
  In (col, fields) (items_from m t i todo) <->
  exists k mask,
    nth_error todo k = Some col /\ mask_of m t (i + k) = Some mask
    /\ any mask = true /\ fields = mask_select (columns m) mask.
Proof.
  revert i. induction todo as [|c todo IH]; intros i; simpl.
  - split; [tauto|]. intros [[|k] [mask [H _]]]; discriminate.
  - rewrite in_app_iff, IH. split.
    + intros [H|[k [mask [H1 [H2 [H3 H4]]]]]].
      * unfold item_of in H. destruct (mask_of m t i) as [mask|] eqn:E; [|easy].
        destruct (any mask) eqn:Ea; simpl in H; [|easy].
        destruct H as [[= <- <-]|[]]. exists 0, mask.
        rewrite Nat.add_0_r. auto.
      * exists (S k), mask. rewrite Nat.add_succ_r. auto.
    + intros [[|k] [mask [H1 [H2 [H3 H4]]]]]; simpl in H1.
      * left. injection H1 as ->. rewrite Nat.add_0_r in H2.
        unfold item_of. rewrite H2, H3. left. now subst.
      * right. exists k, mask. rewrite Nat.add_succ_r in H2. auto.
Qed.

(** On a matrix whose rows [i ..] exist and have one entry per label, the
    comprehension returns, and adds one item per flagged label in order. *)
Lemma comprehension_items m t i todo acc :
  (forall k, k < List.length todo ->
     exists mask, mask_of m t (i + k) = Some mask
                  /\ List.length mask = List.length (columns m)) ->
  NoDup todo ->
  (forall col, In col todo -> ~ In col (keys acc)) ->
  comprehension (columns m) (fill_diagonal (abs_ge (values m) t) false)
    i todo acc
  = Ok (acc ++ items_from m t i todo).
Proof.
  revert i acc. induction todo as [|c todo IH]; intros i acc Hrows Hnd Hfresh.
  - simpl. now rewrite app_nil_r.
  - simpl. rewrite nth_error_bool_index.
    destruct (Hrows 0) as [mask [Hmask Hlen]]; [simpl; lia|].
    rewrite Nat.add_0_r in Hmask. unfold item_of. rewrite Hmask.
    inversion Hnd as [|? ? Hc Hnd']; subst.
    assert (Hrows' : forall k, k < List.length todo ->
              exists mask, mask_of m t (S i + k) = Some mask
                           /\ List.length mask = List.length (columns m)).
    { intros k Hk. destruct (Hrows (S k)) as [mk Hmk]; [simpl; lia|].
      exists mk. now rewrite Nat.add_succ_r in Hmk. }
    destruct (any mask) eqn:Ea.
    + unfold index_by_mask. rewrite Hlen, Nat.eqb_refl. simpl.
      rewrite setitem_fresh by (apply Hfresh; now left).
      rewrite IH; [now rewrite <- app_assoc|assumption|assumption|].
      intros col Hin. unfold keys. rewrite map_app, in_app_iff. simpl.
      intros [H|[<-|[]]]; [|contradiction].
      apply (Hfresh col); [now right|assumption].
    + simpl. apply IH; [assumption|assumption|].
      intros col Hin. apply Hfresh. now right.
Qed.

End ThresholdCheck.

(** C2.  On a square correlation matrix with distinct column labels and
    for every threshold, [perform_check_correlation] returns a dictionary
    whose keys are columns of the matrix, each once.  The column at index
    [i] is a key exactly when some other column [j] has
    [|M[i][j]| >= threshold]; its partner list holds exactly the labels of
    those columns, so never the column itself, whatever the diagonal
    holds.  When no off-diagonal entry reaches the threshold (in particular
    for the empty matrix) the dictionary is empty. *)
Theorem perform_check_correlation_partners (m : Matrix) (t : num) :
  square m ->
  NoDup (columns m) ->
  exists d,
    Correlations.perform_check_correlation m t = Ok d
    /\ NoDup (keys d)
    /\ (forall col, In col (keys d) -> In col (columns m))
    /\ (forall i col,
          nth_error (columns m) i = Some col ->
          (In col (keys d) <-> exists j, qualifies m t i j)
          /\ forall partners,
               get d col = Some partners ->
               ~ In col partners
               /\ forall p,
                    In p partners <->
                    exists j, qualifies m t i j
                              /\ nth_error (columns m) j = Some p)
    /\ ((forall i j, ~ qualifies m t i j) -> d = []).
Proof.
  intros [Hrows Hwidth] Hnd.
  exists (items_from m t 0 (columns m)).
  assert (Hmask : forall k, k < List.length (columns m) ->
            exists mask, mask_of m t k = Some mask
                         /\ List.length mask = List.length (columns m)).
  { intros k Hk. rewrite <- Hrows in Hk.
    destruct (nth_error (values m) k) as [row|] eqn:E.
    - exists (set_nth (map (fun x => ge (abs x) t) row) k false).
      unfold mask_of. rewrite E. split; [reflexivity|].
      rewrite length_set_nth, length_map.
      rewrite Forall_forall in Hwidth. apply Hwidth.
      eapply nth_error_In. exact E.
    - apply nth_error_None in E. lia. }
  assert (Hsame : forall i k col,
            nth_error (columns m) i = Some col ->
            nth_error (columns m) k = Some col -> k = i).
  { intros i k col Hi Hk.
    rewrite NoDup_nth_error in Hnd. apply Hnd.
    - apply nth_error_Some. congruence.
    - congruence. }
  assert (Hitem : forall i col fields,
            nth_error (columns m) i = Some col ->
            In (col, fields) (items_from m t 0 (columns m)) ->
            exists mask, mask_of m t i = Some mask /\ any mask = true
                         /\ fields = Correlations.mask_select (columns m) mask).
  { intros i col fields Hi Hin.
    apply In_items_from in Hin as [k [mask [H1 [H2 [H3 H4]]]]].
    simpl in H2. rewrite (Hsame i k col Hi H1) in H2. now exists mask. }
  split; [|split; [|split; [|split]]].
  - unfold Correlations.perform_check_correlation.
    rewrite comprehension_items; [reflexivity|exact Hmask|assumption|].
    intros col _ [].
  - now apply NoDup_keys_items_from.
  - intros col. apply keys_items_from.
  - intros i col Hi. split.
    + split.
      * intros Hin. unfold keys in Hin. apply in_map_iff in Hin.
        destruct Hin as [[c fields] [Hc Hin]]. simpl in Hc. subst c.
        destruct (Hitem i col fields Hi Hin) as [mask [H1 [H2 _]]].
        apply any_true_iff in H2 as [j Hj]. exists j.
        now apply (mask_of_true _ _ _ j H1).
      * intros [j Hj].
        destruct (Hmask i) as [mask [H1 _]].
        { apply nth_error_Some. congruence. }
        unfold keys. apply in_map_iff.
        exists (col, Correlations.mask_select (columns m) mask).
        split; [reflexivity|].
        apply In_items_from. exists i, mask. simpl.
        repeat split; try assumption.
        apply any_true_iff. exists j. now apply (mask_of_true _ _ _ j H1).
    + intros partners Hget. apply get_In in Hget.
      destruct (Hitem i col partners Hi Hget) as [mask [H1 [_ ->]]].
      assert (Hp : forall p,
                 In p (Correlations.mask_select (columns m) mask) <->
                 exists j, qualifies m t i j
                           /\ nth_error (columns m) j = Some p).
      { intros p. rewrite In_mask_select. split.
        - intros [j [Hj1 Hj2]]. exists j. split; [|assumption].
          now apply (mask_of_true _ _ _ j H1).
        - intros [j [Hj1 Hj2]]. exists j. split; [assumption|].
          now apply (mask_of_true _ _ _ j H1). }
      split; [|exact Hp].
      intros Hself. apply Hp in Hself as [j [[Hne _] Hj]].
      apply Hne. symmetry. exact (Hsame i j col Hi Hj).
  - intros Hnone.
    destruct (items_from m t 0 (columns m)) as [|[col fields] rest] eqn:E;
      [reflexivity|].
    exfalso.
    assert (Hin : In (col, fields) (items_from m t 0 (columns m))).
    { rewrite E. now left. }
    apply In_items_from in Hin as [k [mask [H1 [H2 [H3 _]]]]].
    apply any_true_iff in H3 as [j Hj]. simpl in H2.
    apply (Hnone k j). now apply (mask_of_true _ _ _ j H2).
Qed.

Lemma perform_check_correlation_partners_witness :
  square sample_matrix
  /\ NoDup (columns sample_matrix)
  /\ exists d,
       Correlations.perform_check_correlation sample_matrix (Fin (9 # 10))
       = Ok d
       /\ NoDup (keys d).
Proof.
  assert (Hsq : square sample_matrix).
  { split; [reflexivity|]. repeat constructor. }
  assert (Hnd : NoDup (columns sample_matrix)).
  { repeat constructor; simpl; intuition discriminate. }
  split; [exact Hsq|]. split; [exact Hnd|].
  destruct (perform_check_correlation_partners (Fin (9 # 10)) Hsq Hnd)
    as [d [H1 [H2 _]]].
  exists d. split; assumption.
Defined.

Example perform_check_correlation_sample :
  Correlations.perform_check_correlation sample_matrix (Fin (9 # 10))
  = Ok [("a", ["b"]); ("b", ["a"])].
Proof. reflexivity. Qed.

(** ** The stable sort *)

Section SortFacts.

(** The facts hold for every key whose order is that of a rank in the
    natural numbers; the alert types' names are ranked below. *)
Variable A : Type.
Variable key : A -> string.
Variable rank : A -> nat.
Hypothesis key_rank :
  forall a b, String.ltb (key a) (key b) = Nat.ltb (rank a) (rank b).

Lemma insert_perm (x : A) (l : list A) :
  Permutation (insert key x l) (x :: l).
Proof.
  induction l as [|y l IH]; simpl; [reflexivity|].
  destruct (String.ltb (key y) (key x)); [|reflexivity].
  rewrite IH. apply perm_swap.
Qed.

Lemma sort_perm (l : list A) : Permutation (sort key l) l.
Proof.
  induction l as [|x l IH]; simpl; [reflexivity|].
  rewrite insert_perm. now constructor.
Qed.

Lemma insert_sorted (x : A) (l : list A) :
  StronglySorted (rank_le rank) l ->
  StronglySorted (rank_le rank) (insert key x l).
Proof.
  induction l as [|y l IH]; simpl; intros Hs.
  - repeat constructor.
  - inversion Hs as [|? ? Hs' Hall]; subst.
    rewrite key_rank. destruct (Nat.ltb_spec (rank y) (rank x)) as [Hlt|Hge].
    + constructor; [now apply IH|].
      rewrite Forall_forall in *. intros z Hz.
      apply (Permutation_in _ (insert_perm x l)) in Hz.
      destruct Hz as [<-|Hz]; [unfold rank_le; lia|now apply Hall].
    + constructor; [assumption|].
      constructor; [exact Hge|].
      rewrite Forall_forall in *. intros z Hz.
      specialize (Hall z Hz). unfold rank_le in *. lia.
Qed.

Lemma sort_sorted (l : list A) : StronglySorted (rank_le rank) (sort key l).
Proof.
  induction l as [|x l IH]; simpl; [constructor|now apply insert_sorted].
Qed.

Lemma filter_insert (r : nat) (x : A) (l : list A) :
  filter (has_rank rank r) (insert key x l) = filter (has_rank rank r) (x :: l).
Proof.
  induction l as [|y l IH]; [reflexivity|].
  simpl insert. rewrite key_rank.
  destruct (Nat.ltb_spec (rank y) (rank x)) as [Hlt|Hge]; [|reflexivity].
  simpl in *. rewrite IH. unfold has_rank.
  destruct (Nat.eqb_spec (rank x) r) as [Hx|Hx]; [|reflexivity].
  destruct (Nat.eqb_spec (rank y) r) as [Hy|Hy]; [lia|reflexivity].
Qed.

(** Stability: the elements of one rank keep their order. *)
Lemma sort_stable (r : nat) (l : list A) :
  filter (has_rank rank r) (sort key l) = filter (has_rank rank r) l.
Proof.
  induction l as [|x l IH]; [reflexivity|].
  simpl sort. rewrite filter_insert. simpl. now rewrite IH.
Qed.

Lemma has_rank_refl (x : A) : has_rank rank (rank x) x = true.
Proof. unfold has_rank. apply Nat.eqb_refl. Qed.

Lemma sorted_head_filter (x : A) (l : list A) :
  StronglySorted (rank_le rank) (x :: l) ->
  forall r, filter (has_rank rank r) (x :: l) <> [] -> rank x <= r.
Proof.
  intros Hs r Hne. inversion Hs as [|? ? _ Hall]; subst.
  destruct (filter (has_rank rank r) (x :: l)) as [|z zs] eqn:E; [congruence|].
  assert (Hz : In z (filter (has_rank rank r) (x :: l)))
    by (rewrite E; now left).
  apply filter_In in Hz as [Hz1 Hz2]. unfold has_rank in Hz2.
  apply Nat.eqb_eq in Hz2. destruct Hz1 as [<-|Hz1]; [lia|].
  rewrite Forall_forall in Hall.
  specialize (Hall z Hz1). unfold rank_le in Hall. lia.
Qed.

(** Sortedness and stability leave one outcome: two sorted lists with the
    same elements of each rank, in the same order, are equal.  Whatever
    algorithm [list.sort] runs, its result is that of [sort]. *)
Lemma sort_unique (l1 l2 : list A) :
  StronglySorted (rank_le rank) l1 ->
  StronglySorted (rank_le rank) l2 ->
  (forall r, filter (has_rank rank r) l1 = filter (has_rank rank r) l2) ->
  l1 = l2.
Proof.
  revert l2. induction l1 as [|x l1 IH]; intros l2 H1 H2 Hf.
  - destruct l2 as [|y l2]; [reflexivity|].
    specialize (Hf (rank y)). simpl in Hf.
    rewrite has_rank_refl in Hf. discriminate.
  - destruct l2 as [|y l2].
    + specialize (Hf (rank x)). simpl in Hf.
      rewrite has_rank_refl in Hf. discriminate.
    + assert (Hxy : rank y <= rank x).
      { apply (sorted_head_filter H2). rewrite <- Hf. simpl.
        rewrite has_rank_refl. discriminate. }
      assert (Hyx : rank x <= rank y).
      { apply (sorted_head_filter H1). rewrite Hf. simpl.
        rewrite has_rank_refl. discriminate. }
      assert (Hr : rank x = rank y) by lia.
      assert (Hhead : x = y).
      { specialize (Hf (rank x)). simpl in Hf.
        rewrite has_rank_refl in Hf. rewrite Hr in Hf.
        rewrite has_rank_refl in Hf. congruence. }
      subst y. f_equal.
      inversion H1; inversion H2; subst.
      apply IH; try assumption.
      intros r. specialize (Hf r). simpl in Hf.
      destruct (has_rank rank r x); congruence.
Qed.

End SortFacts.

Lemma str_ltb_alphabetical (a b : Alerts.AlertType) :
  String.ltb (Alerts.str a) (Alerts.str b)
  = Nat.ltb (alphabetical a) (alphabetical b).
Proof. destruct a, b; reflexivity. Qed.

Lemma name_leb_alphabetical (a b : Alerts.AlertType) :
  String.leb (Alerts.name a) (Alerts.name b)
  = Nat.leb (alphabetical a) (alphabetical b).
Proof. destruct a, b; reflexivity. Qed.

Lemma AlertType_eqb_alphabetical (a b : Alerts.AlertType) :
  Alerts.AlertType_eqb a b = Nat.eqb (alphabetical a) (alphabetical b).
Proof. destruct a, b; reflexivity. Qed.

Lemma AlertType_eqb_eq (a b : Alerts.AlertType) :
  Alerts.AlertType_eqb a b = true <-> a = b.
Proof.
  destruct a, b; simpl; split; intros H; try reflexivity; discriminate.
Qed.

(** ** The alert engine ([get_alerts]) *)

Lemma alert_key_rank (a b : Alerts.Alert) :
  String.ltb (Alerts.str (Alerts.alert_type a))
             (Alerts.str (Alerts.alert_type b))
  = Nat.ltb (alert_rank a) (alert_rank b).
Proof. apply str_ltb_alphabetical. Qed.

Lemma alphabetical_onto (r : nat) :
  r < 18 -> exists t, alphabetical t = r.
Proof.
  intros Hr.
  do 18 (destruct r as [|r];
    [first
       [ now exists Alerts.CONSTANT
       | now exists Alerts.CONSTANT_LENGTH
       | now exists Alerts.DUPLICATES
       | now exists Alerts.EMPTY
       | now exists Alerts.HIGH_CARDINALITY
       | now exists Alerts.HIGH_CORRELATION
       | now exists Alerts.IMBALANCE
       | now exists Alerts.INFINITE
       | now exists Alerts.MISSING
       | now exists Alerts.NON_STATIONARY
       | now exists Alerts.REJECTED
       | now exists Alerts.SEASONAL
       | now exists Alerts.SKEWED
       | now exists Alerts.TYPE_DATE
       | now exists Alerts.UNIFORM
       | now exists Alerts.UNIQUE
       | now exists Alerts.UNSUPPORTED
       | now exists Alerts.ZEROS ]|]).
  lia.
Qed.

Lemma StronglySorted_impl (A : Type) (R S : A -> A -> Prop) (l : list A) :
  (forall a b, R a b -> S a b) -> StronglySorted R l -> StronglySorted S l.
Proof.
  intros HRS. induction 1 as [|x l Hs IH Hall]; constructor; [assumption|].
  rewrite Forall_forall in *. auto.
Qed.

Lemma by_name_rank_le (a b : Alerts.Alert) :
  by_name a b <-> rank_le alert_rank a b.
Proof.
  unfold by_name, rank_le, alert_rank.
  rewrite name_leb_alphabetical. apply Nat.leb_le.
Qed.

Lemma of_type_has_rank (t : Alerts.AlertType) (l : list Alerts.Alert) :
  filter (of_type t) l = filter (has_rank alert_rank (alphabetical t)) l.
Proof.
  apply filter_ext. intros a. apply AlertType_eqb_alphabetical.
Qed.

Lemma variable_alerts_concat config items acc r :
  Alerts.variable_alerts config items acc = Ok r ->
  exists per_column,
    column_alerts config items per_column /\ r = acc ++ List.concat per_column.
Proof.
  revert acc.
  induction items as [|[col description] items IH]; intros acc; simpl.
  - intros [= <-]. exists []. split; [constructor|now rewrite app_nil_r].
  - destruct (Alerts.check_variable_alerts config col description)
      as [more|e] eqn:E; simpl; [|discriminate].
    intros H. apply IH in H as [per_column [H1 ->]].
    exists (more :: per_column). split.
    + constructor; assumption.
    + simpl. now rewrite app_assoc.
Qed.

(** C3.  When [get_alerts] returns, the three groups were produced (the
    table alerts, the alerts of each column in the order of the summaries,
    the correlation alerts) and the returned list is their concatenation
    sorted stably by the alert type's name: it has the same alerts, the
    names never decrease along it, and the alerts of one type keep the
    order they have in the concatenation.  No other list has these
    properties, and so a second call on the same inputs returns the same
    list. *)
Theorem get_alerts_sorted_concatenation
    (config : Settings) (table_stats : TableStats)
    (series_description : dict Summary) (correlations : dict Matrix)
    (alerts : list Alerts.Alert) :
  Alerts.get_alerts config table_stats series_description correlations
  = Ok alerts ->
  exists table_alerts per_column correlation_alerts,
    Alerts.check_table_alerts table_stats = Ok table_alerts
    /\ column_alerts config series_description per_column
    /\ Alerts.check_correlation_alerts config correlations
       = Ok correlation_alerts
    /\ let concatenation :=
         table_alerts ++ List.concat per_column ++ correlation_alerts in
       Permutation alerts concatenation
       /\ StronglySorted by_name alerts
       /\ (forall t, filter (of_type t) alerts
                     = filter (of_type t) concatenation)
       /\ (forall other,
             StronglySorted by_name other ->
             (forall t, filter (of_type t) other
                        = filter (of_type t) concatenation) ->
             other = alerts)
       /\ (forall again,
             Alerts.get_alerts config table_stats series_description
               correlations = Ok again ->
             again = alerts).
Proof.
  unfold Alerts.get_alerts.
  destruct (Alerts.check_table_alerts table_stats) as [ta|e] eqn:Et;
    simpl; [|discriminate].
  destruct (Alerts.variable_alerts config series_description ta)
    as [va|e] eqn:Ev; simpl; [|discriminate].
  destruct (Alerts.check_correlation_alerts config correlations)
    as [ca|e] eqn:Ec; simpl; [|discriminate].
  intros [= <-].
  apply variable_alerts_concat in Ev as [per_column [Hcols ->]].
  exists ta, per_column, ca.
  split; [reflexivity|]. split; [exact Hcols|]. split; [reflexivity|].
  rewrite <- app_assoc.
  set (all := ta ++ List.concat per_column ++ ca).
  set (key := fun alert => Alerts.str (Alerts.alert_type alert)).
  assert (Hsorted : StronglySorted by_name (sort key all)).
  { apply StronglySorted_impl with (R := rank_le alert_rank).
    - intros a b. apply by_name_rank_le.
    - apply sort_sorted. exact alert_key_rank. }
  assert (Hstable : forall t, filter (of_type t) (sort key all)
                              = filter (of_type t) all).
  { intros t. rewrite !of_type_has_rank.
    apply sort_stable. exact alert_key_rank. }
  simpl. split; [apply sort_perm|]. split; [exact Hsorted|].
  split; [exact Hstable|]. split.
  - intros other Hs Hf.
    apply sort_unique with (rank := alert_rank).
    + apply StronglySorted_impl with (R := by_name); [|exact Hs].
      intros a b. apply by_name_rank_le.
    + apply sort_sorted. exact alert_key_rank.
    + intros r. destruct (Nat.ltb_spec r 18) as [Hr|Hr].
      * destruct (alphabetical_onto Hr) as [t <-].
        rewrite <- !of_type_has_rank. rewrite Hf. symmetry. apply Hstable.
      * assert (Hnone : forall l, filter (has_rank alert_rank r) l = []).
        { intros l. induction l as [|a l IHl]; [reflexivity|].
          simpl. rewrite IHl. unfold has_rank, alert_rank.
          destruct (Nat.eqb_spec (alphabetical (Alerts.alert_type a)) r)
            as [Heq|]; [|reflexivity].
          exfalso. destruct (Alerts.alert_type a); simpl in Heq; lia. }
        now rewrite !Hnone.
  - intros again [= <-]. reflexivity.
Qed.

Lemma get_alerts_sorted_concatenation_witness :
  exists alerts,
    Alerts.get_alerts sample_config sample_table
      [("x", categorical_summary); ("y", unsupported_summary)]
      [("pearson", sample_matrix)] = Ok alerts
    /\ StronglySorted by_name alerts
    /\ map (fun a => Alerts.name (Alerts.alert_type a)) alerts
       = ["CONSTANT_LENGTH"; "DUPLICATES"; "HIGH_CARDINALITY";
          "HIGH_CORRELATION"; "HIGH_CORRELATION"; "MISSING"; "REJECTED";
          "TYPE_DATE"; "UNIFORM"; "UNIQUE"; "UNSUPPORTED"].
Proof.
  eexists. split; [vm_compute; reflexivity|].
  destruct (@get_alerts_sorted_concatenation sample_config sample_table
              [("x", categorical_summary); ("y", unsupported_summary)]
              [("pearson", sample_matrix)] _ eq_refl)
    as [ta [pc [ca [_ [_ [_ [_ [Hs _]]]]]]]].
  split; [exact Hs|vm_compute; reflexivity].
Defined.

(** ** Consolidation of the correlation alerts *)

(** C1, on the code.  Pearson reports [b] as the partner of [a] and
    Spearman reports [c]; both alert at threshold 0.9.  The alert for [a]
    lists [c] alone when Pearson is processed first and [b] alone when
    Spearman is: the list stored for a column is the one of the last
    method that flags it, not the union, and it depends on the order of
    the methods. *)
Theorem check_correlation_alerts_keeps_last_method :
  Correlations.perform_check_correlation sample_matrix (Fin (9 # 10))
  = Ok [("a", ["b"]); ("b", ["a"])]
  /\ Correlations.perform_check_correlation second_matrix (Fin (9 # 10))
     = Ok [("a", ["c"]); ("c", ["a"])]
  /\ Alerts.check_correlation_alerts sample_config
       [("pearson", sample_matrix); ("spearman", second_matrix)]
     = Ok [correlation_alert "a" ["c"]; correlation_alert "b" ["a"];
           correlation_alert "c" ["a"]]
  /\ Alerts.check_correlation_alerts sample_config
       [("spearman", second_matrix); ("pearson", sample_matrix)]
     = Ok [correlation_alert "a" ["b"]; correlation_alert "c" ["a"];
           correlation_alert "b" ["a"]].
Proof. repeat split; reflexivity. Qed.

(** What does hold of the consolidation: the columns of the alerts are
    distinct, one alert per consolidated column. *)
Lemma consolidate_mapping_NoDup items mapping acc :
  NoDup (keys acc) ->
  NoDup (keys (Alerts.consolidate_mapping items mapping acc)).
Proof.
  revert acc. induction items as [|[col fields] items IH]; intros acc H; simpl.
  - assumption.
  - apply IH. now apply NoDup_keys_setitem.
Qed.

Lemma consolidate_NoDup config items acc d :
  NoDup (keys acc) ->
  Alerts.consolidate config items acc = Ok d ->
  NoDup (keys d).
Proof.
  revert acc. induction items as [|[corr matrix] items IH]; intros acc H; simpl.
  - now intros [= <-].
  - destruct (getitem (correlations config) corr) as [settings|e];
      simpl; [|discriminate].
    destruct (warn_high_correlations settings); [|now apply IH].
    destruct (Correlations.perform_check_correlation matrix
                (threshold settings))
      as [mapping|e]; simpl; [|discriminate].
    apply IH. now apply consolidate_mapping_NoDup.
Qed.

Lemma check_correlation_alerts_one_per_column config correlations alerts :
  Alerts.check_correlation_alerts config correlations = Ok alerts ->
  NoDup (map Alerts.column_name alerts)
  /\ Forall (fun a => Alerts.alert_type a = Alerts.HIGH_CORRELATION) alerts.
Proof.
  unfold Alerts.check_correlation_alerts.
  destruct (Alerts.consolidate config correlations []) as [d|e] eqn:E;
    simpl; [|discriminate].
  apply consolidate_NoDup in E; [|constructor].
  intros [= <-]. destruct d as [|item d]; [split; constructor|].
  cbn [Nat.ltb Nat.leb List.length app]. split.
  - rewrite map_map. cbn [Alerts.column_name Alerts.HighCorrelationAlert
                           Alerts.Alert_init].
    rewrite <- (map_map fst Some).
    apply Injective_map_NoDup; [|exact E].
    intros x y [= ->]. reflexivity.
  - apply Forall_forall. intros a Ha. apply in_map_iff in Ha as [x [<- _]].
    reflexivity.
Qed.

(** ** The column rules *)

Lemma emits_app t l1 l2 : emits t (l1 ++ l2) = emits t l1 || emits t l2.
Proof. apply existsb_app. Qed.

Lemma emits_append_if t cond alerts alert :
  emits t (Alerts.append_if cond alerts alert)
  = emits t alerts || (cond && of_type t alert).
Proof.
  unfold Alerts.append_if. destruct cond; simpl.
  - rewrite emits_app. simpl. now rewrite orb_false_r.
  - now rewrite orb_false_r.
Qed.

(** The closing loop of [check_variable_alerts] assigns to every alert. *)
Lemma backfill_from (done todo : list Alerts.Alert) col description :
  fold_left
    (fun alerts idx =>
       match nth_error alerts idx with
       | Some alert =>
           set_nth alerts idx (Alerts.assign alert col description)
       | None => alerts
       end)
    (seq (List.length done) (List.length todo)) (done ++ todo)
  = done ++ map (fun a => Alerts.assign a col description) todo.
Proof.
  revert done. induction todo as [|a todo IH]; intros done; [reflexivity|].
  cbn [List.length seq fold_left map].
  rewrite nth_error_app2, Nat.sub_diag by lia. cbn [nth_error].
  assert (Hset : forall (l : list Alerts.Alert) x y rest,
             set_nth (l ++ x :: rest) (List.length l) y = l ++ y :: rest).
  { intros l x y rest. induction l as [|z l IHl]; simpl; [reflexivity|].
    now rewrite IHl. }
  rewrite Hset.
  specialize (IH (done ++ [Alerts.assign a col description])).
  rewrite length_app, Nat.add_1_r, <- !app_assoc in IH. exact IH.
Qed.

Lemma backfill_map alerts col description :
  Alerts.backfill alerts col description
  = map (fun a => Alerts.assign a col description) alerts.
Proof. exact (backfill_from [] alerts col description). Qed.

(** C9.  Every alert in the list [check_variable_alerts] returns for a
    column carries that column's name and the column's whole summary as
    its values, whatever values it was constructed with; its type is the
    one it was constructed with. *)
Theorem check_variable_alerts_backfilled
    (config : Settings) (col : string) (summary : Summary)
    (alerts : list Alerts.Alert) :
  Alerts.check_variable_alerts config col summary = Ok alerts ->
  Forall
    (fun alert =>
       Alerts.column_name alert = Some col
       /\ Alerts.alert_values alert = Alerts.SummaryValues summary)
    alerts.
Proof.
  unfold Alerts.check_variable_alerts.
  destruct (Alerts.generic_alerts summary) as [generic|e]; simpl;
    [|discriminate].
  destruct (field "type" (type_ summary)) as [type|e]; simpl; [|discriminate].
  match goal with
  | |- (x <- ?rules ;; _) = _ -> _ => destruct rules as [produced|e]
  end; simpl; [|discriminate].
  intros [= <-]. rewrite backfill_map.
  apply Forall_forall. intros alert Hin.
  apply in_map_iff in Hin as [a [<- _]]. split; reflexivity.
Qed.

Lemma check_variable_alerts_backfilled_witness :
  exists alerts,
    Alerts.check_variable_alerts sample_config "x" categorical_summary
    = Ok alerts
    /\ emits Alerts.UNIFORM alerts = true
    /\ emits Alerts.TYPE_DATE alerts = true
    /\ Forall
         (fun alert =>
            Alerts.column_name alert = Some "x"
            /\ Alerts.alert_values alert
               = Alerts.SummaryValues categorical_summary)
         alerts.
Proof.
  eexists. split; [vm_compute; reflexivity|].
  split; [reflexivity|]. split; [reflexivity|].
  exact (@check_variable_alerts_backfilled sample_config "x"
           categorical_summary _ eq_refl).
Defined.

Lemma append_if_Forall (P : Alerts.Alert -> Prop) cond alerts alert :
  Forall P alerts -> P alert -> Forall P (Alerts.append_if cond alerts alert).
Proof.
  intros H1 H2. unfold Alerts.append_if. destruct cond; [|exact H1].
  apply Forall_app. split; [exact H1|now constructor].
Qed.

Lemma emits_only_weaken types types' alerts :
  (forall t, In t types -> In t types') ->
  emits_only types alerts -> emits_only types' alerts.
Proof.
  intros Hsub H. unfold emits_only in *. rewrite Forall_forall in *. auto.
Qed.

Lemma emits_only_app types l1 l2 :
  emits_only types l1 -> emits_only types l2 -> emits_only types (l1 ++ l2).
Proof. intros H1 H2. apply Forall_app. now split. Qed.

Lemma emits_only_not types t alerts :
  emits_only types alerts -> ~ In t types -> emits t alerts = false.
Proof.
  intros H Ht. induction H as [|a l Ha _ IH]; [reflexivity|].
  unfold emits in *. simpl. rewrite IH, orb_false_r. unfold of_type.
  destruct (Alerts.AlertType_eqb (Alerts.alert_type a) t) eqn:E;
    [|reflexivity].
  apply AlertType_eqb_eq in E. congruence.
Qed.

Ltac rule_types :=
  unfold emits_only;
  repeat first
    [ apply append_if_Forall
    | apply Forall_nil
    | assumption
    | solve [simpl; tauto] ].

Lemma numeric_alerts_types config summary alerts :
  Alerts.numeric_alerts config summary = Ok alerts ->
  emits_only
    [Alerts.SKEWED; Alerts.INFINITE; Alerts.ZEROS; Alerts.UNIFORM] alerts.
Proof.
  unfold Alerts.numeric_alerts.
  destruct (skewness summary); cbn [field bind]; [|discriminate].
  destruct (p_infinite summary); cbn [field bind]; [|discriminate].
  destruct (p_zeros summary); cbn [field bind]; [|discriminate].
  destruct (Alerts.chi_squared_above _ _); cbn [bind]; [|discriminate].
  intros [= <-]. rule_types.
Qed.

Lemma timeseries_alerts_types config summary alerts :
  Alerts.timeseries_alerts config summary = Ok alerts ->
  emits_only
    [Alerts.SKEWED; Alerts.INFINITE; Alerts.ZEROS; Alerts.UNIFORM;
     Alerts.NON_STATIONARY; Alerts.SEASONAL] alerts.
Proof.
  unfold Alerts.timeseries_alerts.
  destruct (Alerts.numeric_alerts config summary) as [numeric|] eqn:E;
    cbn [bind]; [|discriminate].
  apply numeric_alerts_types in E.
  apply emits_only_weaken
    with (types' := [Alerts.SKEWED; Alerts.INFINITE; Alerts.ZEROS;
                     Alerts.UNIFORM; Alerts.NON_STATIONARY; Alerts.SEASONAL])
    in E; [|intros t; simpl; tauto].
  destruct (stationary summary); cbn [field bind]; [|discriminate].
  destruct (seasonal summary); cbn [field bind]; [|discriminate].
  intros [= <-]. rule_types.
Qed.

Lemma categorical_alerts_types config summary alerts :
  Alerts.categorical_alerts config summary = Ok alerts ->
  emits_only
    [Alerts.HIGH_CARDINALITY; Alerts.UNIFORM; Alerts.TYPE_DATE;
     Alerts.CONSTANT_LENGTH; Alerts.IMBALANCE] alerts.
Proof.
  unfold Alerts.categorical_alerts.
  destruct (Alerts.chi_squared_above _ _); cbn [bind]; [|discriminate].
  match goal with
  | |- (x <- ?test ;; _) = _ -> _ => destruct test
  end; cbn [bind]; [|discriminate].
  intros [= <-]. rule_types.
Qed.

Lemma boolean_alerts_types config summary alerts :
  Alerts.boolean_alerts config summary = Ok alerts ->
  emits_only [Alerts.IMBALANCE] alerts.
Proof. unfold Alerts.boolean_alerts. intros [= <-]. rule_types. Qed.

Lemma generic_alerts_types summary alerts :
  Alerts.generic_alerts summary = Ok alerts ->
  emits_only [Alerts.MISSING] alerts.
Proof.
  unfold Alerts.generic_alerts.
  destruct (p_missing summary); cbn [field bind]; [|discriminate].
  intros [= <-]. rule_types.
Qed.

Lemma supported_alerts_types summary alerts :
  Alerts.supported_alerts summary = Ok alerts ->
  emits_only [Alerts.UNIQUE; Alerts.CONSTANT] alerts.
Proof.
  unfold Alerts.supported_alerts.
  destruct (n summary); cbn [field bind]; [|discriminate].
  intros [= <-]. rule_types.
Qed.

Lemma extend_if_parts types cond alerts rules extended :
  (forall more, rules = Ok more -> emits_only types more) ->
  (forall t, In t types -> In t type_specific) ->
  Alerts.extend_if cond alerts rules = Ok extended ->
  exists more, extended = alerts ++ more /\ emits_only type_specific more.
Proof.
  intros Hrules Hsub. unfold Alerts.extend_if. destruct cond.
  - destruct rules as [more|]; cbn [bind]; [|discriminate].
    intros [= <-]. exists more. split; [reflexivity|].
    apply emits_only_weaken with (types := types); auto.
  - intros [= <-]. exists []. split; [now rewrite app_nil_r|constructor].
Qed.

(** The parts of what [check_variable_alerts] returns: the generic alerts,
    then those of an unsupported column or the supported ones followed by
    the alerts of the column's type, all assigned the column. *)
Lemma check_variable_alerts_parts config col summary alerts :
  Alerts.check_variable_alerts config col summary = Ok alerts ->
  exists type generic rest,
    type_ summary = Some type
    /\ Alerts.generic_alerts summary = Ok generic
    /\ alerts
       = map (fun a => Alerts.assign a col summary) (generic ++ rest)
    /\ (type = "Unsupported" /\ rest = Alerts.unsupported_alerts summary
        \/ type <> "Unsupported"
           /\ exists supported specific,
                Alerts.supported_alerts summary = Ok supported
                /\ rest = supported ++ specific
                /\ emits_only type_specific specific).
Proof.
  unfold Alerts.check_variable_alerts.
  destruct (Alerts.generic_alerts summary) as [generic|] eqn:Eg;
    cbn [bind]; [|discriminate].
  destruct (type_ summary) as [type|]; cbn [field bind]; [|discriminate].
  destruct (String.eqb_spec type "Unsupported") as [Hu|Hu].
  - cbn [bind]. intros [= <-]. rewrite backfill_map.
    exists type, generic, (Alerts.unsupported_alerts summary).
    repeat split. now left.
  - destruct (Alerts.supported_alerts summary) as [supported|] eqn:Es;
      cbn [bind]; [|discriminate].
    destruct (Alerts.extend_if (String.eqb type "Categorical") _ _)
      as [a0|] eqn:E0; cbn [bind]; [|discriminate].
    apply extend_if_parts
      with (types := [Alerts.HIGH_CARDINALITY; Alerts.UNIFORM;
                      Alerts.TYPE_DATE; Alerts.CONSTANT_LENGTH;
                      Alerts.IMBALANCE]) in E0;
      [|intros more; apply categorical_alerts_types
       |intros t; unfold type_specific; simpl; tauto].
    destruct E0 as [m0 [-> H0]].
    destruct (Alerts.extend_if (String.eqb type "Numeric") _ _)
      as [a1|] eqn:E1; cbn [bind]; [|discriminate].
    apply extend_if_parts
      with (types := [Alerts.SKEWED; Alerts.INFINITE; Alerts.ZEROS;
                      Alerts.UNIFORM]) in E1;
      [|intros more; apply numeric_alerts_types
       |intros t; unfold type_specific; simpl; tauto].
    destruct E1 as [m1 [-> H1]].
    destruct (Alerts.extend_if (String.eqb type "TimeSeries") _ _)
      as [a2|] eqn:E2; cbn [bind]; [|discriminate].
    apply extend_if_parts
      with (types := [Alerts.SKEWED; Alerts.INFINITE; Alerts.ZEROS;
                      Alerts.UNIFORM; Alerts.NON_STATIONARY;
                      Alerts.SEASONAL]) in E2;
      [|intros more; apply timeseries_alerts_types
       |intros t; unfold type_specific; simpl; tauto].
    destruct E2 as [m2 [-> H2]].
    destruct (Alerts.extend_if (String.eqb type "Boolean") _ _)
      as [a3|] eqn:E3; cbn [bind]; [|discriminate].
    apply extend_if_parts with (types := [Alerts.IMBALANCE]) in E3;
      [|intros more; apply boolean_alerts_types
       |intros t; unfold type_specific; simpl; tauto].
    destruct E3 as [m3 [-> H3]].
    intros [= <-]. rewrite backfill_map.
    exists type, generic, (supported ++ (m0 ++ m1 ++ m2 ++ m3)).
    split; [reflexivity|]. split; [reflexivity|]. split.
    + f_equal. cbn [app]. now rewrite <- !app_assoc.
    + right. split; [exact Hu|]. exists supported, (m0 ++ m1 ++ m2 ++ m3).
      split; [reflexivity|]. split; [reflexivity|].
      repeat apply emits_only_app; assumption.
Qed.

Lemma emits_assigned t col summary alerts :
  emits t (map (fun a => Alerts.assign a col summary) alerts) = emits t alerts.
Proof.
  unfold emits. induction alerts as [|a l IH]; [reflexivity|].
  simpl. now rewrite IH.
Qed.

(** What [check_variable_alerts] returns: alerts of the column rules'
    types, each naming the column. *)
Lemma check_variable_alerts_column config col summary alerts :
  Alerts.check_variable_alerts config col summary = Ok alerts ->
  Forall of_column_rule alerts
  /\ Forall (fun a => Alerts.column_name a = Some col) alerts.
Proof.
  intros H. apply check_variable_alerts_parts in H
    as [type [generic [rest [_ [Hg [-> Hrest]]]]]].
  apply generic_alerts_types in Hg.
  assert (Hall : emits_only
                   (Alerts.MISSING :: Alerts.UNSUPPORTED :: Alerts.REJECTED
                    :: Alerts.UNIQUE :: Alerts.CONSTANT :: type_specific)
                   (generic ++ rest)).
  { apply emits_only_app.
    - eapply emits_only_weaken; [|exact Hg]. intros t; simpl; tauto.
    - destruct Hrest as [[_ ->]|[_ [supported [specific [Hs [-> Hsp]]]]]].
      + repeat constructor; simpl; tauto.
      + apply supported_alerts_types in Hs. apply emits_only_app.
        * eapply emits_only_weaken; [|exact Hs]. intros t; simpl; tauto.
        * eapply emits_only_weaken; [|exact Hsp]. intros t; simpl; tauto. }
  split.
  - unfold emits_only in Hall. rewrite Forall_forall in *. intros a Ha.
    apply in_map_iff in Ha as [a0 [<- Ha0]]. specialize (Hall a0 Ha0).
    unfold of_column_rule. cbn [Alerts.assign Alerts.alert_type].
    unfold type_specific in Hall. simpl in Hall.
    repeat (destruct Hall as [<-|Hall]; [reflexivity|]). contradiction.
  - apply Forall_forall. intros a Ha.
    apply in_map_iff in Ha as [a0 [<- _]]. reflexivity.
Qed.

Lemma eq_trans_num (a b c : num) :
  eq a b = true -> eq b c = true -> eq a c = true.
Proof.
  destruct a as [|x], b as [|y], c as [|z]; simpl; try discriminate.
  rewrite !Qeq_bool_iff. intros H1 H2. now rewrite H1.
Qed.

Lemma eq_sym_num (a b : num) : eq a b = eq b a.
Proof.
  destruct a as [|x], b as [|y]; simpl; try reflexivity.
  destruct (Qeq_bool x y) eqn:E1, (Qeq_bool y x) eqn:E2; try reflexivity.
  - apply Qeq_bool_iff in E1. symmetry in E1. apply Qeq_bool_iff in E1.
    congruence.
  - apply Qeq_bool_iff in E2. symmetry in E2. apply Qeq_bool_iff in E2.
    congruence.
Qed.

(** C7.  On a summary that has a row count [n], [supported_alerts]
    returns; it emits [UNIQUE] exactly when [n_distinct == n] (so also
    when both are 0) and [CONSTANT] exactly when [n_distinct == 1], an
    absent [n_distinct] counting as [nan], equal to nothing.  Hence with
    [n_distinct == 1] there is a [CONSTANT] alert, and a [UNIQUE] alert
    beside it exactly when [n == 1].  The same holds of the alert list of
    a column that is not unsupported: no other rule emits the two types. *)
Theorem supported_alerts_unique_constant (summary : Summary) (rows : num) :
  n summary = Some rows ->
  let distinct := Alerts.get_nan (n_distinct summary) in
  exists alerts,
    Alerts.supported_alerts summary = Ok alerts
    /\ alerts
       = (if eq distinct rows then [Alerts.UniqueAlert None None] else [])
         ++ (if eq distinct (Fin 1)
             then [Alerts.ConstantAlert
                     (Some (Alerts.SummaryValues summary)) None]
             else [])
    /\ emits Alerts.UNIQUE alerts = eq distinct rows
    /\ emits Alerts.CONSTANT alerts = eq distinct (Fin 1)
    /\ (eq rows (Fin 0) = true -> eq distinct (Fin 0) = true ->
        emits Alerts.UNIQUE alerts = true)
    /\ (eq distinct (Fin 1) = true ->
        emits Alerts.CONSTANT alerts = true
        /\ emits Alerts.UNIQUE alerts = eq rows (Fin 1))
    /\ (forall config col type column,
          type_ summary = Some type ->
          type <> "Unsupported" ->
          Alerts.check_variable_alerts config col summary = Ok column ->
          emits Alerts.UNIQUE column = eq distinct rows
          /\ emits Alerts.CONSTANT column = eq distinct (Fin 1)).
Proof.
  intros Hn distinct.
  set (alerts :=
         Alerts.append_if (eq distinct (Fin 1))
           (Alerts.append_if (eq distinct rows) []
              (Alerts.UniqueAlert None None))
           (Alerts.ConstantAlert (Some (Alerts.SummaryValues summary)) None)).
  assert (Hrun : Alerts.supported_alerts summary = Ok alerts).
  { unfold Alerts.supported_alerts. rewrite Hn. reflexivity. }
  assert (Hu : emits Alerts.UNIQUE alerts = eq distinct rows).
  { unfold alerts. rewrite !emits_append_if. simpl.
    now rewrite andb_false_r, andb_true_r, orb_false_r. }
  assert (Hc : emits Alerts.CONSTANT alerts = eq distinct (Fin 1)).
  { unfold alerts. rewrite !emits_append_if. simpl.
    now rewrite andb_false_r, andb_true_r. }
  exists alerts. split; [exact Hrun|].
  split; [|split; [exact Hu|split; [exact Hc|split; [|split]]]].
  - unfold alerts, Alerts.append_if.
    destruct (eq distinct rows), (eq distinct (Fin 1)); reflexivity.
  - intros Hr Hd. rewrite Hu. apply eq_trans_num with (b := Fin 0);
      [assumption|]. now rewrite eq_sym_num.
  - intros Hd. split; [now rewrite Hc|]. rewrite Hu.
    destruct (eq rows (Fin 1)) eqn:Er.
    + apply eq_trans_num with (b := Fin 1); [assumption|].
      now rewrite eq_sym_num.
    + destruct (eq distinct rows) eqn:Edr; [|reflexivity].
      rewrite <- Er. symmetry.
      apply eq_trans_num with (b := distinct); [|assumption].
      now rewrite eq_sym_num.
  - intros config col type column Htype Hsup Hcol.
    apply check_variable_alerts_parts in Hcol
      as [type' [generic [rest [Htype' [Hg [-> Hrest]]]]]].
    assert (type' = type) by congruence. subst type'.
    destruct Hrest as [[Hun _]|[_ [supported [specific [Hs [-> Hsp]]]]]];
      [contradiction|].
    assert (supported = alerts) by congruence. subst supported.
    apply generic_alerts_types in Hg.
    rewrite !emits_assigned, !emits_app, Hu, Hc.
    rewrite (emits_only_not Alerts.UNIQUE Hg),
            (emits_only_not Alerts.CONSTANT Hg),
            (emits_only_not Alerts.UNIQUE Hsp),
            (emits_only_not Alerts.CONSTANT Hsp);
      try (unfold type_specific; simpl; intuition discriminate).
    now rewrite !orb_false_r.
Qed.

Lemma supported_alerts_unique_constant_witness :
  n single_row_summary = Some (Fin 1)
  /\ exists alerts,
       Alerts.supported_alerts single_row_summary = Ok alerts
       /\ emits Alerts.UNIQUE alerts = true
       /\ emits Alerts.CONSTANT alerts = true.
Proof.
  split; [reflexivity|].
  destruct (@supported_alerts_unique_constant single_row_summary (Fin 1)
              eq_refl) as [alerts [H1 [_ [H2 [H3 _]]]]].
  exists alerts. split; [exact H1|]. split; [exact H2|exact H3].
Defined.

(** C8, as stated, fails: a categorical summary whose minimum and maximum
    lengths are both 3 and that has no ["composition"] entry gets no
    [CONSTANT_LENGTH] alert. *)
Lemma categorical_alerts_constant_length_counterexample :
  ~ (forall (config : Settings) (summary : Summary) (a b : num),
       type_ summary = Some "Categorical" ->
       min_length summary = Some a ->
       max_length summary = Some b ->
       eq a b = true ->
       exists alerts,
         Alerts.categorical_alerts config summary = Ok alerts
         /\ emits Alerts.CONSTANT_LENGTH alerts = true).
Proof.
  intros H.
  destruct (H sample_config categorical_summary_without_composition
              (Fin (3 # 1)) (Fin (3 # 1)) eq_refl eq_refl eq_refl eq_refl)
    as [alerts [Hrun Hemit]].
  vm_compute in Hrun. injection Hrun as <-. vm_compute in Hemit.
  discriminate.
Qed.

(** C8, amended.  On a summary whose optional entries are complete (a
    chi-squared result has its p-value; with a composition there are both
    lengths), the categorical rules return, and they emit
    [CONSTANT_LENGTH] exactly when the summary has a ["composition"] entry
    and [min_length == max_length]. *)
Theorem categorical_alerts_constant_length
    (config : Settings) (summary : Summary) :
  (forall chi, chi_squared summary = Some chi -> pvalue chi <> None) ->
  (composition summary <> None ->
   min_length summary <> None /\ max_length summary <> None) ->
  exists alerts,
    Alerts.categorical_alerts config summary = Ok alerts
    /\ (emits Alerts.CONSTANT_LENGTH alerts = true <->
        composition summary <> None
        /\ exists a b,
             min_length summary = Some a
             /\ max_length summary = Some b
             /\ eq a b = true).
Proof.
  intros Hchi Hlen. unfold Alerts.categorical_alerts.
  assert (Hu : exists uniform,
             Alerts.chi_squared_above summary
               (vars_cat_chi_squared_threshold config) = Ok uniform).
  { unfold Alerts.chi_squared_above.
    destruct (chi_squared summary) as [chi|] eqn:E; [|now exists false].
    specialize (Hchi chi eq_refl).
    destruct (pvalue chi) as [p|]; [|congruence].
    simpl. eexists. reflexivity. }
  destruct Hu as [uniform ->]. cbn [bind].
  destruct (composition summary) as [c|] eqn:Ec.
  - destruct Hlen as [Hmin Hmax]; [discriminate|].
    destruct (min_length summary) as [a|]; [|congruence].
    destruct (max_length summary) as [b|]; [|congruence].
    cbn [field bind]. eexists. split; [reflexivity|].
    rewrite !emits_append_if. cbn.
    rewrite ?andb_false_r, ?andb_true_r, ?orb_false_r. cbn.
    rewrite ?orb_false_r. split.
    + intros H. split; [discriminate|]. exists a, b. auto.
    + intros [_ [a' [b' [[= <-] [[= <-] H]]]]]. exact H.
  - cbn [bind]. eexists. split; [reflexivity|].
    rewrite !emits_append_if. cbn.
    rewrite ?andb_false_r, ?orb_false_r. cbn. split; [discriminate|].
    intros [H _]. congruence.
Qed.

Lemma categorical_alerts_constant_length_witness :
  exists alerts,
    Alerts.categorical_alerts sample_config categorical_summary = Ok alerts
    /\ emits Alerts.CONSTANT_LENGTH alerts = true.
Proof.
  assert (Hchi : forall chi,
             chi_squared categorical_summary = Some chi -> pvalue chi <> None).
  { intros chi [= <-]. discriminate. }
  assert (Hlen : composition categorical_summary <> None ->
                 min_length categorical_summary <> None
                 /\ max_length categorical_summary <> None).
  { intros _. split; discriminate. }
  destruct (@categorical_alerts_constant_length sample_config
              categorical_summary Hchi Hlen)
    as [alerts [Hrun Hiff]].
  exists alerts. split; [exact Hrun|].
  apply Hiff. split; [discriminate|].
  exists (Fin (3 # 1)), (Fin (3 # 1)). repeat split.
Defined.

(** ** The de-minimis cutoff *)

(** C6, amended.  On a summary that has [p_missing], the generic rule
    returns, and it emits [MISSING] exactly when [p_missing] is a number
    (not [nan]) strictly above 0.01, compared as it is, unrounded: not for
    0.009, and for 0.011. *)
Theorem generic_alerts_missing (summary : Summary) (p : num) :
  p_missing summary = Some p ->
  exists alerts,
    Alerts.generic_alerts summary = Ok alerts
    /\ alerts
       = (if Alerts.alert_value p then [Alerts.MissingAlert None None] else [])
    /\ (emits Alerts.MISSING alerts = true <->
        exists q, p = Fin q /\ (1 # 100 < q)%Q)
    /\ (p = Fin (9 # 1000) -> emits Alerts.MISSING alerts = false)
    /\ (p = Fin (11 # 1000) -> emits Alerts.MISSING alerts = true).
Proof.
  intros Hp. unfold Alerts.generic_alerts. rewrite Hp. cbn [field bind].
  eexists. split; [reflexivity|].
  split; [|split; [|split]].
  - unfold Alerts.append_if. now destruct (Alerts.alert_value p).
  - rewrite emits_append_if. cbn. rewrite andb_true_r.
    unfold Alerts.alert_value. destruct p as [|q]; cbn.
    + split; [discriminate|]. intros [q [H _]]. discriminate.
    + split.
      * intros H. exists q. split; [reflexivity|].
        apply negb_true_iff in H. apply Qnot_le_lt. intros Hle.
        apply Qle_bool_iff in Hle. congruence.
      * intros [q' [[= <-] Hlt]]. apply negb_true_iff.
        destruct (Qle_bool q (1 # 100)) eqn:E; [|reflexivity].
        apply Qle_bool_iff in E. exfalso.
        exact (Qlt_not_le _ _ Hlt E).
  - intros ->. reflexivity.
  - intros ->. reflexivity.
Qed.

Lemma generic_alerts_missing_witness :
  exists alerts,
    Alerts.generic_alerts (summary_with_p_missing (Fin (11 # 1000)))
    = Ok alerts
    /\ emits Alerts.MISSING alerts = true.
Proof.
  destruct (@generic_alerts_missing
              (summary_with_p_missing (Fin (11 # 1000))) (Fin (11 # 1000))
              eq_refl) as [alerts [Hrun [_ [_ [_ Hemit]]]]].
  exists alerts. split; [exact Hrun|]. apply Hemit. reflexivity.
Defined.

Lemma Qfloor_unique (z : Z) (q : Q) :
  (inject_Z z <= q)%Q -> (q < inject_Z z + 1)%Q -> Qfloor q = z.
Proof.
  intros H1 H2.
  assert (Ha : (z <= Qfloor q)%Z).
  { rewrite <- (Qfloor_Z z). now apply Qfloor_resp_le. }
  assert (Hb : (Qfloor q < z + 1)%Z).
  { rewrite Zlt_Qlt. rewrite inject_Z_plus.
    apply Qle_lt_trans with q; [apply Qfloor_le|exact H2]. }
  lia.
Qed.

Lemma round_half_even_near (z : Z) (q : Q) :
  (inject_Z z <= q)%Q -> (q < inject_Z z + (1 # 2))%Q ->
  round_half_even q = z.
Proof.
  intros H1 H2. unfold round_half_even.
  rewrite (@Qfloor_unique z q) by lra.
  assert (E : Qcompare (q - inject_Z z) (1 # 2) = Lt).
  { rewrite <- Qlt_alt. lra. }
  now rewrite E.
Qed.

Lemma scaled_just_above (p : positive) :
  (((1 # 100) + (1 # (4 * (10 * (10 * p))))) * (Zpos (10 * (10 * p)) # 1)
   == inject_Z (Zpos p) + (1 # 4))%Q.
Proof.
  unfold Qeq, Qmult, Qplus, inject_Z. cbn [Qnum Qden].
  rewrite ?Pos2Z.inj_mul. ring.
Qed.

(** Whatever the number of decimals, some [p_missing] is above 0.01 and is
    no longer above it once rounded. *)
Lemma missing_after_rounding_differs (ndigits : nat) :
  exists q,
    Alerts.alert_value (Fin q) = true
    /\ missing_after_rounding ndigits (Fin q) = false.
Proof.
  destruct ndigits as [|[|k]].
  - exists (11 # 1000)%Q. split; reflexivity.
  - exists (11 # 1000)%Q. split; reflexivity.
  - exists ((1 # 100) + (1 # (4 * pow10 (S (S k)))))%Q. split.
    + unfold Alerts.alert_value. cbn [isna negb andb gt].
      apply negb_true_iff.
      destruct (Qle_bool _ (1 # 100)) eqn:E; [|reflexivity].
      apply Qle_bool_iff in E. exfalso. revert E.
      unfold Qle, Qplus. cbn [Qnum Qden]. rewrite ?Pos2Z.inj_mul. lia.
    + unfold missing_after_rounding, round. cbn [pow10].
      rewrite (@round_half_even_near (Zpos (pow10 k)))
        by (rewrite scaled_just_above; lra).
      cbn [gt]. apply negb_false_iff. apply Qle_bool_iff.
      unfold Qle. cbn [Qnum Qden]. rewrite ?Pos2Z.inj_mul. lia.
Qed.

(** C6, as stated, fails: no number of decimals makes the generic rule the
    rule that compares after rounding. *)
Lemma generic_alerts_rounding_counterexample :
  ~ (exists ndigits,
       forall (summary : Summary) (p : num),
         p_missing summary = Some p ->
         exists alerts,
           Alerts.generic_alerts summary = Ok alerts
           /\ emits Alerts.MISSING alerts = missing_after_rounding ndigits p).
Proof.
  intros [ndigits H].
  destruct (missing_after_rounding_differs ndigits) as [q [Hcode Hspec]].
  destruct (H (summary_with_p_missing (Fin q)) (Fin q) eq_refl)
    as [alerts [Hrun Hemit]].
  unfold Alerts.generic_alerts in Hrun. cbn [summary_with_p_missing p_missing
    field bind] in Hrun.
  rewrite Hcode in Hrun. injection Hrun as <-.
  rewrite Hspec in Hemit. discriminate.
Qed.

Example round_to_two_decimals :
  round (12 # 1000) 2 = (1 # 100)%Q
  /\ Alerts.alert_value (Fin (12 # 1000)) = true
  /\ missing_after_rounding 2 (Fin (12 # 1000)) = false.
Proof. repeat split; reflexivity. Qed.

(** ** Code that warns and calls out *)

Section MonadFacts.

Variables A B : Type.

Lemma mbind_Ok (m : M A) (k : A -> M B) log b log' :
  mbind m k log = (Ok b, log') ->
  exists a log1, m log = (Ok a, log1) /\ k a log1 = (Ok b, log').
Proof.
  unfold mbind. destruct (m log) as [[a|e] log1]; [|discriminate].
  intros H. now exists a, log1.
Qed.

Lemma call_Ok (callee : string) (outcome : result A) log a log' :
  call callee outcome log = (Ok a, log') ->
  outcome = Ok a /\ log' = log ++ [Call callee].
Proof. unfold call. intros [= -> <-]. split; reflexivity. Qed.

Lemma lift_Ok (r : result A) log a log' :
  lift r log = (Ok a, log') -> r = Ok a /\ log' = log.
Proof. unfold lift. intros [= -> <-]. split; reflexivity. Qed.

Lemma ret_Ok (x : A) log a log' :
  ret x log = (Ok a, log') -> x = a /\ log' = log.
Proof. unfold ret. intros [= -> <-]. split; reflexivity. Qed.

End MonadFacts.

Lemma mentions_here (before part after : string) :
  mentions (before ++ part ++ after) part.
Proof. now exists before, after. Qed.

Lemma string_app_assoc (a b c : string) :
  ((a ++ b) ++ c = a ++ (b ++ c))%string.
Proof. induction a as [|x a IH]; simpl; [reflexivity|now rewrite IH]. Qed.

Lemma mentions_later (first text part : string) :
  mentions text part -> mentions (first ++ text) part.
Proof.
  intros [before [after ->]]. exists (first ++ before)%string, after.
  now rewrite string_app_assoc.
Qed.

Ltac find_part :=
  first [apply mentions_here | apply mentions_later; find_part].

Lemma missing_warning_mentions (missing_name error : string) :
  mentions (Missing.missing_warning missing_name error) missing_name
  /\ mentions (Missing.missing_warning missing_name error) error.
Proof.
  unfold Missing.missing_warning. split.
  - apply mentions_here.
  - find_part.
Qed.

Lemma correlation_warning_mentions (correlation_name error : string) :
  mentions (Correlations.correlation_warning correlation_name error)
    correlation_name
  /\ mentions (Correlations.correlation_warning correlation_name error) error.
Proof.
  unfold Correlations.correlation_warning. split.
  - apply mentions_here.
  - find_part.
Qed.

(** ** Missing-value diagrams *)

(** C10.  Whatever the configuration, the settings entry and the diagram
    functions do: on a dataset without rows [get_missing_diagram] returns
    [None] and leaves the log as it was, so the diagram function is not
    called; on a dataset with rows whose diagram function raises a
    [ValueError], it returns [None] after the call and one warning, whose
    text has the diagram's name and the error's message in it. *)
Theorem get_missing_diagram_omitted
    (A : Type)
    (render : Missing.MissingFunction -> Settings -> DataFrame A ->
              result string)
    (config : Settings) (df : DataFrame A)
    (settings : Missing.DiagramSettings) (log : list event) :
  (len df = 0 ->
   Missing.get_missing_diagram render config df settings log = (Ok None, log))
  /\ (forall msg,
        len df <> 0 ->
        render (Missing.function settings) config df = Raise (ValueError msg) ->
        Missing.get_missing_diagram render config df settings log
        = (Ok None,
           log ++ [Call (Missing.function_name (Missing.function settings));
                   Warning (Missing.missing_warning
                              (Missing.name settings) msg)])
        /\ mentions (Missing.missing_warning (Missing.name settings) msg)
             (Missing.name settings)
        /\ mentions (Missing.missing_warning (Missing.name settings) msg) msg).
Proof.
  split.
  - intros Hlen. unfold Missing.get_missing_diagram. now rewrite Hlen.
  - intros msg Hlen Hraise. split; [|apply missing_warning_mentions].
    unfold Missing.get_missing_diagram.
    destruct (Nat.eqb_spec (len df) 0) as [H0|_]; [contradiction|].
    unfold mbind, Missing.handle_missing, try_except, call, warn, ret.
    rewrite Hraise. cbn. now rewrite <- app_assoc.
Qed.

Lemma get_missing_diagram_omitted_witness :
  Missing.get_missing_diagram sample_render sample_config empty_dataset
    heatmap_settings [] = (Ok None, [])
  /\ Missing.get_missing_diagram sample_render sample_config small_dataset
       heatmap_settings []
     = (Ok None,
        [Call "missing_heatmap";
         Warning (Missing.missing_warning "heatmap" "zero-size array")]).
Proof.
  split.
  - apply (proj1 (get_missing_diagram_omitted sample_render sample_config
                    empty_dataset heatmap_settings [])).
    reflexivity.
  - apply (proj2 (get_missing_diagram_omitted sample_render sample_config
                    small_dataset heatmap_settings [])
             "zero-size array").
    + discriminate.
    + reflexivity.
Defined.

(** ** Correlation failures *)

Section CorrelationStage.

Variable A : Type.
Variable compute :
  Correlations.Correlation -> Settings -> DataFrame A -> dict Summary ->
  result (option Matrix).
Variable config : Settings.
Variable df : DataFrame A.
Variable series_description : dict Summary.

(** For the run at hand: the outcome of a method, the events of its
    calculation, the dictionary built over a list of methods. *)
Local Abbreviation outcome_of :=
  (outcome compute config df series_description).
Local Abbreviation logged := (events_of compute config df series_description).
Local Abbreviation built := (computed compute config df series_description).

Lemma calculate_correlation_run (name : string) (log : list event) :
  Correlations.calculate_correlation compute config df name
    series_description log
  = (match outcome_of name with
     | Ok c => Ok (kept (Ok c))
     | Raise e => if Correlations.handled e then Ok None else Raise e
     end,
     log ++ logged name).
Proof.
  unfold Correlations.calculate_correlation, outcome, events_of, mbind,
    try_except, lift, getitem, call, Correlations.warn_correlation, warn, ret.
  destruct (get Correlations.correlation_measures name) as [measure|].
  - destruct (compute measure config df series_description) as [c|e].
    + cbn. destruct c as [m|]; reflexivity.
    + destruct (Correlations.handled e); cbn; [|reflexivity].
      now rewrite <- app_assoc.
  - cbn. now rewrite app_nil_r.
Qed.

Lemma calculate_correlations_run names acc log d log' :
  Describe.calculate_correlations compute config df series_description
    names acc log = (Ok d, log') ->
  Forall (fun name => absorbed (outcome_of name)) names
  /\ d = built names acc
  /\ log' = log ++ flat_map logged names.
Proof.
  revert acc log. induction names as [|name names IH]; intros acc log; simpl.
  - unfold ret. intros [= <- <-]. rewrite app_nil_r. repeat split. constructor.
  - unfold mbind at 1. rewrite calculate_correlation_run.
    destruct (outcome_of name) as [c|e] eqn:E.
    + intros H. apply IH in H as [H1 [H2 H3]].
      split; [|split].
      * constructor; [now rewrite E|assumption].
      * exact H2.
      * now rewrite H3, <- app_assoc.
    + destruct (Correlations.handled e) eqn:Eh; [|discriminate].
      intros H. apply IH in H as [H1 [H2 H3]].
      split; [|split].
      * constructor; [rewrite E; exact Eh|assumption].
      * exact H2.
      * now rewrite H3, <- app_assoc.
Qed.

Lemma calculate_correlations_returns names acc log :
  Forall (fun name => absorbed (outcome_of name)) names ->
  Describe.calculate_correlations compute config df series_description
    names acc log
  = (Ok (built names acc), log ++ flat_map logged names).
Proof.
  revert acc log. induction names as [|name names IH]; intros acc log H.
  - simpl. unfold ret. now rewrite app_nil_r.
  - inversion H as [|? ? Hname Hrest]; subst.
    cbn [Describe.calculate_correlations flat_map].
    unfold mbind at 1. rewrite calculate_correlation_run.
    change (built (name :: names) acc)
      with (built names (setitem acc name (kept (outcome_of name)))).
    unfold absorbed in Hname.
    destruct (outcome_of name) as [c|e].
    + rewrite IH by assumption. now rewrite <- app_assoc.
    + rewrite Hname. rewrite IH by assumption. now rewrite <- app_assoc.
Qed.

Lemma get_computed names acc name :
  get (built names acc) name =
  if existsb (String.eqb name) names
  then Some (kept (outcome_of name))
  else get acc name.
Proof.
  revert acc. induction names as [|x names IH]; intros acc; [reflexivity|].
  unfold computed in *. simpl. rewrite IH, get_setitem.
  destruct (existsb (String.eqb name) names); simpl.
  - now rewrite orb_true_r.
  - rewrite orb_false_r. rewrite (String.eqb_sym name x).
    destruct (String.eqb_spec x name) as [->|_]; reflexivity.
Qed.

Lemma NoDup_keys_computed names acc :
  NoDup (keys acc) -> NoDup (keys (built names acc)).
Proof.
  revert acc. induction names as [|x names IH]; intros acc H; [exact H|].
  unfold computed in *. simpl. apply IH. now apply NoDup_keys_setitem.
Qed.

Lemma keys_computed names acc name :
  In name (keys (built names acc)) -> In name names \/ In name (keys acc).
Proof.
  revert acc. induction names as [|x names IH]; intros acc; [now right|].
  unfold computed in *. simpl. intros H. apply IH in H as [H|H]; [tauto|].
  rewrite keys_setitem in H. destruct (get acc x); [tauto|].
  apply in_app_or in H as [H|[<-|[]]]; tauto.
Qed.

End CorrelationStage.

Lemma get_drop_none (V : Type) (d : dict (option V)) (k : string) :
  NoDup (keys d) ->
  get (Describe.drop_none d) k =
  match get d k with
  | Some (Some v) => Some v
  | _ => None
  end.
Proof.
  induction d as [|[k' [v|]] d IH]; intros Hnd; simpl; [reflexivity| |];
    inversion Hnd as [|? ? Hk Hnd']; subst.
  - destruct (String.eqb_spec k' k); [reflexivity|now apply IH].
  - destruct (String.eqb_spec k' k) as [->|_]; [|now apply IH].
    rewrite IH by assumption.
    apply get_None_iff in Hk. now rewrite Hk.
Qed.

Lemma keys_drop_none (V : Type) (d : dict (option V)) (k : string) :
  In k (keys (Describe.drop_none d)) -> In k (keys d).
Proof.
  induction d as [|[k' [v|]] d IH]; simpl; [tauto| |].
  - intros [H|H]; [now left|right; now apply IH].
  - intros H. right. now apply IH.
Qed.

(** ** The pipeline *)

Lemma no_compute_call_app (l1 l2 : list event) :
  no_compute_call (l1 ++ l2) <-> no_compute_call l1 /\ no_compute_call l2.
Proof. apply Forall_app. Qed.

Section PipelineFacts.

Variable A : Type.
Variable check_dataframe : DataFrame A -> result unit.
Variable preprocess : Settings -> DataFrame A -> result (DataFrame A).
Variable get_series_descriptions :
  Settings -> DataFrame A -> result (dict Summary).
Variable get_table_stats :
  Settings -> DataFrame A -> dict Summary -> result TableStats.
Variable compute :
  Correlations.Correlation -> Settings -> DataFrame A -> dict Summary ->
  result (option Matrix).
Variable scatter_stage : Settings -> DataFrame A -> list string -> result unit.
Variable render :
  Missing.MissingFunction -> Settings -> DataFrame A -> result string.
Variable sample_stage : Settings -> DataFrame A -> result unit.
Variable get_duplicates :
  Settings -> DataFrame A -> list string -> result Describe.DuplicateMetrics.
Variable closing_stages : Settings -> DataFrame A -> TableStats -> result unit.

Lemma get_missing_diagram_log config df settings log r log' :
  Missing.get_missing_diagram render config df settings log = (r, log') ->
  exists events, log' = log ++ events /\ no_compute_call events.
Proof.
  unfold Missing.get_missing_diagram.
  destruct (Nat.eqb (len df) 0).
  - unfold ret. intros [= _ <-]. exists []. split; [now rewrite app_nil_r|].
    constructor.
  - unfold mbind, Missing.handle_missing, try_except, call, warn, ret.
    assert (Hcall : is_compute_call
                      (Call (Missing.function_name (Missing.function settings)))
                    = false).
    { destruct (Missing.function settings); reflexivity. }
    destruct (render (Missing.function settings) config df) as [s|e].
    + intros [= _ <-]. eexists. split; [reflexivity|]. now repeat constructor.
    + destruct e; intros [= _ <-];
        try (eexists; split; [reflexivity|]; now repeat constructor).
      eexists. split; [symmetry; apply app_assoc|]. now repeat constructor.
Qed.

Lemma missing_diagrams_of_log config df items acc log r log' :
  Describe.missing_diagrams_of render config df items acc log = (r, log') ->
  exists events, log' = log ++ events /\ no_compute_call events.
Proof.
  revert acc log. induction items as [|[name settings] items IH];
    intros acc log; simpl.
  - unfold ret. intros [= _ <-]. exists []. split; [now rewrite app_nil_r|].
    constructor.
  - unfold mbind at 1.
    destruct (Missing.get_missing_diagram render config df settings log)
      as [[diagram|e] log1] eqn:E;
      apply get_missing_diagram_log in E as [ev1 [-> H1]].
    + intros H. apply IH in H as [ev2 [-> H2]].
      exists (ev1 ++ ev2). split; [now rewrite app_assoc|].
      now apply no_compute_call_app.
    + intros [= _ <-]. now exists ev1.
Qed.

Lemma correlations_stage_skipped config df series_description table_stats
    rows log :
  table_n table_stats = Some rows ->
  eq rows (Fin 0) = true ->
  Describe.correlations_stage compute config df series_description
    table_stats log = (Ok [], log).
Proof.
  intros Hn Hz. unfold Describe.correlations_stage, mbind, lift, ne.
  rewrite Hn. cbn [field]. now rewrite Hz.
Qed.

Lemma correlations_stage_run config df series_description table_stats
    rows log d log' :
  table_n table_stats = Some rows ->
  ne rows (Fin 0) = true ->
  Describe.correlations_stage compute config df series_description
    table_stats log = (Ok d, log') ->
  let names := Correlations.get_active_correlations config in
  Forall
    (fun name => absorbed (outcome compute config df series_description name))
    names
  /\ d = Describe.drop_none
           (computed compute config df series_description names [])
  /\ log' = log
            ++ flat_map (events_of compute config df series_description) names.
Proof.
  intros Hn Hz. unfold Describe.correlations_stage.
  unfold mbind at 1, lift. rewrite Hn. cbn [field]. rewrite Hz.
  intros H. apply mbind_Ok in H as [all [log1 [Hall Hret]]].
  apply ret_Ok in Hret as [<- <-].
  apply calculate_correlations_run in Hall as [H1 [-> ->]].
  repeat split. exact H1.
Qed.

(** The stages of a run that returned. *)
Lemma describe_stages config df0 log0 d log :
  Describe.describe check_dataframe preprocess get_series_descriptions
    get_table_stats compute scatter_stage render sample_stage get_duplicates
    closing_stages config (Some df0) log0 = (Ok d, log) ->
  exists df table_stats metrics log1 log2 later,
    preprocess config df0 = Ok df
    /\ get_series_descriptions config df = Ok (Describe.variables d)
    /\ get_table_stats config df (Describe.variables d) = Ok table_stats
    /\ log1 = log0 ++ [Call "check_dataframe"; Call "preprocess";
                       Call "get_series_descriptions"; Call "get_table_stats"]
    /\ Describe.correlations_stage compute config df (Describe.variables d)
         table_stats log1 = (Ok (Describe.correlations d), log2)
    /\ Describe.table d = Describe.update table_stats metrics
    /\ Alerts.get_alerts config (Describe.table d) (Describe.variables d)
         (Describe.correlations d) = Ok (Describe.alerts d)
    /\ log = log2 ++ later
    /\ no_compute_call later.
Proof.
  unfold Describe.describe. intros H.
  apply mbind_Ok in H as [u1 [l1 [H1 H]]]. apply call_Ok in H1 as [_ ->].
  apply mbind_Ok in H as [df [l2 [H2 H]]]. apply call_Ok in H2 as [Hpre ->].
  apply mbind_Ok in H as [series [l3 [H3 H]]].
  apply call_Ok in H3 as [Hseries ->].
  apply mbind_Ok in H as [types [l4 [H4 H]]]. apply lift_Ok in H4 as [_ ->].
  apply mbind_Ok in H as [table_stats [l5 [H5 H]]].
  apply call_Ok in H5 as [Htable ->].
  apply mbind_Ok in H as [cors [l6 [Hcors H]]].
  apply mbind_Ok in H as [u2 [l7 [H7 H]]]. apply call_Ok in H7 as [_ ->].
  apply mbind_Ok in H as [missing_map [l8 [H8 H]]].
  apply lift_Ok in H8 as [_ ->].
  apply mbind_Ok in H as [missing [l9 [H9 H]]].
  apply missing_diagrams_of_log in H9 as [ev [-> Hev]].
  apply mbind_Ok in H as [u3 [l10 [H10 H]]]. apply call_Ok in H10 as [_ ->].
  apply mbind_Ok in H as [metrics [l11 [H11 H]]].
  apply call_Ok in H11 as [_ ->].
  apply mbind_Ok in H as [alerts [l12 [H12 H]]].
  apply lift_Ok in H12 as [Halerts ->].
  apply mbind_Ok in H as [u4 [l13 [H13 H]]]. apply call_Ok in H13 as [_ ->].
  apply ret_Ok in H as [<- ->]. cbn [Describe.variables Describe.table
    Describe.correlations Describe.alerts].
  exists df, table_stats, metrics,
    (((((log0 ++ [Call "check_dataframe"]) ++ [Call "preprocess"])
        ++ [Call "get_series_descriptions"]) ++ [Call "get_table_stats"])),
    l6,
    ([Call "get_scatter_plot"] ++ ev
       ++ [Call "get_sample"; Call "get_duplicates"; Call "finalize"]).
  repeat split; try assumption.
  - now rewrite <- !app_assoc.
  - now rewrite <- !app_assoc.
  - apply no_compute_call_app. split; [now repeat constructor|].
    apply no_compute_call_app. split; [assumption|now repeat constructor].
Qed.

Lemma existsb_eqb_In (name : string) (names : list string) :
  In name names -> existsb (String.eqb name) names = true.
Proof.
  intros H. apply existsb_exists. exists name. split; [exact H|].
  apply String.eqb_refl.
Qed.

Lemma get_kept_correlations config df series_description names name :
  In name names ->
  get (Describe.drop_none
         (computed compute config df series_description names [])) name
  = kept (outcome compute config df series_description name).
Proof.
  intros Hin. rewrite get_drop_none by (apply NoDup_keys_computed; constructor).
  rewrite get_computed, existsb_eqb_In by assumption.
  destruct (kept _); reflexivity.
Qed.

(** C5.  A method whose [compute] raises one of the handled classes makes
    [calculate_correlation] return [None] after the call and one warning
    whose text has the method's name and the error's message in it; a
    computed matrix without rows makes it return [None] as well.  In a run
    of [describe] over a table with rows that returned, the final
    correlations hold, of the active methods only, exactly those that
    computed a matrix with rows, each with the matrix its [compute]
    returned: a method that failed or computed an empty matrix has no key,
    the failure is among the warnings, and every other method's matrix is
    there. *)
Theorem failed_correlation_omitted :
  (forall config df series_description name e log,
     outcome compute config df series_description name = Raise e ->
     Correlations.handled e = true ->
     exists measure,
       get Correlations.correlation_measures name = Some measure
       /\ Correlations.calculate_correlation compute config df name
            series_description log
          = (Ok None,
             log ++ [Call (Correlations.class_name measure ++ ".compute");
                     Warning (Correlations.correlation_warning name
                                (str_exn e))])
       /\ mentions (Correlations.correlation_warning name (str_exn e)) name
       /\ mentions (Correlations.correlation_warning name (str_exn e))
            (str_exn e))
  /\ (forall config df series_description name m log,
        outcome compute config df series_description name = Ok (Some m) ->
        len m = 0 ->
        exists measure,
          get Correlations.correlation_measures name = Some measure
          /\ Correlations.calculate_correlation compute config df name
               series_description log
             = (Ok None,
                log ++ [Call (Correlations.class_name measure ++ ".compute")]))
  /\ (forall config df0 d log rows,
        Describe.describe check_dataframe preprocess get_series_descriptions
          get_table_stats compute scatter_stage render sample_stage
          get_duplicates closing_stages config (Some df0) [] = (Ok d, log) ->
        table_n (Describe.table d) = Some rows ->
        ne rows (Fin 0) = true ->
        exists df,
          preprocess config df0 = Ok df
          /\ (forall name,
                In name (keys (Describe.correlations d)) ->
                In name (Correlations.get_active_correlations config))
          /\ forall name,
               In name (Correlations.get_active_correlations config) ->
               let o := outcome compute config df (Describe.variables d) name in
               get (Describe.correlations d) name = kept o
               /\ (forall e,
                     o = Raise e ->
                     Correlations.handled e = true
                     /\ get (Describe.correlations d) name = None
                     /\ In (Warning (Correlations.correlation_warning name
                                       (str_exn e))) log)
               /\ (forall m,
                     o = Ok (Some m) -> len m = 0 ->
                     get (Describe.correlations d) name = None)
               /\ (forall m,
                     o = Ok (Some m) -> 0 < len m ->
                     get (Describe.correlations d) name = Some m)).
Proof.
  split; [|split].
  - intros config df series name e log Ho He.
    pose proof (calculate_correlation_run compute config df series name log)
      as Hrun.
    rewrite Ho, He in Hrun. unfold outcome in Ho. unfold events_of in Hrun.
    destruct (get Correlations.correlation_measures name) as [measure|].
    + exists measure. rewrite Ho, He in Hrun.
      split; [reflexivity|]. split; [exact Hrun|].
      apply correlation_warning_mentions.
    + injection Ho as <-. discriminate.
  - intros config df series name m log Ho Hlen.
    pose proof (calculate_correlation_run compute config df series name log)
      as Hrun.
    rewrite Ho in Hrun. unfold outcome in Ho. unfold events_of in Hrun.
    destruct (get Correlations.correlation_measures name) as [measure|];
      [|discriminate].
    exists measure. rewrite Ho in Hrun. cbn [kept] in Hrun.
    rewrite Hlen in Hrun. split; [reflexivity|exact Hrun].
  - intros config df0 d log rows Hrun Hn Hz.
    apply describe_stages in Hrun
      as [df [table_stats [metrics [log1 [log2 [later
           [Hpre [_ [_ [_ [Hstage [Htable [_ [Hlog _]]]]]]]]]]]]]].
    rewrite Htable in Hn. cbn [Describe.update table_n] in Hn.
    apply correlations_stage_run with (rows := rows) in Hstage;
      [|exact Hn|exact Hz].
    cbv zeta in Hstage. destruct Hstage as [Habs [Hd Hlog2]].
    exists df. split; [exact Hpre|]. split.
    + intros name Hin. rewrite Hd in Hin. apply keys_drop_none in Hin.
      apply keys_computed in Hin as [Hin|[]]. exact Hin.
    + intros name Hin o.
      assert (Hget : get (Describe.correlations d) name = kept o).
      { rewrite Hd. now apply get_kept_correlations. }
      rewrite Forall_forall in Habs. specialize (Habs name Hin).
      fold o in Habs.
      split; [exact Hget|]. split; [|split].
      * intros e Ho. rewrite Ho in Habs. cbn [absorbed] in Habs.
        split; [exact Habs|]. split; [now rewrite Hget, Ho|].
        rewrite Hlog, Hlog2. apply in_or_app. left. apply in_or_app. right.
        apply in_flat_map. exists name. split; [exact Hin|].
        unfold events_of. unfold o, outcome in Ho.
        destruct (get Correlations.correlation_measures name) as [measure|].
        -- rewrite Ho, Habs. right. now left.
        -- injection Ho as <-. discriminate.
      * intros m Ho Hlen. rewrite Hget, Ho. cbn [kept]. now rewrite Hlen.
      * intros m Ho Hlen. rewrite Hget, Ho. cbn [kept].
        destruct (Nat.leb_spec (len m) 0) as [H0|_]; [lia|reflexivity].
Qed.

End PipelineFacts.

Lemma failed_correlation_omitted_witness :
  match sample_run with
  | (Ok d, log) =>
      get (Describe.correlations d) "phi_k" = None
      /\ get (Describe.correlations d) "spearman" = None
      /\ get (Describe.correlations d) "pearson" = Some sample_matrix
      /\ In (Warning (Correlations.correlation_warning "phi_k" "phik failed"))
            log
  | (Raise _, _) => False
  end.
Proof.
  destruct sample_run as [[d|e] log] eqn:Hrun;
    [|vm_compute in Hrun; discriminate].
  assert (Hd := Hrun). vm_compute in Hd. injection Hd as <- <-.
  unfold sample_run, sample_describe in Hrun.
  destruct (proj2 (proj2 (failed_correlation_omitted
              (fun _ => Ok tt) (fun _ df => Ok df)
              (fun _ _ => Ok [("x", categorical_summary)])
              (fun _ _ _ => Ok sample_table)
              sample_compute (fun _ _ _ => Ok tt) sample_render
              (fun _ _ => Ok tt)
              (fun _ _ _ =>
                 Ok {| Describe.metrics_n_duplicates := Some (Fin 0);
                       Describe.metrics_p_duplicates := Some (Fin 0) |})
              (fun _ _ _ => Ok tt)))
            sample_config small_dataset _ _ (Fin (50 # 1)) Hrun eq_refl eq_refl)
    as [df [Hpre [_ Hnames]]].
  injection Hpre as <-.
  assert (Hphik :
            In "phi_k" (Correlations.get_active_correlations sample_config))
    by (vm_compute; tauto).
  assert (Hspearman :
            In "spearman" (Correlations.get_active_correlations sample_config))
    by (vm_compute; tauto).
  assert (Hpearson :
            In "pearson" (Correlations.get_active_correlations sample_config))
    by (vm_compute; tauto).
  split; [|split; [|split]].
  - destruct (Hnames "phi_k" Hphik) as [_ [Hfail _]].
    destruct (Hfail (ValueError "phik failed") eq_refl) as [_ [Hnone _]].
    exact Hnone.
  - destruct (Hnames "spearman" Hspearman) as [_ [_ [Hempty _]]].
    exact (Hempty {| columns := []; values := [] |} eq_refl eq_refl).
  - destruct (Hnames "pearson" Hpearson) as [_ [_ [_ Hkept]]].
    apply (Hkept sample_matrix eq_refl). vm_compute. lia.
  - destruct (Hnames "phi_k" Hphik) as [_ [Hfail _]].
    destruct (Hfail (ValueError "phik failed") eq_refl) as [_ [_ Hwarn]].
    exact Hwarn.
Defined.

(** ** A table without rows *)

Lemma of_column_rule_not (t : Alerts.AlertType) (l : list Alerts.Alert) :
  column_rule_type t = false ->
  Forall of_column_rule l ->
  filter (of_type t) l = [].
Proof.
  intros Ht H. induction H as [|a l Ha _ IH]; [reflexivity|].
  simpl. rewrite IH. unfold of_type.
  destruct (Alerts.AlertType_eqb (Alerts.alert_type a) t) eqn:E;
    [|reflexivity].
  apply AlertType_eqb_eq in E. unfold of_column_rule in Ha. congruence.
Qed.

Lemma column_alerts_shape config series_description per_column :
  column_alerts config series_description per_column ->
  Forall of_column_rule (List.concat per_column)
  /\ Forall2
       (fun item alerts =>
          Forall (fun a => Alerts.column_name a = Some (fst item)) alerts)
       series_description per_column.
Proof.
  induction 1 as [|item alerts items per_column Hrun _ [IH1 IH2]].
  - split; constructor.
  - apply check_variable_alerts_column in Hrun as [H1 H2]. split.
    + simpl. apply Forall_app. split; assumption.
    + now constructor.
Qed.

Lemma check_table_alerts_empty table rows :
  table_n table = Some rows ->
  eq rows (Fin 0) = true ->
  exists table_alerts,
    Alerts.check_table_alerts table = Ok table_alerts
    /\ Forall table_scope table_alerts
    /\ List.length (filter (of_type Alerts.EMPTY) table_alerts) = 1
    /\ filter (of_type Alerts.HIGH_CORRELATION) table_alerts = [].
Proof.
  intros Hn Hz. unfold Alerts.check_table_alerts. rewrite Hn.
  cbn [field bind]. rewrite Hz. eexists. split; [reflexivity|].
  unfold Alerts.append_if.
  destruct (Alerts.alert_value _); repeat split; repeat constructor.
Qed.

Section EmptyTable.

Variable A : Type.
Variable check_dataframe : DataFrame A -> result unit.
Variable preprocess : Settings -> DataFrame A -> result (DataFrame A).
Variable get_series_descriptions :
  Settings -> DataFrame A -> result (dict Summary).
Variable get_table_stats :
  Settings -> DataFrame A -> dict Summary -> result TableStats.
Variable compute :
  Correlations.Correlation -> Settings -> DataFrame A -> dict Summary ->
  result (option Matrix).
Variable scatter_stage : Settings -> DataFrame A -> list string -> result unit.
Variable render :
  Missing.MissingFunction -> Settings -> DataFrame A -> result string.
Variable sample_stage : Settings -> DataFrame A -> result unit.
Variable get_duplicates :
  Settings -> DataFrame A -> list string -> result Describe.DuplicateMetrics.
Variable closing_stages : Settings -> DataFrame A -> TableStats -> result unit.

(** C4, amended.  In a run of [describe] that returned over a table
    whose row count is 0: the correlations are empty and no correlation
    class's [compute] was called; the alert list has exactly one [EMPTY]
    alert and no [HIGH_CORRELATION] alert; it is made of the table alerts,
    which belong to no column, and of the alerts the column rules return
    for each column summary, each naming its column.  Without column
    summaries every alert belongs to no column. *)
Theorem empty_table_run (config : Settings) (df0 : DataFrame A)
    (d : Describe.BaseDescription) (log : list event) (rows : num) :
  Describe.describe check_dataframe preprocess get_series_descriptions
    get_table_stats compute scatter_stage render sample_stage get_duplicates
    closing_stages config (Some df0) [] = (Ok d, log) ->
  table_n (Describe.table d) = Some rows ->
  eq rows (Fin 0) = true ->
  Describe.correlations d = []
  /\ no_compute_call log
  /\ List.length (filter (of_type Alerts.EMPTY) (Describe.alerts d)) = 1
  /\ filter (of_type Alerts.HIGH_CORRELATION) (Describe.alerts d) = []
  /\ exists table_alerts per_column,
       Alerts.check_table_alerts (Describe.table d) = Ok table_alerts
       /\ column_alerts config (Describe.variables d) per_column
       /\ Permutation (Describe.alerts d)
            (table_alerts ++ List.concat per_column)
       /\ Forall table_scope table_alerts
       /\ Forall2
            (fun item alerts =>
               Forall (fun a => Alerts.column_name a = Some (fst item)) alerts)
            (Describe.variables d) per_column
       /\ (Describe.variables d = [] ->
           Forall table_scope (Describe.alerts d)).
Proof.
  intros Hrun Hn Hz.
  apply describe_stages in Hrun
    as [df [table_stats [metrics [log1 [log2 [later
         [_ [_ [_ [Hlog1 [Hstage [Htable [Halerts [Hlog Hlater]]]]]]]]]]]]]].
  assert (Hn' : table_n table_stats = Some rows).
  { rewrite Htable in Hn. exact Hn. }
  rewrite (correlations_stage_skipped compute config df (Describe.variables d)
             table_stats log1 Hn' Hz) in Hstage.
  injection Hstage as Hcors Hlog2. rewrite <- Hcors in *.
  split; [reflexivity|]. split.
  { rewrite Hlog, <- Hlog2, Hlog1. apply no_compute_call_app.
    split; [now repeat constructor|exact Hlater]. }
  unfold Alerts.get_alerts in Halerts.
  destruct (check_table_alerts_empty (Describe.table d) Hn Hz)
    as [ta [Hta [Hscope [Hempty Hhigh]]]].
  rewrite Hta in Halerts. cbn [bind] in Halerts.
  destruct (Alerts.variable_alerts config (Describe.variables d) ta)
    as [va|] eqn:Ev; cbn [bind] in Halerts; [|discriminate].
  apply variable_alerts_concat in Ev as [per_column [Hcols ->]].
  cbn in Halerts. injection Halerts as Halerts. rewrite app_nil_r in Halerts.
  destruct (column_alerts_shape Hcols) as [Htypes Hnames].
  set (key := fun alert => Alerts.str (Alerts.alert_type alert)) in Halerts.
  assert (Hperm : Permutation (Describe.alerts d)
                    (ta ++ List.concat per_column)).
  { rewrite <- Halerts. apply sort_perm. }
  assert (Hfilter : forall t,
            filter (of_type t) (Describe.alerts d)
            = filter (of_type t) ta
              ++ filter (of_type t) (List.concat per_column)).
  { intros t. rewrite <- Halerts, !of_type_has_rank.
    rewrite (sort_stable key alert_rank alert_key_rank).
    apply filter_app. }
  split; [|split].
  - rewrite Hfilter, length_app, Hempty.
    now rewrite (of_column_rule_not Alerts.EMPTY eq_refl Htypes).
  - rewrite Hfilter, Hhigh.
    now rewrite (of_column_rule_not Alerts.HIGH_CORRELATION eq_refl Htypes).
  - exists ta, per_column. repeat split; try assumption.
    intros Hnone. rewrite Hnone in Hcols. inversion Hcols; subst.
    simpl in Hperm. rewrite app_nil_r in Hperm.
    rewrite Forall_forall in *. intros a Ha. apply Hscope.
    eapply Permutation_in; [exact Hperm|exact Ha].
Qed.

End EmptyTable.

Example empty_run_alerts :
  match empty_run with
  | (Ok d, log) =>
      map (fun a => (Alerts.name (Alerts.alert_type a), Alerts.column_name a))
          (Describe.alerts d)
      = [("EMPTY", None); ("REJECTED", Some "y"); ("UNIQUE", Some "z");
         ("UNSUPPORTED", Some "y")]
  | (Raise _, _) => False
  end.
Proof. vm_compute. reflexivity. Qed.

(** C4, as stated, fails: in the run over two columns and no rows the
    alert list has the alerts of the column rules in it. *)
Lemma empty_table_column_alerts_counterexample :
  ~ (forall (A : Type)
       (check_dataframe : DataFrame A -> result unit)
       (preprocess : Settings -> DataFrame A -> result (DataFrame A))
       (get_series_descriptions :
          Settings -> DataFrame A -> result (dict Summary))
       (get_table_stats :
          Settings -> DataFrame A -> dict Summary -> result TableStats)
       (compute :
          Correlations.Correlation -> Settings -> DataFrame A ->
          dict Summary -> result (option Matrix))
       (scatter_stage : Settings -> DataFrame A -> list string -> result unit)
       (render :
          Missing.MissingFunction -> Settings -> DataFrame A -> result string)
       (sample_stage : Settings -> DataFrame A -> result unit)
       (get_duplicates :
          Settings -> DataFrame A -> list string ->
          result Describe.DuplicateMetrics)
       (closing_stages :
          Settings -> DataFrame A -> TableStats -> result unit)
       (config : Settings) (df0 : DataFrame A)
       (d : Describe.BaseDescription) (log : list event) (rows : num),
       Describe.describe check_dataframe preprocess get_series_descriptions
         get_table_stats compute scatter_stage render sample_stage
         get_duplicates closing_stages config (Some df0) [] = (Ok d, log) ->
       table_n (Describe.table d) = Some rows ->
       eq rows (Fin 0) = true ->
       List.length (filter (of_type Alerts.EMPTY) (Describe.alerts d)) = 1
       /\ Forall table_scope (Describe.alerts d)
       /\ Describe.correlations d = []
       /\ no_compute_call log).
Proof.
  intros H.
  destruct empty_run as [[d|e] log] eqn:Hrun;
    [|vm_compute in Hrun; discriminate].
  assert (Hd := Hrun). vm_compute in Hd. injection Hd as <- <-.
  unfold empty_run, sample_describe in Hrun.
  destruct (H _ _ _ _ _ _ _ _ _ _ _ _ _ _ _ (Fin 0) Hrun eq_refl eq_refl)
    as [_ [Hscope _]].
  inversion Hscope as [|? ? _ Hrest]; subst.
  inversion Hrest as [|? ? Hy _]; subst.
  discriminate Hy.
Qed.

Lemma empty_table_run_witness :
  match empty_run with
  | (Ok d, log) =>
      Describe.correlations d = []
      /\ no_compute_call log
      /\ List.length (filter (of_type Alerts.EMPTY) (Describe.alerts d)) = 1
  | (Raise _, _) => False
  end.
Proof.
  destruct empty_run as [[d|e] log] eqn:Hrun;
    [|vm_compute in Hrun; discriminate].
  assert (Hd := Hrun). vm_compute in Hd. injection Hd as <- <-.
  unfold empty_run, sample_describe in Hrun.
  destruct (empty_table_run _ _ _ _ _ _ _ _ _ _ _ _ (rows := Fin 0)
              Hrun eq_refl eq_refl)
    as [Hcors [Hlog [Hempty _]]].
  split; [exact Hcors|]. split; [exact Hlog|exact Hempty].
Defined.

(* ================================================================== *)
(** * Part V: further properties of the code                          *)
(* ================================================================== *)

(** ** The threshold check, continued *)

Lemma perform_check_correlation_items (m : Matrix) (t : num) :
  square m ->
  NoDup (columns m) ->
  Correlations.perform_check_correlation m t
  = Ok (items_from m t 0 (columns m)).
Proof.
  intros [Hrows Hwidth] Hnd. unfold Correlations.perform_check_correlation.
  rewrite comprehension_items; [reflexivity| |assumption|intros col _ []].
  intros k Hk. rewrite <- Hrows in Hk.
  destruct (nth_error (values m) k) as [row|] eqn:E.
  - exists (set_nth (map (fun x => ge (abs x) t) row) k false).
    unfold mask_of. simpl. rewrite E. split; [reflexivity|].
    rewrite length_set_nth, length_map.
    rewrite Forall_forall in Hwidth. apply Hwidth.
    eapply nth_error_In. exact E.
  - apply nth_error_None in E. lia.
Qed.

(** On a square matrix with distinct labels, [b] is listed for [a] exactly
    when the entry at their positions qualifies. *)
Lemma partner_iff (m : Matrix) (t : num) (a b : string) :
  square m ->
  NoDup (columns m) ->
  (partner m t a b <->
   exists i j,
     nth_error (columns m) i = Some a
     /\ nth_error (columns m) j = Some b
     /\ qualifies m t i j).
Proof.
  intros Hsq Hnd. unfold partner.
  rewrite (perform_check_correlation_items t Hsq Hnd). split.
  - intros [d [partners [[= <-] [Hget Hin]]]].
    apply get_In in Hget.
    apply In_items_from in Hget as [i [mask [Hi [Hmask [_ ->]]]]].
    apply In_mask_select in Hin as [j [Hj Htrue]].
    exists i, j. split; [exact Hi|]. split; [exact Hj|].
    simpl in Hmask. now apply (mask_of_true _ _ _ j Hmask).
  - intros [i [j [Hi [Hj Hq]]]].
    assert (Hlt : i < List.length (columns m))
      by (apply nth_error_Some; congruence).
    destruct Hsq as [Hrows _]. rewrite <- Hrows in Hlt.
    destruct (nth_error (values m) i) as [row|] eqn:E;
      [|apply nth_error_None in E; lia].
    set (mask := set_nth (map (fun x => ge (abs x) t) row) i false).
    assert (Hmask : mask_of m t i = Some mask).
    { unfold mask_of. now rewrite E. }
    assert (Htrue : nth_error mask j = Some true).
    { now apply (mask_of_true _ _ _ j Hmask). }
    exists (items_from m t 0 (columns m)),
      (Correlations.mask_select (columns m) mask).
    split; [reflexivity|]. split.
    + apply In_get; [now apply NoDup_keys_items_from|].
      apply In_items_from. exists i, mask. simpl.
      repeat split; try assumption.
      apply any_true_iff. now exists j.
    + apply In_mask_select. now exists j.
Qed.

(** X1.  On a square, symmetric correlation matrix with distinct labels
    the check is symmetric: when [b] is listed as a partner of [a], [a] is
    listed as a partner of [b]. *)
Theorem perform_check_correlation_symmetric
    (m : Matrix) (t : num) (a b : string) :
  square m ->
  NoDup (columns m) ->
  symmetric m ->
  partner m t a b ->
  partner m t b a.
Proof.
  intros Hsq Hnd Hsym H.
  apply (partner_iff t a b Hsq Hnd) in H
    as [i [j [Hi [Hj [Hne [x [Hx Hge]]]]]]].
  apply (partner_iff t b a Hsq Hnd). exists j, i.
  repeat split; try assumption; [congruence|].
  exists x. split; [|exact Hge]. now rewrite <- Hsym.
Qed.

Lemma sample_matrix_symmetric : symmetric sample_matrix.
Proof.
  intros i j. unfold entry, sample_matrix.
  destruct i as [|[|[|i]]], j as [|[|[|j]]]; cbn;
    rewrite ?nth_error_nil; reflexivity.
Qed.

Lemma perform_check_correlation_symmetric_witness :
  partner sample_matrix (Fin (9 # 10)) "a" "b"
  /\ partner sample_matrix (Fin (9 # 10)) "b" "a".
Proof.
  assert (Hsq : square sample_matrix).
  { split; [reflexivity|]. repeat constructor. }
  assert (Hnd : NoDup (columns sample_matrix)).
  { repeat constructor; simpl; intuition discriminate. }
  assert (Hab : partner sample_matrix (Fin (9 # 10)) "a" "b").
  { exists [("a", ["b"]); ("b", ["a"])], ["b"].
    split; [reflexivity|]. split; [reflexivity|]. now left. }
  split; [exact Hab|].
  exact (@perform_check_correlation_symmetric sample_matrix (Fin (9 # 10))
           "a" "b" Hsq Hnd sample_matrix_symmetric Hab).
Defined.

(** X2.  Raising the threshold never adds a partner: on a square matrix
    with distinct labels, what is listed at a threshold is listed at every
    lower one. *)
Theorem perform_check_correlation_threshold_monotone
    (m : Matrix) (low high : Q) (a b : string) :
  square m ->
  NoDup (columns m) ->
  (low <= high)%Q ->
  partner m (Fin high) a b ->
  partner m (Fin low) a b.
Proof.
  intros Hsq Hnd Hle H.
  apply (partner_iff (Fin high) a b Hsq Hnd) in H
    as [i [j [Hi [Hj [Hne [x [Hx Hge]]]]]]].
  apply (partner_iff (Fin low) a b Hsq Hnd). exists i, j.
  repeat split; try assumption.
  exists x. split; [exact Hx|].
  destruct x as [|q]; [discriminate|]. simpl in *.
  apply Qle_bool_iff. apply Qle_bool_iff in Hge.
  now apply Qle_trans with high.
Qed.

Lemma perform_check_correlation_threshold_monotone_witness :
  partner sample_matrix (Fin (9 # 10)) "a" "b"
  /\ partner sample_matrix (Fin (1 # 2)) "a" "b".
Proof.
  assert (Hsq : square sample_matrix).
  { split; [reflexivity|]. repeat constructor. }
  assert (Hnd : NoDup (columns sample_matrix)).
  { repeat constructor; simpl; intuition discriminate. }
  assert (Hab : partner sample_matrix (Fin (9 # 10)) "a" "b").
  { exists [("a", ["b"]); ("b", ["a"])], ["b"].
    split; [reflexivity|]. split; [reflexivity|]. now left. }
  split; [exact Hab|].
  apply (@perform_check_correlation_threshold_monotone sample_matrix
           (1 # 2) (9 # 10) "a" "b" Hsq Hnd); [|exact Hab].
  unfold Qle. simpl. lia.
Defined.

Lemma subseq_nil_l (A : Type) (l : list A) : subseq [] l.
Proof. induction l; constructor; assumption. Qed.

Lemma subseq_refl (A : Type) (l : list A) : subseq l l.
Proof. induction l; constructor; assumption. Qed.

Lemma subseq_app (A : Type) (l1 l2 l1' l2' : list A) :
  subseq l1 l1' -> subseq l2 l2' -> subseq (l1 ++ l2) (l1' ++ l2').
Proof.
  intros H1 H2. induction H1; simpl; [assumption| |]; now constructor.
Qed.

Lemma subseq_In (A : Type) (l1 l2 : list A) (x : A) :
  subseq l1 l2 -> In x l1 -> In x l2.
Proof.
  induction 1 as [|y l1 l2 _ IH|y l1 l2 _ IH]; simpl; intuition.
Qed.

Lemma subseq_NoDup (A : Type) (l1 l2 : list A) :
  subseq l1 l2 -> NoDup l2 -> NoDup l1.
Proof.
  induction 1 as [|y l1 l2 Hs IH|y l1 l2 Hs IH]; intros Hnd.
  - constructor.
  - inversion Hnd; subst. now apply IH.
  - inversion Hnd as [|? ? Hy Hnd']; subst. constructor; [|now apply IH].
    intros Hin. apply Hy. now apply subseq_In with (l1 := l1).
Qed.

Lemma subseq_filter (A : Type) (f : A -> bool) (l : list A) :
  subseq (filter f l) l.
Proof.
  induction l as [|x l IH]; simpl; [constructor|].
  destruct (f x); now constructor.
Qed.

Lemma subseq_mask_select cols mask :
  subseq (Correlations.mask_select cols mask) cols.
Proof.
  revert mask. induction cols as [|c cols IH]; intros mask; simpl.
  - constructor.
  - destruct mask as [|b mask]; [apply subseq_nil_l|].
    destruct b; now constructor.
Qed.

Lemma subseq_keys_items_from m t i todo :
  subseq (keys (items_from m t i todo)) todo.
Proof.
  revert i. induction todo as [|c todo IH]; intros i; simpl; [constructor|].
  unfold keys. rewrite map_app. unfold item_of.
  destruct (mask_of m t i) as [mask|]; [|simpl; constructor; apply IH].
  destruct (any mask); simpl; constructor; apply IH.
Qed.

(** X3.  On a square matrix with distinct labels the result keeps the
    matrix's column order: its keys are the flagged labels in column order
    and every partner list is in column order, without repetition. *)
Theorem perform_check_correlation_column_order (m : Matrix) (t : num) :
  square m ->
  NoDup (columns m) ->
  exists d,
    Correlations.perform_check_correlation m t = Ok d
    /\ subseq (keys d) (columns m)
    /\ forall col partners,
         get d col = Some partners ->
         subseq partners (columns m) /\ NoDup partners.
Proof.
  intros Hsq Hnd. exists (items_from m t 0 (columns m)).
  split; [now apply perform_check_correlation_items|].
  split; [apply subseq_keys_items_from|].
  intros col partners Hget. apply get_In in Hget.
  apply In_items_from in Hget as [i [mask [_ [_ [_ ->]]]]].
  split; [apply subseq_mask_select|].
  eapply subseq_NoDup; [apply subseq_mask_select|exact Hnd].
Qed.

Lemma perform_check_correlation_column_order_witness :
  exists d,
    Correlations.perform_check_correlation second_matrix (Fin (9 # 10)) = Ok d
    /\ subseq (keys d) ["a"; "b"; "c"].
Proof.
  assert (Hsq : square second_matrix).
  { split; [reflexivity|]. repeat constructor. }
  assert (Hnd : NoDup (columns second_matrix)).
  { repeat constructor; simpl; intuition discriminate. }
  destruct (@perform_check_correlation_column_order second_matrix
              (Fin (9 # 10)) Hsq Hnd) as [d [Hrun [Hkeys _]]].
  exists d. split; [exact Hrun|exact Hkeys].
Defined.

Lemma length_fill_diagonal_from i a v :
  List.length (Correlations.fill_diagonal_from i a v) = List.length a.
Proof.
  revert i. induction a as [|row a IH]; intros i; simpl; [reflexivity|].
  now rewrite IH.
Qed.

Lemma comprehension_outcome cols bool_index i todo acc :
  match Correlations.comprehension cols bool_index i todo acc with
  | Ok _ => i + List.length todo <= List.length bool_index \/ todo = []
  | Raise e => exists msg, e = IndexError msg
  end.
Proof.
  revert i acc. induction todo as [|col todo IH]; intros i acc; simpl.
  - now right.
  - destruct (nth_error bool_index i) as [mask|] eqn:E; [|eauto].
    assert (Hi : i < List.length bool_index)
      by (apply nth_error_Some; congruence).
    assert (Hnext : forall acc',
              match Correlations.comprehension cols bool_index (S i) todo acc'
              with
              | Ok _ => i + S (List.length todo) <= List.length bool_index
                        \/ col :: todo = []
              | Raise e => exists msg, e = IndexError msg
              end).
    { intros acc'. specialize (IH (S i) acc').
      destruct (Correlations.comprehension cols bool_index (S i) todo acc');
        [|exact IH].
      left. destruct IH as [IH| ->]; simpl; lia. }
    destruct (any mask); [|apply Hnext].
    unfold Correlations.index_by_mask.
    destruct (Nat.eqb (List.length mask) (List.length cols)); simpl;
      [apply Hnext|eauto].
Qed.

(** X4.  The check raises nothing but [IndexError], and it does raise it
    on a matrix that has fewer rows than column labels. *)
Theorem perform_check_correlation_index_error (m : Matrix) (t : num) :
  (forall e,
     Correlations.perform_check_correlation m t = Raise e ->
     exists msg, e = IndexError msg)
  /\ (List.length (values m) < List.length (columns m) ->
      exists msg,
        Correlations.perform_check_correlation m t = Raise (IndexError msg)).
Proof.
  unfold Correlations.perform_check_correlation.
  pose proof (comprehension_outcome (columns m)
                (Correlations.fill_diagonal
                   (Correlations.abs_ge (values m) t) false)
                0 (columns m) []) as H.
  split.
  - intros e He. rewrite He in H. exact H.
  - intros Hshort.
    destruct (Correlations.comprehension _ _ 0 (columns m) []) as [d|e].
    + exfalso. unfold Correlations.fill_diagonal, Correlations.abs_ge in H.
      rewrite length_fill_diagonal_from, length_map in H.
      destruct H as [H|H]; [simpl in H; lia|].
      rewrite H in Hshort. simpl in Hshort. lia.
    + destruct H as [msg ->]. now exists msg.
Qed.

(** Three labels over two rows. *)
Lemma perform_check_correlation_index_error_witness :
  exists msg,
    Correlations.perform_check_correlation
      {| columns := ["a"; "b"; "c"];
         values := [[Fin 1; Fin 1; Fin 1]; [Fin 1; Fin 1; Fin 1]] |}
      (Fin (9 # 10))
    = Raise (IndexError msg).
Proof.
  apply (proj2 (perform_check_correlation_index_error
                  {| columns := ["a"; "b"; "c"];
                     values := [[Fin 1; Fin 1; Fin 1];
                                [Fin 1; Fin 1; Fin 1]] |}
                  (Fin (9 # 10)))).
  simpl. lia.
Defined.

(** ** Correlation calculation, continued *)

Section CalculateFacts.

Variable A : Type.
Variable compute :
  Correlations.Correlation -> Settings -> DataFrame A -> dict Summary ->
  result (option Matrix).
Variable config : Settings.
Variable df : DataFrame A.
Variable series_description : dict Summary.

(** X5.  What [calculate_correlation] does not absorb: a name that is not
    one of the six methods raises [KeyError] before anything is called,
    and an exception of [compute] outside the five handled classes (the
    [NotImplementedError] of a class without a registered back-end, for
    one) is raised on; in both cases no warning is recorded. *)
Theorem calculate_correlation_propagates (name : string) (log : list event) :
  (get Correlations.correlation_measures name = None ->
   Correlations.calculate_correlation compute config df name
     series_description log
   = (Raise (KeyError name), log))
  /\ (forall measure e,
        get Correlations.correlation_measures name = Some measure ->
        compute measure config df series_description = Raise e ->
        Correlations.handled e = false ->
        Correlations.calculate_correlation compute config df name
          series_description log
        = (Raise e,
           log ++ [Call (Correlations.class_name measure ++ ".compute")])).
Proof.
  rewrite calculate_correlation_run. unfold outcome, events_of. split.
  - intros ->. cbn. now rewrite app_nil_r.
  - intros measure e -> -> ->. reflexivity.
Qed.

(** X6.  A matrix that [calculate_correlation] returns has rows and is the
    one [compute] returned, and a run that returns a matrix records the
    call alone, no warning. *)
Theorem calculate_correlation_returns_rows
    (name : string) (log log' : list event) (m : Matrix) :
  Correlations.calculate_correlation compute config df name
    series_description log = (Ok (Some m), log') ->
  0 < len m
  /\ exists measure,
       get Correlations.correlation_measures name = Some measure
       /\ compute measure config df series_description = Ok (Some m)
       /\ log' = log ++ [Call (Correlations.class_name measure ++ ".compute")].
Proof.
  rewrite calculate_correlation_run. unfold outcome, events_of.
  destruct (get Correlations.correlation_measures name) as [measure|];
    [|discriminate].
  destruct (compute measure config df series_description) as [[c|]|e] eqn:Ec;
    cbn [kept].
  - destruct (Nat.leb_spec (len c) 0) as [H0|Hpos]; [discriminate|].
    intros [= <- <-]. split; [exact Hpos|]. exists measure.
    repeat split. exact Ec.
  - discriminate.
  - destruct (Correlations.handled e); discriminate.
Qed.

End CalculateFacts.

Lemma calculate_correlation_propagates_witness :
  Correlations.calculate_correlation sample_compute sample_config
    small_dataset "pearsonr" [] []
  = (Raise (KeyError "pearsonr"), [])
  /\ Correlations.calculate_correlation
       (fun _ _ _ _ => Raise NotImplementedError) sample_config
       small_dataset "kendall" [] []
     = (Raise NotImplementedError, [Call "Kendall.compute"]).
Proof.
  split.
  - apply (proj1 (calculate_correlation_propagates sample_compute
                    sample_config small_dataset [] "pearsonr" [])).
    reflexivity.
  - apply (proj2 (calculate_correlation_propagates
                    (fun _ _ _ _ => Raise NotImplementedError)
                    sample_config small_dataset [] "kendall" [])
             Correlations.Kendall NotImplementedError);
      reflexivity.
Defined.

Lemma calculate_correlation_returns_rows_witness :
  0 < len sample_matrix.
Proof.
  exact (proj1 (@calculate_correlation_returns_rows nat sample_compute
                  sample_config small_dataset [] "pearson" []
                  [Call "Pearson.compute"] sample_matrix eq_refl)).
Defined.

(** ** The numeric rules *)

Lemma Qle_bool_false_iff (x y : Q) : Qle_bool x y = false <-> (y < x)%Q.
Proof.
  split.
  - intros H. apply Qnot_le_lt. intros Hle. apply Qle_bool_iff in Hle.
    congruence.
  - intros H. destruct (Qle_bool x y) eqn:E; [|reflexivity].
    apply Qle_bool_iff in E. exfalso. exact (Qlt_not_le _ _ H E).
Qed.

Lemma skewness_alert_abs (v threshold : num) :
  Alerts.skewness_alert v threshold = gt (abs v) threshold.
Proof.
  unfold Alerts.skewness_alert.
  destruct v as [|q], threshold as [|r]; cbn; try reflexivity.
  destruct (Qle_bool (Qabs q) r) eqn:E; cbn.
  - apply Qle_bool_iff in E. apply Qabs_Qle_condition in E as [E1 E2].
    apply orb_false_iff. split; apply negb_false_iff; apply Qle_bool_iff.
    + setoid_replace ((-1 # 1) * r)%Q with (- r)%Q by ring. exact E1.
    + exact E2.
  - apply Qle_bool_false_iff in E. apply orb_true_iff.
    destruct (Qlt_le_dec q (- r)) as [Hlow|Hlow].
    + left. apply negb_true_iff. apply Qle_bool_false_iff.
      setoid_replace ((-1 # 1) * r)%Q with (- r)%Q by ring. exact Hlow.
    + right. apply negb_true_iff. apply Qle_bool_false_iff.
      apply Qnot_le_lt. intros Hhigh.
      apply (Qlt_not_le _ _ E). apply Qabs_Qle_condition. now split.
Qed.

(** X7.  The two-sided test of [skewness_alert] is a test of the
    magnitude: it holds exactly when [|v| > threshold], for every value
    and threshold, [nan] on either side giving [False]; so it is the same
    for [v] and [-v]. *)
Theorem skewness_alert_magnitude (v threshold : num) :
  Alerts.skewness_alert v threshold = gt (abs v) threshold
  /\ Alerts.skewness_alert (neg v) threshold
     = Alerts.skewness_alert v threshold.
Proof.
  split; [apply skewness_alert_abs|].
  rewrite !skewness_alert_abs.
  destruct v as [|q]; [reflexivity|].
  destruct threshold as [|r]; [reflexivity|].
  unfold gt, abs, neg. f_equal.
  destruct (Qle_bool (Qabs q) r) eqn:E.
  - apply Qle_bool_iff. apply Qle_bool_iff in E. now rewrite Qabs_opp.
  - apply Qle_bool_false_iff. apply Qle_bool_false_iff in E.
    now rewrite Qabs_opp.
Qed.

Lemma chi_squared_above_complete summary threshold :
  chi_squared_complete summary ->
  Alerts.chi_squared_above summary threshold
  = Ok (uniform_above summary threshold).
Proof.
  intros H. unfold Alerts.chi_squared_above, uniform_above.
  destruct (chi_squared summary) as [chi|] eqn:E; [|reflexivity].
  specialize (H chi E). destruct (pvalue chi); [reflexivity|congruence].
Qed.

(** X8.  The numeric rules on a summary that has the three numeric
    entries: [SKEWED] exactly when [|skewness| > threshold], [INFINITE] and
    [ZEROS] exactly when the proportion is a number above 0.01, [UNIFORM]
    exactly when there is a chi-squared result whose p-value is above the
    threshold.  The time-series rules return the same alerts followed by
    [NON_STATIONARY] exactly when [stationary] is false and [SEASONAL]
    exactly when [seasonal] is true. *)
Theorem numeric_alerts_rules
    (config : Settings) (summary : Summary) (skew infinite zeros : num) :
  skewness summary = Some skew ->
  p_infinite summary = Some infinite ->
  p_zeros summary = Some zeros ->
  chi_squared_complete summary ->
  exists alerts,
    Alerts.numeric_alerts config summary = Ok alerts
    /\ emits Alerts.SKEWED alerts
       = gt (abs skew) (vars_num_skewness_threshold config)
    /\ emits Alerts.INFINITE alerts = Alerts.alert_value infinite
    /\ emits Alerts.ZEROS alerts = Alerts.alert_value zeros
    /\ emits Alerts.UNIFORM alerts
       = uniform_above summary (vars_num_chi_squared_threshold config)
    /\ forall still season,
         stationary summary = Some still ->
         seasonal summary = Some season ->
         exists more,
           Alerts.timeseries_alerts config summary = Ok (alerts ++ more)
           /\ emits Alerts.NON_STATIONARY (alerts ++ more) = negb still
           /\ emits Alerts.SEASONAL (alerts ++ more) = season
           /\ emits_only [Alerts.NON_STATIONARY; Alerts.SEASONAL] more.
Proof.
  intros Hs Hi Hz Hchi.
  assert (Hrun : exists alerts,
             Alerts.numeric_alerts config summary = Ok alerts
             /\ alerts
                = Alerts.append_if
                    (uniform_above summary
                       (vars_num_chi_squared_threshold config))
                    (Alerts.append_if (Alerts.alert_value zeros)
                       (Alerts.append_if (Alerts.alert_value infinite)
                          (Alerts.append_if
                             (Alerts.skewness_alert skew
                                (vars_num_skewness_threshold config))
                             []
                             (Alerts.SkewedAlert
                                (Some (Alerts.SummaryValues summary)) None))
                          (Alerts.InfiniteAlert
                             (Some (Alerts.SummaryValues summary)) None))
                       (Alerts.ZerosAlert
                          (Some (Alerts.SummaryValues summary)) None))
                    (Alerts.UniformAlert None None)).
  { unfold Alerts.numeric_alerts. rewrite Hs, Hi, Hz. cbn [field bind].
    rewrite (chi_squared_above_complete _ Hchi). cbn [bind].
    eexists. split; reflexivity. }
  destruct Hrun as [alerts [Hrun Halerts]].
  assert (Honly : emits_only
                    [Alerts.SKEWED; Alerts.INFINITE; Alerts.ZEROS;
                     Alerts.UNIFORM] alerts)
    by now apply numeric_alerts_types with (config := config)
                                            (summary := summary).
  exists alerts. split; [exact Hrun|].
  split; [|split; [|split; [|split]]].
  - rewrite Halerts, !emits_append_if. cbn.
    rewrite ?andb_false_r, ?andb_true_r, ?orb_false_r.
    apply skewness_alert_abs.
  - rewrite Halerts, !emits_append_if. cbn.
    now rewrite ?andb_false_r, ?andb_true_r, ?orb_false_r.
  - rewrite Halerts, !emits_append_if. cbn.
    now rewrite ?andb_false_r, ?andb_true_r, ?orb_false_r.
  - rewrite Halerts, !emits_append_if. cbn.
    now rewrite ?andb_false_r, ?andb_true_r, ?orb_false_r.
  - intros still season Hst Hse.
    exists (Alerts.append_if season
              (Alerts.append_if (negb still) []
                 (Alerts.NonStationaryAlert None None))
              (Alerts.SeasonalAlert None None)).
    split; [|split; [|split]].
    + unfold Alerts.timeseries_alerts. rewrite Hrun. cbn [bind].
      rewrite Hst, Hse. cbn [field bind]. f_equal.
      unfold Alerts.append_if. destruct (negb still), season;
        now rewrite <- ?app_assoc, ?app_nil_r.
    + rewrite emits_app, (emits_only_not Alerts.NON_STATIONARY Honly)
        by (simpl; intuition discriminate).
      rewrite !emits_append_if. cbn.
      now rewrite ?andb_false_r, ?andb_true_r, ?orb_false_r.
    + rewrite emits_app, (emits_only_not Alerts.SEASONAL Honly)
        by (simpl; intuition discriminate).
      rewrite !emits_append_if. cbn.
      now rewrite ?andb_false_r, ?andb_true_r, ?orb_false_r.
    + rule_types.
Qed.

Lemma numeric_alerts_rules_witness :
  exists alerts more,
    Alerts.numeric_alerts sample_config timeseries_summary = Ok alerts
    /\ emits Alerts.SKEWED alerts = true
    /\ emits Alerts.ZEROS alerts = true
    /\ Alerts.timeseries_alerts sample_config timeseries_summary
       = Ok (alerts ++ more)
    /\ emits Alerts.NON_STATIONARY (alerts ++ more) = true
    /\ emits Alerts.SEASONAL (alerts ++ more) = true.
Proof.
  assert (Hchi : chi_squared_complete timeseries_summary).
  { intros chi [=]. }
  destruct (@numeric_alerts_rules sample_config timeseries_summary
              (Fin (-25 # 1)) (Fin 0) (Fin (2 # 10))
              eq_refl eq_refl eq_refl Hchi)
    as [alerts [Hrun [Hskew [_ [Hzeros [_ Hts]]]]]].
  destruct (Hts false true eq_refl eq_refl) as [more [Hrun' [Hns [Hse _]]]].
  exists alerts, more.
  split; [exact Hrun|]. split; [exact Hskew|]. split; [exact Hzeros|].
  split; [exact Hrun'|]. split; [exact Hns|exact Hse].
Defined.

(** X9.  The categorical rules beside the length rule, on a summary whose
    present optional entries are complete: [HIGH_CARDINALITY] exactly when
    [n_distinct] is there and above the threshold, [UNIFORM] exactly when
    there is a chi-squared p-value above the threshold, [TYPE_DATE]
    exactly when [date_warning] is there and true, [IMBALANCE] exactly
    when [imbalance] is there and above the threshold.  The boolean rules
    never raise and return the one [IMBALANCE] alert or nothing. *)
Theorem categorical_alerts_rules (config : Settings) (summary : Summary) :
  chi_squared_complete summary ->
  (composition summary <> None ->
   min_length summary <> None /\ max_length summary <> None) ->
  (exists alerts,
     Alerts.categorical_alerts config summary = Ok alerts
     /\ emits Alerts.HIGH_CARDINALITY alerts
        = gt (Alerts.get_nan (n_distinct summary))
             (vars_cat_cardinality_threshold config)
     /\ emits Alerts.UNIFORM alerts
        = uniform_above summary (vars_cat_chi_squared_threshold config)
     /\ emits Alerts.TYPE_DATE alerts
        = match date_warning summary with Some b => b | None => false end
     /\ emits Alerts.IMBALANCE alerts
        = Alerts.imbalance_above summary (vars_cat_imbalance_threshold config))
  /\ Alerts.boolean_alerts config summary
     = Ok (if Alerts.imbalance_above summary
                (vars_bool_imbalance_threshold config)
           then [Alerts.ImbalanceAlert None None]
           else []).
Proof.
  intros Hchi Hlen. split.
  - unfold Alerts.categorical_alerts.
    rewrite (chi_squared_above_complete _ Hchi). cbn [bind].
    assert (Hcl : exists b,
              match composition summary with
              | Some _ =>
                  min_length <- field "min_length" (min_length summary) ;;
                  max_length <- field "max_length" (max_length summary) ;;
                  Ok (eq min_length max_length)
              | None => Ok false
              end = Ok b).
    { destruct (composition summary); [|now exists false].
      destruct Hlen as [Hmin Hmax]; [discriminate|].
      destruct (min_length summary); [|congruence].
      destruct (max_length summary); [|congruence].
      cbn. eexists. reflexivity. }
    destruct Hcl as [b ->]. cbn [bind]. eexists. split; [reflexivity|].
    repeat split; rewrite !emits_append_if; cbn;
      now rewrite ?andb_false_r, ?andb_true_r, ?orb_false_r.
  - unfold Alerts.boolean_alerts, Alerts.append_if.
    now destruct (Alerts.imbalance_above _ _).
Qed.

Lemma categorical_alerts_rules_witness :
  (exists alerts,
     Alerts.categorical_alerts sample_config categorical_summary = Ok alerts
     /\ emits Alerts.HIGH_CARDINALITY alerts = true
     /\ emits Alerts.TYPE_DATE alerts = true)
  /\ Alerts.boolean_alerts sample_config boolean_summary
     = Ok [Alerts.ImbalanceAlert None None].
Proof.
  assert (Hchi : chi_squared_complete categorical_summary).
  { intros chi [= <-]. discriminate. }
  assert (Hlen : composition categorical_summary <> None ->
                 min_length categorical_summary <> None
                 /\ max_length categorical_summary <> None).
  { intros _. split; discriminate. }
  destruct (@categorical_alerts_rules sample_config categorical_summary
              Hchi Hlen) as [[alerts [Hrun [Hhc [_ [Htd _]]]]] _].
  split.
  - exists alerts. split; [exact Hrun|]. split; [exact Hhc|exact Htd].
  - assert (Hchi' : chi_squared_complete boolean_summary).
    { intros chi [=]. }
    assert (Hlen' : composition boolean_summary <> None ->
                    min_length boolean_summary <> None
                    /\ max_length boolean_summary <> None).
    { intros H. now elim H. }
    exact (proj2 (@categorical_alerts_rules sample_config boolean_summary
                    Hchi' Hlen')).
Defined.

(** ** The alerts of one column *)

Lemma types_append_if cond alerts alert :
  types (Alerts.append_if cond alerts alert)
  = types alerts ++ (if cond then [Alerts.alert_type alert] else []).
Proof.
  unfold types, Alerts.append_if. destruct cond.
  - now rewrite map_app.
  - now rewrite app_nil_r.
Qed.

Ltac subseq_greedy :=
  repeat first
    [ apply subseq_nil | apply subseq_keep | apply subseq_skip ].

Ltac rule_order :=
  rewrite ?types_append_if; cbn;
  repeat match goal with
         | |- context [if ?c then _ else _] => destruct c
         end;
  cbn; subseq_greedy.

Lemma numeric_alerts_order config summary alerts :
  Alerts.numeric_alerts config summary = Ok alerts ->
  subseq (types alerts)
    [Alerts.SKEWED; Alerts.INFINITE; Alerts.ZEROS; Alerts.UNIFORM].
Proof.
  unfold Alerts.numeric_alerts.
  destruct (skewness summary); cbn [field bind]; [|discriminate].
  destruct (p_infinite summary); cbn [field bind]; [|discriminate].
  destruct (p_zeros summary); cbn [field bind]; [|discriminate].
  destruct (Alerts.chi_squared_above _ _); cbn [bind]; [|discriminate].
  intros [= <-]. rule_order.
Qed.

Lemma timeseries_alerts_order config summary alerts :
  Alerts.timeseries_alerts config summary = Ok alerts ->
  subseq (types alerts)
    [Alerts.SKEWED; Alerts.INFINITE; Alerts.ZEROS; Alerts.UNIFORM;
     Alerts.NON_STATIONARY; Alerts.SEASONAL].
Proof.
  unfold Alerts.timeseries_alerts.
  destruct (Alerts.numeric_alerts config summary) as [numeric|] eqn:E;
    cbn [bind]; [|discriminate].
  apply numeric_alerts_order in E.
  destruct (stationary summary); cbn [field bind]; [|discriminate].
  destruct (seasonal summary); cbn [field bind]; [|discriminate].
  intros [= <-]. rewrite !types_append_if, <- app_assoc.
  apply (subseq_app E
           (l2' := [Alerts.NON_STATIONARY; Alerts.SEASONAL])).
  cbn. repeat match goal with
              | |- context [if ?c then _ else _] => destruct c
              end; cbn; subseq_greedy.
Qed.

Lemma categorical_alerts_order config summary alerts :
  Alerts.categorical_alerts config summary = Ok alerts ->
  subseq (types alerts)
    [Alerts.HIGH_CARDINALITY; Alerts.UNIFORM; Alerts.TYPE_DATE;
     Alerts.CONSTANT_LENGTH; Alerts.IMBALANCE].
Proof.
  unfold Alerts.categorical_alerts.
  destruct (Alerts.chi_squared_above _ _); cbn [bind]; [|discriminate].
  match goal with
  | |- (x <- ?test ;; _) = _ -> _ => destruct test
  end; cbn [bind]; [|discriminate].
  intros [= <-]. rewrite !types_append_if. cbn [types map app].
  generalize (gt (Alerts.get_nan (n_distinct summary))
                (vars_cat_cardinality_threshold config)).
  generalize (match date_warning summary with
              | Some b => b
              | None => false
              end).
  generalize (Alerts.imbalance_above summary
                (vars_cat_imbalance_threshold config)).
  intros c1 c2 c3. destruct c1, c2, c3, a, a0; cbn; subseq_greedy.
Qed.

Lemma boolean_alerts_order config summary alerts :
  Alerts.boolean_alerts config summary = Ok alerts ->
  subseq (types alerts) [Alerts.IMBALANCE].
Proof.
  unfold Alerts.boolean_alerts. intros [= <-]. rewrite types_append_if.
  destruct (Alerts.imbalance_above _ _); cbn; subseq_greedy.
Qed.

Lemma generic_alerts_order summary alerts :
  Alerts.generic_alerts summary = Ok alerts ->
  subseq (types alerts) [Alerts.MISSING].
Proof.
  unfold Alerts.generic_alerts.
  destruct (p_missing summary); cbn [field bind]; [|discriminate].
  intros [= <-]. rewrite types_append_if.
  destruct (Alerts.alert_value _); cbn; subseq_greedy.
Qed.

Lemma supported_alerts_order summary alerts :
  Alerts.supported_alerts summary = Ok alerts ->
  subseq (types alerts) [Alerts.UNIQUE; Alerts.CONSTANT].
Proof.
  unfold Alerts.supported_alerts.
  destruct (n summary); cbn [field bind]; [|discriminate].
  intros [= <-]. rewrite !types_append_if. cbn [types map app].
  destruct (eq _ _), (eq _ _); cbn; subseq_greedy.
Qed.

Lemma extend_if_order order cond alerts rules extended :
  (forall more, rules = Ok more -> subseq (types more) order) ->
  Alerts.extend_if cond alerts rules = Ok extended ->
  exists more,
    extended = alerts ++ more
    /\ subseq (types more) (if cond then order else []).
Proof.
  intros Hrules. unfold Alerts.extend_if. destruct cond.
  - destruct rules as [more|]; cbn [bind]; [|discriminate].
    intros [= <-]. exists more. split; [reflexivity|]. now apply Hrules.
  - intros [= <-]. exists []. split; [now rewrite app_nil_r|constructor].
Qed.

Lemma types_assigned col summary alerts :
  types (map (fun a => Alerts.assign a col summary) alerts) = types alerts.
Proof. unfold types. rewrite map_map. reflexivity. Qed.

Lemma NoDup_rule_order (type : string) : NoDup (rule_order type).
Proof.
  unfold rule_order.
  destruct (String.eqb_spec type "Unsupported") as [->|_];
    [cbn; repeat constructor; simpl; intuition discriminate|].
  destruct (String.eqb_spec type "Categorical") as [->|_];
    [cbn; repeat constructor; simpl; intuition discriminate|].
  destruct (String.eqb_spec type "Numeric") as [->|_];
    [cbn; repeat constructor; simpl; intuition discriminate|].
  destruct (String.eqb_spec type "TimeSeries") as [->|_];
    [cbn; repeat constructor; simpl; intuition discriminate|].
  destruct (String.eqb type "Boolean");
    cbn; repeat constructor; simpl; intuition discriminate.
Qed.

(** The types of a column's alerts are, in order, among the types of
    the rules of its column type. *)
Lemma check_variable_alerts_subseq config col type summary alerts :
  Alerts.check_variable_alerts config col summary = Ok alerts ->
  type_ summary = Some type ->
  subseq (types alerts) (rule_order type).
Proof.
  intros Hrun Htype. revert Hrun. unfold Alerts.check_variable_alerts.
  destruct (Alerts.generic_alerts summary) as [generic|] eqn:Eg;
    cbn [bind]; [|discriminate].
  apply generic_alerts_order in Eg.
  rewrite Htype. cbn [field bind]. unfold rule_order.
  destruct (String.eqb type "Unsupported").
  - cbn [bind]. intros [= <-]. rewrite backfill_map, types_assigned.
    unfold types. rewrite map_app.
    apply subseq_app; [exact Eg|]. cbn. subseq_greedy.
  - destruct (Alerts.supported_alerts summary) as [supported|] eqn:Es;
      cbn [bind]; [|discriminate].
    apply supported_alerts_order in Es.
    destruct (Alerts.extend_if (String.eqb type "Categorical") _ _)
      as [a0|] eqn:E0; cbn [bind]; [|discriminate].
    apply extend_if_order
      with (order := [Alerts.HIGH_CARDINALITY; Alerts.UNIFORM;
                      Alerts.TYPE_DATE; Alerts.CONSTANT_LENGTH;
                      Alerts.IMBALANCE]) in E0;
      [|intros more; apply categorical_alerts_order].
    destruct E0 as [m0 [-> H0]].
    destruct (Alerts.extend_if (String.eqb type "Numeric") _ _)
      as [a1|] eqn:E1; cbn [bind]; [|discriminate].
    apply extend_if_order
      with (order := [Alerts.SKEWED; Alerts.INFINITE; Alerts.ZEROS;
                      Alerts.UNIFORM]) in E1;
      [|intros more; apply numeric_alerts_order].
    destruct E1 as [m1 [-> H1]].
    destruct (Alerts.extend_if (String.eqb type "TimeSeries") _ _)
      as [a2|] eqn:E2; cbn [bind]; [|discriminate].
    apply extend_if_order
      with (order := [Alerts.SKEWED; Alerts.INFINITE; Alerts.ZEROS;
                      Alerts.UNIFORM; Alerts.NON_STATIONARY;
                      Alerts.SEASONAL]) in E2;
      [|intros more; apply timeseries_alerts_order].
    destruct E2 as [m2 [-> H2]].
    destruct (Alerts.extend_if (String.eqb type "Boolean") _ _)
      as [a3|] eqn:E3; cbn [bind]; [|discriminate].
    apply extend_if_order with (order := [Alerts.IMBALANCE]) in E3;
      [|intros more; apply boolean_alerts_order].
    destruct E3 as [m3 [-> H3]].
    intros [= <-]. rewrite backfill_map, types_assigned.
    unfold types in *. rewrite !map_app, <- !app_assoc.
    apply subseq_app; [exact Eg|].
    apply subseq_app; [exact Es|].
    apply subseq_app; [exact H0|].
    apply subseq_app; [exact H1|].
    apply subseq_app; [exact H2|exact H3].
Qed.

(** X10.  The alerts of one column follow the order of the rules and hold
    no type twice: their types are, in order, among [MISSING], then
    [UNSUPPORTED] and [REJECTED] for an unsupported column, and otherwise
    [UNIQUE], [CONSTANT] and the types of the rules of the column's own
    type.  So a type-specific alert never shows on a column of another
    type, and a column whose type has no rules of its own gets at most
    [MISSING], [UNIQUE] and [CONSTANT]. *)
Theorem check_variable_alerts_rule_order
    (config : Settings) (col type : string) (summary : Summary)
    (alerts : list Alerts.Alert) :
  Alerts.check_variable_alerts config col summary = Ok alerts ->
  type_ summary = Some type ->
  subseq (types alerts) (rule_order type)
  /\ NoDup (types alerts)
  /\ (forall t, emits t alerts = true -> In t (rule_order type)).
Proof.
  intros Hrun Htype.
  assert (Horder : subseq (types alerts) (rule_order type))
    by (eapply check_variable_alerts_subseq; eassumption).
  split; [exact Horder|]. split.
  - eapply subseq_NoDup; [exact Horder|apply NoDup_rule_order].
  - intros t Ht. apply subseq_In with (l1 := types alerts); [exact Horder|].
    unfold emits in Ht. apply existsb_exists in Ht as [a [Ha Hta]].
    unfold of_type in Hta. apply AlertType_eqb_eq in Hta. subst t.
    unfold types. now apply in_map.
Qed.

Lemma check_variable_alerts_rule_order_witness :
  exists alerts,
    Alerts.check_variable_alerts sample_config "ts" timeseries_summary
    = Ok alerts
    /\ types alerts
       = [Alerts.SKEWED; Alerts.ZEROS; Alerts.NON_STATIONARY; Alerts.SEASONAL]
    /\ NoDup (types alerts).
Proof.
  eexists. split; [vm_compute; reflexivity|]. split; [reflexivity|].
  exact (proj1 (proj2 (@check_variable_alerts_rule_order sample_config "ts"
                         "TimeSeries" timeseries_summary _ eq_refl eq_refl))).
Defined.

(** X11.  What [check_variable_alerts] reads and when it fails.  Without
    [p_missing] it raises [KeyError] whatever the type; with it and
    without [type] it raises [KeyError] for the type.  For an unsupported
    column nothing else is read: the result is the [MISSING] alert, if
    any, then [UNSUPPORTED] and [REJECTED], even when the summary has no
    [n].  For any other type a summary without [n] raises [KeyError]. *)
Theorem check_variable_alerts_reads
    (config : Settings) (col : string) (summary : Summary) :
  (p_missing summary = None ->
   Alerts.check_variable_alerts config col summary
   = Raise (KeyError "p_missing"))
  /\ (p_missing summary <> None ->
      type_ summary = None ->
      Alerts.check_variable_alerts config col summary
      = Raise (KeyError "type"))
  /\ (forall p,
        p_missing summary = Some p ->
        type_ summary = Some "Unsupported" ->
        Alerts.check_variable_alerts config col summary
        = Ok (map (fun a => Alerts.assign a col summary)
                ((if Alerts.alert_value p
                  then [Alerts.MissingAlert None None]
                  else [])
                 ++ [Alerts.UnsupportedAlert None None;
                     Alerts.RejectedAlert None None])))
  /\ (forall type,
        p_missing summary <> None ->
        type_ summary = Some type ->
        type <> "Unsupported" ->
        n summary = None ->
        Alerts.check_variable_alerts config col summary
        = Raise (KeyError "n")).
Proof.
  unfold Alerts.check_variable_alerts, Alerts.generic_alerts.
  split; [|split; [|split]].
  - intros ->. reflexivity.
  - intros Hp ->. destruct (p_missing summary); [reflexivity|congruence].
  - intros p -> ->. cbn [field bind String.eqb Ascii.eqb Bool.eqb].
    cbn [bind]. rewrite backfill_map. unfold Alerts.append_if.
    destruct (Alerts.alert_value p); reflexivity.
  - intros type Hp -> Hu Hn. unfold Alerts.supported_alerts. rewrite Hn.
    destruct (p_missing summary); [|congruence]. cbn [field bind].
    destruct (String.eqb_spec type "Unsupported"); [contradiction|].
    reflexivity.
Qed.

Lemma check_variable_alerts_reads_witness :
  n (summary_with_p_missing (Fin 0)) = None
  /\ Alerts.check_variable_alerts sample_config "y"
       (summary_with_p_missing (Fin 0))
     = Ok (map (fun a => Alerts.assign a "y" (summary_with_p_missing (Fin 0)))
             [Alerts.UnsupportedAlert None None;
              Alerts.RejectedAlert None None]).
Proof.
  split; [reflexivity|].
  exact (proj1 (proj2 (proj2 (check_variable_alerts_reads sample_config "y"
                                (summary_with_p_missing (Fin 0)))))
           (Fin 0) eq_refl eq_refl).
Defined.

(** X12.  The table rules.  [check_table_alerts] fails only on table
    statistics without [n], with a [KeyError]; statistics without
    [n_duplicates] are read as no duplicates.  Otherwise it returns, in
    this order, a [DUPLICATES] alert exactly when [n_duplicates] is a
    number above 0.01 and an [EMPTY] alert exactly when [n] is 0, each at
    most once, both carrying the table statistics and no column. *)
Theorem check_table_alerts_rules (table : TableStats) :
  match Alerts.check_table_alerts table with
  | Ok alerts =>
      exists rows,
        table_n table = Some rows
        /\ emits Alerts.DUPLICATES alerts
           = Alerts.alert_value (Alerts.get_nan (table_n_duplicates table))
        /\ (table_n_duplicates table = None ->
            emits Alerts.DUPLICATES alerts = false)
        /\ emits Alerts.EMPTY alerts = eq rows (Fin 0)
        /\ subseq (types alerts) [Alerts.DUPLICATES; Alerts.EMPTY]
        /\ Forall
             (fun a =>
                Alerts.column_name a = None
                /\ Alerts.alert_values a = Alerts.TableValues table)
             alerts
  | Raise e => table_n table = None /\ e = KeyError "n"
  end.
Proof.
  unfold Alerts.check_table_alerts.
  destruct (table_n table) as [rows|]; cbn [field bind]; [|now split].
  exists rows. split; [reflexivity|].
  assert (Hnone : table_n_duplicates table = None ->
                  Alerts.alert_value (Alerts.get_nan (table_n_duplicates table))
                  = false) by (now intros ->).
  unfold Alerts.append_if.
  destruct (Alerts.alert_value (Alerts.get_nan (table_n_duplicates table)));
    destruct (eq rows (Fin 0)); cbn;
    (split; [reflexivity|]); (split; [first [exact Hnone|reflexivity]|]);
    (split; [reflexivity|]); (split; [|repeat constructor]);
    unfold types; cbn; subseq_greedy.
Qed.

(** ** The correlation alerts, continued *)

Lemma In_setitem (V : Type) (d : dict V) k v k' v' :
  In (k', v') (setitem d k v) -> (k', v') = (k, v) \/ In (k', v') d.
Proof.
  induction d as [|[k0 v0] d IH]; simpl.
  - intros [H|[]]. now left.
  - destruct (String.eqb_spec k0 k) as [->|Hk]; simpl.
    + intros [H|H]; [now left|right; now right].
    + intros [H|H]; [right; now left|].
      destruct (IH H) as [H'|H']; [now left|right; now right].
Qed.

Lemma mask_select_nonempty cols mask :
  any mask = true ->
  List.length mask = List.length cols ->
  Correlations.mask_select cols mask <> [].
Proof.
  intros Ha Hlen. apply any_true_iff in Ha as [j Hj].
  assert (Hlt : j < List.length cols).
  { rewrite <- Hlen. apply nth_error_Some. congruence. }
  destruct (nth_error cols j) as [p|] eqn:Ep.
  - assert (Hin : In p (Correlations.mask_select cols mask))
      by (apply In_mask_select; eauto).
    intros E. rewrite E in Hin. destruct Hin.
  - apply nth_error_None in Ep. lia.
Qed.

Lemma comprehension_dict cols bool_index i todo acc d :
  Correlations.comprehension cols bool_index i todo acc = Ok d ->
  NoDup (keys acc) ->
  (forall k v, In (k, v) acc -> v <> []) ->
  NoDup (keys d) /\ (forall k v, In (k, v) d -> v <> []).
Proof.
  revert i acc. induction todo as [|col todo IH]; intros i acc; simpl.
  - intros [= <-]. now split.
  - destruct (nth_error bool_index i) as [mask|]; [|discriminate].
    destruct (any mask) eqn:Ea; [|apply IH].
    unfold Correlations.index_by_mask.
    destruct (Nat.eqb_spec (List.length mask) (List.length cols)) as [Hl|Hl];
      cbn [bind]; [|discriminate].
    intros H Hnd Hne. apply IH in H; [exact H| |].
    + now apply NoDup_keys_setitem.
    + intros k v Hin. apply In_setitem in Hin as [[= -> ->]|Hin].
      * now apply mask_select_nonempty.
      * eapply Hne. exact Hin.
Qed.

Lemma perform_check_correlation_dict m t d :
  Correlations.perform_check_correlation m t = Ok d ->
  NoDup (keys d) /\ (forall k v, In (k, v) d -> v <> []).
Proof.
  intros H. apply comprehension_dict in H; [exact H|constructor|].
  intros k v [].
Qed.

Lemma get_consolidate_mapping items mapping acc col :
  NoDup (keys items) ->
  get (Alerts.consolidate_mapping items mapping acc) col
  = match get items col with
    | Some fields => Some fields
    | None => get acc col
    end.
Proof.
  revert acc. induction items as [|[c f] items IH]; intros acc Hnd.
  - reflexivity.
  - inversion Hnd as [|? ? Hc Hnd']; subst. cbn [Alerts.consolidate_mapping].
    rewrite IH by assumption. cbn [get].
    destruct (String.eqb_spec c col) as [->|Hne].
    + apply get_None_iff in Hc. rewrite Hc, get_setitem, String.eqb_refl.
      reflexivity.
    + rewrite get_setitem. apply String.eqb_neq in Hne. now rewrite Hne.
Qed.

Lemma flags_fun config item col fields settings mapping :
  get (correlations config) (fst item) = Some settings ->
  warn_high_correlations settings = true ->
  Correlations.perform_check_correlation (snd item) (threshold settings)
  = Ok mapping ->
  flags config item col fields <-> get mapping col = Some fields.
Proof.
  intros Hs Hw Hm. split.
  - intros [s [m [Hs' [_ [Hm' Hg]]]]]. congruence.
  - intros Hg. exists settings, mapping. auto.
Qed.

Lemma flags_disabled config item col fields settings :
  get (correlations config) (fst item) = Some settings ->
  warn_high_correlations settings = false ->
  ~ flags config item col fields.
Proof. intros Hs Hw [s [m [Hs' [Hw' _]]]]. congruence. Qed.

Lemma last_flags_cons config item items col fields :
  last_flags config (item :: items) col fields
  <-> last_flags config items col fields
      \/ flags config item col fields
         /\ forall item' fields',
              In item' items -> ~ flags config item' col fields'.
Proof.
  split.
  - intros [before [it [after [E [Hf Hs]]]]]. destruct before as [|b before].
    + injection E as <- <-. right. now split.
    + injection E as <- ->. left. exists before, it, after. auto.
  - intros [[before [it [after [-> [Hf Hs]]]]]|[Hf Hs]].
    + exists (item :: before), it, after. auto.
    + exists [], item, items. auto.
Qed.

Lemma consolidate_get config items acc d col fields :
  Alerts.consolidate config items acc = Ok d ->
  get d col = Some fields
  <-> last_flags config items col fields
      \/ get acc col = Some fields
         /\ forall item' fields',
              In item' items -> ~ flags config item' col fields'.
Proof.
  revert acc. induction items as [|[corr matrix] items IH]; intros acc.
  - simpl. intros [= <-]. split.
    + intros H. right. split; [exact H|intros ? ? []].
    + intros [[before [it [after [E _]]]]|[H _]]; [|exact H].
      now destruct before.
  - cbn [Alerts.consolidate]. unfold getitem.
    destruct (get (correlations config) corr) as [settings|] eqn:Es;
      cbn [bind]; [|discriminate].
    rewrite last_flags_cons.
    destruct (warn_high_correlations settings) eqn:Ew.
    + destruct (Correlations.perform_check_correlation matrix
                  (threshold settings)) as [mapping|] eqn:Em;
        cbn [bind]; [|discriminate].
      intros H. rewrite (IH _ H).
      rewrite get_consolidate_mapping
        by (now apply perform_check_correlation_dict in Em).
      pose proof (fun f => @flags_fun config (corr, matrix) col f _ _
                             Es Ew Em) as Hflags.
      split.
      * intros [Hl|[Hg Hs]]; [now left; left|].
        destruct (get mapping col) as [f|] eqn:Eg.
        -- left. right. split; [|exact Hs]. apply Hflags. congruence.
        -- right. split; [exact Hg|]. intros it f [<-|Hin].
           ++ rewrite Hflags. congruence.
           ++ now apply Hs.
      * intros [[Hl|[Hf Hs]]|[Hg Hs]].
        -- now left.
        -- right. apply Hflags in Hf. rewrite Hf. now split.
        -- right. split.
           ++ destruct (get mapping col) as [f|] eqn:Eg; [|exact Hg].
              exfalso. apply (Hs (corr, matrix) f); [now left|].
              now apply Hflags.
           ++ intros it f Hin. apply Hs. now right.
    + intros H. rewrite (IH _ H). split.
      * intros [Hl|[Hg Hs]]; [now left; left|].
        right. split; [exact Hg|]. intros it f [<-|Hin].
        -- now apply (@flags_disabled config (corr, matrix) col f _ Es).
        -- now apply Hs.
      * intros [[Hl|[Hf Hs]]|[Hg Hs]].
        -- now left.
        -- exfalso.
           now apply (@flags_disabled config (corr, matrix) col fields _
                        Es Ew) in Hf.
        -- right. split; [exact Hg|]. intros it f Hin. apply Hs. now right.
Qed.

(** X13.  Which correlation alerts there are.  When
    [check_correlation_alerts] returns, it has an alert for a column with
    a partner list exactly when some method with [warn_high_correlations]
    flags the column, and the list is the one of the last such method in
    the order of [correlations]; methods without the setting contribute
    nothing.  Every alert is of this form and its partner list is not
    empty. *)
Theorem check_correlation_alerts_last_flags
    (config : Settings) (correlations : dict Matrix)
    (alerts : list Alerts.Alert) :
  Alerts.check_correlation_alerts config correlations = Ok alerts ->
  (forall col fields,
     In (correlation_alert col fields) alerts
     <-> last_flags config correlations col fields)
  /\ Forall
       (fun a =>
          exists col fields,
            a = correlation_alert col fields /\ fields <> [])
       alerts.
Proof.
  unfold Alerts.check_correlation_alerts.
  destruct (Alerts.consolidate config correlations []) as [d|] eqn:E;
    cbn [bind]; [|discriminate].
  intros [= <-].
  assert (Hnd : NoDup (keys d))
    by (eapply consolidate_NoDup; [|exact E]; constructor).
  assert (Halerts :
            (if Nat.ltb 0 (List.length d)
             then map (fun item : string * list string =>
                               Alerts.HighCorrelationAlert
                                 (Some (Alerts.CorrelationValues "overall"
                                          (snd item)))
                                 (Some (fst item))) d
             else [])
            = map (fun item => correlation_alert (fst item) (snd item)) d).
  { destruct d; reflexivity. }
  rewrite Halerts. clear Halerts.
  assert (Hin : forall col fields,
            In (correlation_alert col fields)
               (map (fun item => correlation_alert (fst item) (snd item)) d)
            <-> get d col = Some fields).
  { intros col fields. rewrite in_map_iff. split.
    - intros [[c f] [Heq Hin]]. injection Heq as -> ->. now apply In_get.
    - intros Hg. exists (col, fields). split; [reflexivity|now apply get_In]. }
  assert (Hlast : forall col fields,
            get d col = Some fields
            <-> last_flags config correlations col fields).
  { intros col fields. rewrite (@consolidate_get _ _ _ _ col fields E). split.
    - intros [H|[H _]]; [exact H|discriminate].
    - intros H. now left. }
  split.
  - intros col fields. now rewrite Hin, Hlast.
  - apply Forall_forall. intros a Ha. apply in_map_iff in Ha as [[c f] [<- Hi]].
    exists c, f. split; [reflexivity|].
    apply In_get in Hi; [|exact Hnd]. apply Hlast in Hi.
    destruct Hi as [_ [it [_ [_ [[s [m [_ [_ [Hm Hg]]]]] _]]]]].
    apply perform_check_correlation_dict in Hm as [_ Hne].
    eapply Hne. apply get_In. exact Hg.
Qed.

Lemma check_correlation_alerts_last_flags_witness :
  last_flags sample_config
    [("pearson", sample_matrix); ("spearman", second_matrix);
     ("phi_k", sample_matrix)]
    "a" ["c"].
Proof.
  apply (proj1 (check_correlation_alerts_last_flags sample_config
                  [("pearson", sample_matrix); ("spearman", second_matrix);
                   ("phi_k", sample_matrix)] eq_refl)).
  simpl. left. reflexivity.
Defined.

(** ** The alert list, continued *)

Section SortFilter.

Variable A : Type.
Variable key : A -> string.
Variable rank : A -> nat.
Hypothesis key_rank :
  forall a b, String.ltb (key a) (key b) = Nat.ltb (rank a) (rank b).

Lemma filter_comm (p q : A -> bool) (l : list A) :
  filter p (filter q l) = filter q (filter p l).
Proof.
  induction l as [|x l IH]; [reflexivity|]. simpl.
  destruct (p x) eqn:Ep, (q x) eqn:Eq; simpl; rewrite ?Ep, ?Eq, IH; reflexivity.
Qed.

Lemma filter_sorted (p : A -> bool) (l : list A) :
  StronglySorted (rank_le rank) l ->
  StronglySorted (rank_le rank) (filter p l).
Proof.
  induction 1 as [|x l Hs IH Hall]; simpl; [constructor|].
  destruct (p x); [|exact IH]. constructor; [exact IH|].
  rewrite Forall_forall in *. intros y Hy. apply filter_In in Hy as [Hy _].
  now apply Hall.
Qed.

(** Filtering commutes with the stable sort. *)
Lemma filter_sort (p : A -> bool) (l : list A) :
  filter p (sort key l) = sort key (filter p l).
Proof.
  apply sort_unique with (rank := rank).
  - apply filter_sorted. now apply sort_sorted.
  - now apply sort_sorted.
  - intros r. rewrite filter_comm.
    rewrite (@sort_stable _ _ _ key_rank r l),
      (@sort_stable _ _ _ key_rank r (filter p l)).
    apply filter_comm.
Qed.

End SortFilter.

Lemma get_alerts_parts config table_stats series_description correlations
    alerts :
  Alerts.get_alerts config table_stats series_description correlations
  = Ok alerts ->
  exists table_alerts per_column correlation_alerts,
    Alerts.check_table_alerts table_stats = Ok table_alerts
    /\ column_alerts config series_description per_column
    /\ Alerts.check_correlation_alerts config correlations
       = Ok correlation_alerts
    /\ alerts
       = sort (fun alert => Alerts.str (Alerts.alert_type alert))
           (table_alerts ++ List.concat per_column ++ correlation_alerts).
Proof.
  unfold Alerts.get_alerts.
  destruct (Alerts.check_table_alerts table_stats) as [ta|e] eqn:Et;
    simpl; [|discriminate].
  destruct (Alerts.variable_alerts config series_description ta)
    as [va|e] eqn:Ev; simpl; [|discriminate].
  destruct (Alerts.check_correlation_alerts config correlations)
    as [ca|e] eqn:Ec; simpl; [|discriminate].
  intros [= <-].
  apply variable_alerts_concat in Ev as [per_column [Hcols ->]].
  exists ta, per_column, ca. rewrite <- app_assoc. auto.
Qed.

Lemma check_table_alerts_slots table alerts :
  Alerts.check_table_alerts table = Ok alerts ->
  NoDup (map slot alerts)
  /\ Forall
       (fun a =>
          Alerts.column_name a = None
          /\ Alerts.alert_type a <> Alerts.HIGH_CORRELATION)
       alerts.
Proof.
  unfold Alerts.check_table_alerts.
  destruct (table_n table) as [rows|]; cbn [field bind]; [|discriminate].
  intros [= <-]. unfold Alerts.append_if.
  destruct (Alerts.alert_value _), (eq rows (Fin 0)); cbn;
    (split; [repeat constructor; simpl; intuition discriminate
            |repeat constructor; discriminate]).
Qed.

Lemma check_variable_alerts_slots config col summary alerts :
  Alerts.check_variable_alerts config col summary = Ok alerts ->
  NoDup (map slot alerts)
  /\ Forall
       (fun a => Alerts.column_name a = Some col /\ of_column_rule a)
       alerts.
Proof.
  intros H. split.
  - destruct (check_variable_alerts_parts _ _ _ H) as [type [_ [_ [Ht _]]]].
    apply NoDup_map_inv with (f := fst). rewrite map_map.
    change (map (fun a => fst (slot a)) alerts) with (types alerts).
    eapply subseq_NoDup; [|apply (NoDup_rule_order type)].
    eapply check_variable_alerts_subseq; eassumption.
  - apply check_variable_alerts_column in H as [H1 H2].
    rewrite Forall_forall in *. intros a Ha. split; auto.
Qed.

Lemma column_alerts_slots config series_description per_column :
  column_alerts config series_description per_column ->
  NoDup (keys series_description) ->
  NoDup (map slot (List.concat per_column))
  /\ Forall
       (fun a =>
          exists col,
            In col (keys series_description)
            /\ Alerts.column_name a = Some col /\ of_column_rule a)
       (List.concat per_column).
Proof.
  induction 1 as [|[col summary] alerts items per_column Hrun _ IH];
    intros Hnd.
  - split; constructor.
  - inversion Hnd as [|? ? Hcol Hnd']; subst.
    destruct (IH Hnd') as [IH1 IH2].
    apply check_variable_alerts_slots in Hrun as [H1 H2]. simpl in H2.
    simpl List.concat. rewrite map_app. split.
    + apply NoDup_app; [exact H1|exact IH1|].
      intros s Hs Hs'. apply in_map_iff in Hs as [a [<- Ha]].
      apply in_map_iff in Hs' as [b [Heq Hb]].
      rewrite Forall_forall in H2, IH2.
      destruct (H2 a Ha) as [Hca _]. destruct (IH2 b Hb) as [c [Hc [Hcb _]]].
      unfold slot in Heq. injection Heq as _ Heq.
      rewrite Hca, Hcb in Heq. injection Heq as ->. contradiction.
    + apply Forall_app. split.
      * eapply Forall_impl; [|exact H2]. intros a [Ha1 Ha2].
        exists col. simpl. auto.
      * eapply Forall_impl; [|exact IH2]. intros a [c [Hc Ha]].
        exists c. simpl. auto.
Qed.

(** X14.  No alert twice.  Over summaries with distinct column names the
    list [get_alerts] returns holds no two alerts of the same type for the
    same column, and no two table alerts of the same type: the type and
    the column identify an alert. *)
Theorem get_alerts_distinct_slots
    (config : Settings) (table_stats : TableStats)
    (series_description : dict Summary) (correlations : dict Matrix)
    (alerts : list Alerts.Alert) :
  NoDup (keys series_description) ->
  Alerts.get_alerts config table_stats series_description correlations
  = Ok alerts ->
  NoDup (map slot alerts).
Proof.
  intros Hnd Hrun.
  apply get_alerts_parts in Hrun as [ta [pc [ca [Ht [Hc [Hr ->]]]]]].
  eapply Permutation_NoDup.
  { apply Permutation_map. symmetry. apply sort_perm. }
  apply check_table_alerts_slots in Ht as [Ht1 Ht2].
  apply column_alerts_slots in Hc as [Hc1 Hc2]; [|exact Hnd].
  apply check_correlation_alerts_one_per_column in Hr as [Hr1 Hr2].
  rewrite Forall_forall in Ht2, Hc2, Hr2.
  rewrite !map_app. apply NoDup_app; [exact Ht1| |].
  - apply NoDup_app; [exact Hc1| |].
    + apply NoDup_map_inv with (f := snd). rewrite map_map. exact Hr1.
    + intros s Hs Hs'. apply in_map_iff in Hs as [a [<- Ha]].
      apply in_map_iff in Hs' as [b [Heq Hb]].
      destruct (Hc2 a Ha) as [_ [_ [_ Hrule]]]. specialize (Hr2 b Hb).
      unfold slot in Heq. injection Heq as Heq _.
      unfold of_column_rule in Hrule. rewrite <- Heq, Hr2 in Hrule.
      discriminate.
  - intros s Hs Hs'. apply in_map_iff in Hs as [a [<- Ha]].
    destruct (Ht2 a Ha) as [Hnone Hty].
    rewrite <- map_app in Hs'. apply in_map_iff in Hs' as [b [Heq Hb]].
    unfold slot in Heq. injection Heq as Heq1 Heq2.
    apply in_app_or in Hb as [Hb|Hb].
    + destruct (Hc2 b Hb) as [c [_ [Hcb _]]]. congruence.
    + specialize (Hr2 b Hb). congruence.
Qed.

Lemma get_alerts_distinct_slots_witness :
  exists alerts,
    Alerts.get_alerts sample_config sample_table sample_series
      [("pearson", sample_matrix)] = Ok alerts
    /\ NoDup (map slot alerts).
Proof.
  eexists. split; [reflexivity|].
  apply (@get_alerts_distinct_slots sample_config sample_table sample_series
           [("pearson", sample_matrix)]).
  - repeat constructor; simpl; intuition discriminate.
  - reflexivity.
Defined.

Lemma filter_none (A : Type) (p : A -> bool) (l : list A) :
  Forall (fun a => p a = false) l -> filter p l = [].
Proof.
  induction 1 as [|a l Ha _ IH]; [reflexivity|]. simpl. now rewrite Ha.
Qed.

Lemma filter_all (A : Type) (p : A -> bool) (l : list A) :
  Forall (fun a => p a = true) l -> filter p l = l.
Proof.
  induction 1 as [|a l Ha _ IH]; [reflexivity|]. simpl. now rewrite Ha, IH.
Qed.

Lemma of_column_rule_alerts col c alerts :
  Forall (fun a => Alerts.column_name a = Some c /\ of_column_rule a) alerts ->
  filter (of_column col) alerts = if String.eqb c col then alerts else [].
Proof.
  intros H. destruct (String.eqb c col) eqn:E.
  - apply filter_all. eapply Forall_impl; [|exact H].
    intros a [Ha Hrule]. unfold of_column, of_type. rewrite Ha, E.
    unfold of_column_rule in Hrule.
    destruct (Alerts.alert_type a); try reflexivity; discriminate.
  - apply filter_none. eapply Forall_impl; [|exact H].
    intros a [Ha _]. unfold of_column. now rewrite Ha, E.
Qed.

Lemma column_alerts_of_column config series_description per_column col
    summary :
  column_alerts config series_description per_column ->
  NoDup (keys series_description) ->
  In (col, summary) series_description ->
  exists alerts,
    Alerts.check_variable_alerts config col summary = Ok alerts
    /\ filter (of_column col) (List.concat per_column) = alerts.
Proof.
  induction 1 as [|[c s] alerts items per_column Hrun Hrest IH];
    intros Hnd Hin; [destruct Hin|].
  inversion Hnd as [|? ? Hc Hnd']; subst. simpl in Hrun.
  simpl List.concat. rewrite filter_app.
  pose proof (check_variable_alerts_slots _ _ _ Hrun) as [_ Hshape].
  rewrite (of_column_rule_alerts col Hshape).
  destruct Hin as [[= -> ->]|Hin].
  - exists alerts. split; [exact Hrun|]. rewrite String.eqb_refl.
    rewrite filter_none; [apply app_nil_r|].
    apply column_alerts_slots in Hrest as [_ Hothers]; [|exact Hnd'].
    eapply Forall_impl; [|exact Hothers].
    intros a [c' [Hc' [Ha _]]]. unfold of_column. rewrite Ha.
    destruct (String.eqb_spec c' col) as [->|]; [contradiction|reflexivity].
  - destruct (IH Hnd' Hin) as [found [Hfound Hfilter]].
    exists found. split; [exact Hfound|].
    destruct (String.eqb_spec c col) as [->|_]; [|exact Hfilter].
    exfalso. apply Hc. change col with (fst (col, summary)).
    now apply in_map.
Qed.

(** X15.  The alerts of one column.  Over summaries with distinct column
    names, the alerts that [get_alerts] returns for a summarised column,
    the correlation alerts apart, are the ones [check_variable_alerts]
    gives for that column, sorted stably by the name of their type:
    merging and sorting the whole list neither drops nor adds nor
    reorders a column's alerts otherwise. *)
Theorem get_alerts_of_column
    (config : Settings) (table_stats : TableStats)
    (series_description : dict Summary) (correlations : dict Matrix)
    (alerts : list Alerts.Alert) (col : string) (summary : Summary) :
  NoDup (keys series_description) ->
  In (col, summary) series_description ->
  Alerts.get_alerts config table_stats series_description correlations
  = Ok alerts ->
  exists rule_alerts,
    Alerts.check_variable_alerts config col summary = Ok rule_alerts
    /\ filter (of_column col) alerts = sort type_name rule_alerts.
Proof.
  intros Hnd Hin Hrun.
  apply get_alerts_parts in Hrun as [ta [pc [ca [Ht [Hc [Hr ->]]]]]].
  destruct (@column_alerts_of_column _ _ _ col summary Hc Hnd Hin)
    as [found [Hfound Hfilter]].
  exists found. split; [exact Hfound|].
  change (fun alert => Alerts.str (Alerts.alert_type alert)) with type_name.
  rewrite (@filter_sort _ type_name alert_rank alert_key_rank). f_equal.
  rewrite !filter_app, Hfilter.
  apply check_table_alerts_slots in Ht as [_ Ht].
  apply check_correlation_alerts_one_per_column in Hr as [_ Hr].
  rewrite (@filter_none _ (of_column col) ta).
  - rewrite (@filter_none _ (of_column col) ca); [apply app_nil_r|].
    eapply Forall_impl; [|exact Hr]. intros a Ha.
    unfold of_column, of_type. rewrite Ha. apply andb_false_r.
  - eapply Forall_impl; [|exact Ht]. intros a [Ha _].
    unfold of_column. now rewrite Ha.
Qed.

Lemma get_alerts_of_column_witness :
  exists alerts rule_alerts,
    Alerts.get_alerts sample_config sample_table sample_series
      [("pearson", sample_matrix)] = Ok alerts
    /\ Alerts.check_variable_alerts sample_config "y" unsupported_summary
       = Ok rule_alerts
    /\ filter (of_column "y") alerts = sort type_name rule_alerts.
Proof.
  pose proof (fun alerts =>
                @get_alerts_of_column sample_config sample_table sample_series
                  [("pearson", sample_matrix)] alerts "y" unsupported_summary)
    as Hcol.
  eexists.
  edestruct Hcol as [rule_alerts H].
  - repeat constructor; simpl; intuition discriminate.
  - simpl. right. left. reflexivity.
  - reflexivity.
  - exists rule_alerts. split; [reflexivity|exact H].
Defined.

(** ** The missing-value diagrams, continued *)

(** X16.  Which diagrams are active.  With the three switches in the
    configuration and the two counts in the table statistics,
    [get_missing_active] returns entries of its diagram table, in the
    table's order: the bar chart and the matrix when switched on and the
    count of columns with missing values is at least 0, the heat map when
    switched on and both that count and its excess over the count of
    columns without any value are at least 2. *)
Theorem get_missing_active_rules
    (config : Settings) (table_stats : TableStats)
    (bar matrix heatmap : bool) (n_with n_all : num) :
  get (missing_diagrams config) "bar" = Some bar ->
  get (missing_diagrams config) "matrix" = Some matrix ->
  get (missing_diagrams config) "heatmap" = Some heatmap ->
  table_n_vars_with_missing table_stats = Some n_with ->
  table_n_vars_all_missing table_stats = Some n_all ->
  exists active,
    Missing.get_missing_active config table_stats = Ok active
    /\ subseq active Missing.missing_map
    /\ (In "bar" (keys active)
        <-> bar = true /\ ge n_with (Fin 0) = true)
    /\ (In "matrix" (keys active)
        <-> matrix = true /\ ge n_with (Fin 0) = true)
    /\ (In "heatmap" (keys active)
        <-> heatmap = true /\ ge n_with (Fin (2 # 1)) = true
            /\ ge (sub n_with n_all) (Fin (2 # 1)) = true).
Proof.
  intros Hbar Hmatrix Hheatmap Hwith Hall.
  unfold Missing.get_missing_active, Missing.missing_map.
  cbn [Missing.filter_active]. unfold Missing.is_active, getitem.
  rewrite Hbar, Hmatrix, Hheatmap, Hwith, Hall.
  cbn [bind field Missing.min_missing String.eqb Ascii.eqb Bool.eqb negb].
  destruct bar, matrix, heatmap; cbn [bind];
    destruct (ge n_with (Fin 0)); cbn [bind];
    destruct (ge n_with (Fin (2 # 1))); cbn [bind];
    destruct (ge (sub n_with n_all) (Fin (2 # 1))); cbn [bind];
    (eexists; split; [reflexivity|]);
    (split; [subseq_greedy|]);
    simpl; intuition (discriminate || auto).
Qed.

Lemma get_missing_active_rules_witness :
  exists active,
    Missing.get_missing_active sample_config sample_table = Ok active
    /\ keys active = ["bar"; "matrix"].
Proof.
  destruct (@get_missing_active_rules sample_config sample_table
              true true true (Fin 1) (Fin 0)
              eq_refl eq_refl eq_refl eq_refl eq_refl)
    as [active [Hrun _]].
  exists active. split; [exact Hrun|].
  vm_compute in Hrun. injection Hrun as <-. reflexivity.
Defined.

(** X17.  What [get_missing_active] reads.  With every diagram switched
    off it returns the empty mapping whatever the table statistics hold,
    the counts are not read.  A switch missing from the configuration is
    a [KeyError] for the diagram; a diagram switched on over statistics
    without the count of columns with missing values is a [KeyError] for
    that count; and the count of columns without any value is read for
    the heat map only, once the first count reached 2. *)
Theorem get_missing_active_reads
    (config : Settings) (table_stats : TableStats) :
  (get (missing_diagrams config) "bar" = Some false ->
   get (missing_diagrams config) "matrix" = Some false ->
   get (missing_diagrams config) "heatmap" = Some false ->
   Missing.get_missing_active config table_stats = Ok [])
  /\ (get (missing_diagrams config) "bar" = None ->
      Missing.get_missing_active config table_stats = Raise (KeyError "bar"))
  /\ (get (missing_diagrams config) "bar" = Some true ->
      table_n_vars_with_missing table_stats = None ->
      Missing.get_missing_active config table_stats
      = Raise (KeyError "n_vars_with_missing"))
  /\ (forall bar matrix n_with,
        get (missing_diagrams config) "bar" = Some bar ->
        get (missing_diagrams config) "matrix" = Some matrix ->
        table_n_vars_with_missing table_stats = Some n_with ->
        table_n_vars_all_missing table_stats = None ->
        Missing.get_missing_active config table_stats
        = Raise (KeyError "n_vars_all_missing")
        <-> get (missing_diagrams config) "heatmap" = Some true
            /\ ge n_with (Fin (2 # 1)) = true).
Proof.
  unfold Missing.get_missing_active, Missing.missing_map.
  cbn [Missing.filter_active]. unfold Missing.is_active, getitem.
  split; [|split; [|split]].
  - intros -> -> ->. reflexivity.
  - intros ->. reflexivity.
  - intros -> ->. reflexivity.
  - intros bar matrix n_with -> -> -> ->.
    cbn [bind field Missing.min_missing String.eqb Ascii.eqb Bool.eqb negb].
    destruct (get (missing_diagrams config) "heatmap") as [[|]|];
      destruct bar, matrix; cbn [bind];
      destruct (ge n_with (Fin 0)); cbn [bind];
      destruct (ge n_with (Fin (2 # 1))); cbn [bind];
      split; intros H; try discriminate; try reflexivity;
      try (destruct H; discriminate); try (now split).
Qed.

Lemma get_missing_active_reads_witness :
  Missing.get_missing_active config_without_diagrams table_without_counts
  = Ok [].
Proof.
  exact (proj1 (get_missing_active_reads config_without_diagrams
                  table_without_counts) eq_refl eq_refl eq_refl).
Defined.

(** X18.  A diagram that renders.  On a dataset with rows,
    [get_missing_diagram] calls the diagram function once; when that
    returns, the result has the entry's name and caption and the rendered
    text, and nothing is warned; when it raises anything but a
    [ValueError], the exception is passed on, after the call and without
    a warning. *)
Theorem get_missing_diagram_rendered
    (A : Type)
    (render : Missing.MissingFunction -> Settings -> DataFrame A ->
              result string)
    (config : Settings) (df : DataFrame A)
    (settings : Missing.DiagramSettings) (log : list event) :
  len df <> 0 ->
  match render (Missing.function settings) config df with
  | Ok text =>
      Missing.get_missing_diagram render config df settings log
      = (Ok (Some {| Missing.diagram_name := Missing.name settings;
                     Missing.diagram_caption := Missing.caption settings;
                     Missing.diagram_matrix := text |}),
         log ++ [Call (Missing.function_name (Missing.function settings))])
  | Raise (ValueError _) => True
  | Raise e =>
      Missing.get_missing_diagram render config df settings log
      = (Raise e,
         log ++ [Call (Missing.function_name (Missing.function settings))])
  end.
Proof.
  intros Hlen. unfold Missing.get_missing_diagram.
  destruct (Nat.eqb_spec (len df) 0) as [H0|_]; [contradiction|].
  unfold mbind, Missing.handle_missing, try_except, call, warn, ret.
  destruct (render (Missing.function settings) config df) as [text|e];
    [reflexivity|].
  destruct e; first [exact I | reflexivity].
Qed.

Lemma get_missing_diagram_rendered_witness :
  Missing.get_missing_diagram failing_render sample_config small_dataset
    heatmap_settings []
  = (Raise (TypeError "no numeric data to plot"), [Call "missing_heatmap"]).
Proof.
  apply (@get_missing_diagram_rendered nat failing_render sample_config
           small_dataset heatmap_settings []).
  discriminate.
Defined.

(** ** The table rules in the alert list *)

Lemma emits_perm t (l l' : list Alerts.Alert) :
  Permutation l l' -> emits t l = emits t l'.
Proof.
  unfold emits. induction 1 as [|x l l' _ IH|x y l|l l' l'' _ IH1 _ IH2];
    simpl.
  - reflexivity.
  - now rewrite IH.
  - destruct (of_type t x), (of_type t y); reflexivity.
  - now rewrite IH1.
Qed.

Lemma emits_none t (l : list Alerts.Alert) :
  Forall (fun a => Alerts.alert_type a <> t) l -> emits t l = false.
Proof.
  unfold emits. induction 1 as [|a l Ha _ IH]; [reflexivity|].
  simpl. rewrite IH, orb_false_r. unfold of_type.
  destruct (Alerts.AlertType_eqb (Alerts.alert_type a) t) eqn:E;
    [|reflexivity].
  apply AlertType_eqb_eq in E. contradiction.
Qed.

Lemma check_table_alerts_emits table alerts :
  Alerts.check_table_alerts table = Ok alerts ->
  exists rows,
    table_n table = Some rows
    /\ emits Alerts.DUPLICATES alerts
       = Alerts.alert_value (Alerts.get_nan (table_n_duplicates table))
    /\ emits Alerts.EMPTY alerts = eq rows (Fin 0)
    /\ Forall
         (fun a =>
            Alerts.column_name a = None
            /\ In (Alerts.alert_type a) [Alerts.DUPLICATES; Alerts.EMPTY])
         alerts.
Proof.
  unfold Alerts.check_table_alerts.
  destruct (table_n table) as [rows|]; cbn [field bind]; [|discriminate].
  intros [= <-]. exists rows. split; [reflexivity|].
  unfold Alerts.append_if.
  destruct (Alerts.alert_value _), (eq rows (Fin 0)); cbn;
    (split; [reflexivity|]); (split; [reflexivity|]);
    repeat first [apply Forall_nil | apply Forall_cons | split];
    simpl; auto.
Qed.

Lemma check_correlation_alerts_columns config correlations alerts :
  Alerts.check_correlation_alerts config correlations = Ok alerts ->
  Forall
    (fun a =>
       Alerts.alert_type a = Alerts.HIGH_CORRELATION
       /\ exists col, Alerts.column_name a = Some col)
    alerts.
Proof.
  unfold Alerts.check_correlation_alerts.
  destruct (Alerts.consolidate config correlations []) as [d|];
    cbn [bind]; [|discriminate].
  intros [= <-]. destruct d as [|item d]; [constructor|].
  cbn [Nat.ltb Nat.leb List.length app].
  apply Forall_forall. intros a Ha. apply in_map_iff in Ha as [x [<- _]].
  split; [reflexivity|]. now exists (fst x).
Qed.

Lemma column_alerts_named config series_description per_column :
  column_alerts config series_description per_column ->
  Forall
    (fun a => of_column_rule a /\ exists col, Alerts.column_name a = Some col)
    (List.concat per_column).
Proof.
  induction 1 as [|item alerts items per_column Hrun _ IH]; [constructor|].
  simpl. apply Forall_app. split; [|exact IH].
  apply check_variable_alerts_column in Hrun as [H1 H2].
  rewrite Forall_forall in *. intros a Ha. split; [now apply H1|].
  exists (fst item). now apply H2.
Qed.

Lemma get_alerts_emits_table config table_stats series_description
    correlations alerts :
  Alerts.get_alerts config table_stats series_description correlations
  = Ok alerts ->
  exists rows,
    table_n table_stats = Some rows
    /\ emits Alerts.EMPTY alerts = eq rows (Fin 0)
    /\ emits Alerts.DUPLICATES alerts
       = Alerts.alert_value (Alerts.get_nan (table_n_duplicates table_stats)).
Proof.
  intros Hrun.
  apply get_alerts_parts in Hrun as [ta [pc [ca [Ht [Hc [Hr ->]]]]]].
  apply check_table_alerts_emits in Ht as [rows [Hn [Hdup [Hempty _]]]].
  apply column_alerts_named in Hc as Hrule.
  apply check_correlation_alerts_columns in Hr.
  assert (Hcols : forall t,
            column_rule_type t = false ->
            emits t (List.concat pc) = false).
  { intros t Ht. apply emits_none. eapply Forall_impl; [|exact Hrule].
    intros a [Ha _] E. unfold of_column_rule in Ha. congruence. }
  assert (Hcorr : forall t,
            t <> Alerts.HIGH_CORRELATION -> emits t ca = false).
  { intros t Ht. apply emits_none. eapply Forall_impl; [|exact Hr].
    intros a [Ha _] E. congruence. }
  exists rows. split; [exact Hn|].
  rewrite !(emits_perm _ (sort_perm _ _)), !emits_app.
  rewrite !Hcols, !Hcorr, !orb_false_r by (reflexivity || discriminate).
  split; [exact Hempty|exact Hdup].
Qed.

(** X19.  The table rules in the final list.  When [get_alerts] returns,
    the table statistics have [n]; the list holds an [EMPTY] alert exactly
    when [n] is 0 and a [DUPLICATES] alert exactly when [n_duplicates] is
    a number above 0.01, whatever the columns and the correlations are;
    and the alerts that name no column are the alerts of these two
    types. *)
Theorem get_alerts_table_rules
    (config : Settings) (table_stats : TableStats)
    (series_description : dict Summary) (correlations : dict Matrix)
    (alerts : list Alerts.Alert) :
  Alerts.get_alerts config table_stats series_description correlations
  = Ok alerts ->
  exists rows,
    table_n table_stats = Some rows
    /\ emits Alerts.EMPTY alerts = eq rows (Fin 0)
    /\ emits Alerts.DUPLICATES alerts
       = Alerts.alert_value (Alerts.get_nan (table_n_duplicates table_stats))
    /\ forall a,
         In a alerts ->
         Alerts.column_name a = None
         <-> In (Alerts.alert_type a) [Alerts.DUPLICATES; Alerts.EMPTY].
Proof.
  intros Hrun.
  destruct (get_alerts_emits_table _ _ _ _ Hrun)
    as [rows [Hn [Hempty Hdup]]].
  exists rows. split; [exact Hn|]. split; [exact Hempty|].
  split; [exact Hdup|].
  apply get_alerts_parts in Hrun as [ta [pc [ca [Ht [Hc [Hr ->]]]]]].
  apply check_table_alerts_emits in Ht as [_ [_ [_ [_ Hscope]]]].
  apply column_alerts_named in Hc as Hrule.
  apply check_correlation_alerts_columns in Hr.
  intros a Ha. apply (Permutation_in _ (sort_perm _ _)) in Ha.
  rewrite Forall_forall in Hscope, Hrule, Hr.
  apply in_app_or in Ha as [Ha|Ha]; [|apply in_app_or in Ha as [Ha|Ha]].
  - destruct (Hscope a Ha) as [H1 H2]. tauto.
  - destruct (Hrule a Ha) as [Hty [col Hcol]].
    unfold of_column_rule in Hty. rewrite Hcol.
    split; [discriminate|].
    intros [H|[H|[]]]; rewrite <- H in Hty; discriminate.
  - destruct (Hr a Ha) as [Hty [col Hcol]]. rewrite Hty, Hcol.
    split; [discriminate|]. intros [H|[H|[]]]; discriminate.
Qed.

Lemma get_alerts_table_rules_witness :
  exists alerts,
    Alerts.get_alerts sample_config empty_table sample_series [] = Ok alerts
    /\ emits Alerts.EMPTY alerts = true
    /\ emits Alerts.DUPLICATES alerts = false.
Proof.
  eexists. split; [reflexivity|].
  destruct (@get_alerts_table_rules sample_config empty_table sample_series
              [] _ eq_refl) as [rows [Hn [Hempty [Hdup _]]]].
  injection Hn as <-. split; [exact Hempty|exact Hdup].
Defined.

(** ** The pipeline, continued *)

Lemma mbind_call (A B : Type) callee (outcome : result A) (k : A -> M B) log :
  mbind (call callee outcome) k log
  = match outcome with
    | Ok a => k a (log ++ [Call callee])
    | Raise e => (Raise e, log ++ [Call callee])
    end.
Proof. unfold mbind, call. destruct outcome; reflexivity. Qed.

Lemma mbind_lift (A B : Type) (r : result A) (k : A -> M B) log :
  mbind (lift r) k log
  = match r with
    | Ok a => k a log
    | Raise e => (Raise e, log)
    end.
Proof. unfold mbind, lift. destruct r; reflexivity. Qed.

Lemma mbind_run (A B : Type) (m : M A) (k : A -> M B) log r log' :
  mbind m k log = (r, log') ->
  (exists a log1, m log = (Ok a, log1) /\ k a log1 = (r, log'))
  \/ (exists e, m log = (Raise e, log') /\ r = Raise e).
Proof.
  unfold mbind. destruct (m log) as [[a|e] log1].
  - intros H. left. now exists a, log1.
  - intros [= <- <-]. right. now exists e.
Qed.

Lemma no_stage_call_app (l1 l2 : list event) :
  no_stage_call (l1 ++ l2) <-> no_stage_call l1 /\ no_stage_call l2.
Proof. apply Forall_app. Qed.

Lemma stage_calls_none (events : list event) :
  no_stage_call events -> filter is_stage_call events = [].
Proof. apply filter_none. Qed.

Lemma variable_types_supported series_description types :
  Describe.variable_types series_description = Ok types ->
  map fst
    (filter (fun item : string * string =>
               negb (String.eqb (snd item) "Unsupported")) types)
  = supported_columns series_description.
Proof.
  unfold supported_columns. revert types.
  induction series_description as [|[column description] items IH];
    intros types; simpl.
  - now intros [= <-].
  - destruct (type_ description) as [type|]; cbn [field bind]; [|discriminate].
    destruct (Describe.variable_types items) as [rest|]; cbn [bind];
      [|discriminate].
    intros [= <-]. simpl.
    destruct (negb (String.eqb type "Unsupported")); simpl;
      now rewrite (IH rest eq_refl).
Qed.

Lemma subseq_map (A B : Type) (f : A -> B) (l1 l2 : list A) :
  subseq l1 l2 -> subseq (map f l1) (map f l2).
Proof. induction 1; simpl; now constructor. Qed.

Lemma filter_active_subseq config table_stats items active :
  Missing.filter_active config table_stats items = Ok active ->
  subseq active items.
Proof.
  revert active. induction items as [|[name settings] items IH];
    intros active; simpl.
  - intros [= <-]. constructor.
  - destruct (Missing.is_active config table_stats name settings) as [keep|];
      cbn [bind]; [|discriminate].
    destruct (Missing.filter_active config table_stats items) as [kept|];
      cbn [bind]; [|discriminate].
    intros [= <-]. destruct keep; constructor; now apply IH.
Qed.

Lemma drop_none_nothing (V : Type) (d : dict (option V)) :
  Forall (fun item => snd item = None) d -> Describe.drop_none d = [].
Proof.
  induction 1 as [|[k v] d Hv _ IH]; [reflexivity|].
  simpl in Hv. subst v. exact IH.
Qed.

Section PipelineMore.

Variable A : Type.
Variable check_dataframe : DataFrame A -> result unit.
Variable preprocess : Settings -> DataFrame A -> result (DataFrame A).
Variable get_series_descriptions :
  Settings -> DataFrame A -> result (dict Summary).
Variable get_table_stats :
  Settings -> DataFrame A -> dict Summary -> result TableStats.
Variable compute :
  Correlations.Correlation -> Settings -> DataFrame A -> dict Summary ->
  result (option Matrix).
Variable scatter_stage : Settings -> DataFrame A -> list string -> result unit.
Variable render :
  Missing.MissingFunction -> Settings -> DataFrame A -> result string.
Variable sample_stage : Settings -> DataFrame A -> result unit.
Variable get_duplicates :
  Settings -> DataFrame A -> list string -> result Describe.DuplicateMetrics.
Variable closing_stages : Settings -> DataFrame A -> TableStats -> result unit.

(** Every stage of a run that returned, with what it was called on. *)
Lemma describe_run config df0 log0 d log :
  Describe.describe check_dataframe preprocess get_series_descriptions
    get_table_stats compute scatter_stage render sample_stage get_duplicates
    closing_stages config (Some df0) log0 = (Ok d, log) ->
  exists df table_stats metrics active found log1 log2 log3,
    preprocess config df0 = Ok df
    /\ get_series_descriptions config df = Ok (Describe.variables d)
    /\ get_table_stats config df (Describe.variables d) = Ok table_stats
    /\ log1 = log0 ++ [Call "check_dataframe"; Call "preprocess";
                       Call "get_series_descriptions"; Call "get_table_stats"]
    /\ Describe.correlations_stage compute config df (Describe.variables d)
         table_stats log1 = (Ok (Describe.correlations d), log2)
    /\ Missing.get_missing_active config table_stats = Ok active
    /\ Describe.missing_diagrams_of render config df active []
         (log2 ++ [Call "get_scatter_plot"]) = (Ok found, log3)
    /\ Describe.missing d = Describe.drop_none found
    /\ get_duplicates config df (supported_columns (Describe.variables d))
       = Ok metrics
    /\ Describe.table d = Describe.update table_stats metrics
    /\ Alerts.get_alerts config (Describe.table d) (Describe.variables d)
         (Describe.correlations d) = Ok (Describe.alerts d)
    /\ log = log3 ++ [Call "get_sample"; Call "get_duplicates";
                      Call "finalize"].
Proof.
  unfold Describe.describe. intros H.
  apply mbind_Ok in H as [u1 [l1 [H1 H]]]. apply call_Ok in H1 as [_ ->].
  apply mbind_Ok in H as [df [l2 [H2 H]]]. apply call_Ok in H2 as [Hpre ->].
  apply mbind_Ok in H as [series [l3 [H3 H]]].
  apply call_Ok in H3 as [Hseries ->].
  apply mbind_Ok in H as [types [l4 [H4 H]]].
  apply lift_Ok in H4 as [Htypes ->].
  apply mbind_Ok in H as [table_stats [l5 [H5 H]]].
  apply call_Ok in H5 as [Htable ->].
  apply mbind_Ok in H as [cors [l6 [Hcors H]]].
  apply mbind_Ok in H as [u2 [l7 [H7 H]]]. apply call_Ok in H7 as [_ ->].
  apply mbind_Ok in H as [active [l8 [H8 H]]].
  apply lift_Ok in H8 as [Hactive ->].
  apply mbind_Ok in H as [found [l9 [H9 H]]].
  apply mbind_Ok in H as [u3 [l10 [H10 H]]]. apply call_Ok in H10 as [_ ->].
  apply mbind_Ok in H as [metrics [l11 [H11 H]]].
  apply call_Ok in H11 as [Hmetrics ->].
  apply mbind_Ok in H as [alerts [l12 [H12 H]]].
  apply lift_Ok in H12 as [Halerts ->].
  apply mbind_Ok in H as [u4 [l13 [H13 H]]]. apply call_Ok in H13 as [_ ->].
  apply ret_Ok in H as [<- ->]. cbn [Describe.variables Describe.table
    Describe.correlations Describe.alerts Describe.missing].
  rewrite (variable_types_supported _ Htypes) in Hmetrics.
  exists df, table_stats, metrics, active, found,
    (((((log0 ++ [Call "check_dataframe"]) ++ [Call "preprocess"])
        ++ [Call "get_series_descriptions"]) ++ [Call "get_table_stats"])),
    l6, l9.
  repeat split; try assumption.
  - now rewrite <- !app_assoc.
  - now rewrite <- !app_assoc.
Qed.

(** X20.  The duplicates alert follows [get_duplicates].  In a run of
    [describe] that returned, [get_duplicates] was called on the columns
    whose type is not ["Unsupported"], its metrics were merged into the
    table statistics before the alerts were computed, and the alert list
    has a [DUPLICATES] alert exactly when the merged [n_duplicates] is a
    number above 0.01: a count that [get_duplicates] reports decides
    alone, whatever the table statistics held before. *)
Theorem describe_duplicates_alert
    (config : Settings) (df0 : DataFrame A)
    (d : Describe.BaseDescription) (log : list event) :
  Describe.describe check_dataframe preprocess get_series_descriptions
    get_table_stats compute scatter_stage render sample_stage get_duplicates
    closing_stages config (Some df0) [] = (Ok d, log) ->
  exists df table_stats metrics,
    preprocess config df0 = Ok df
    /\ get_table_stats config df (Describe.variables d) = Ok table_stats
    /\ get_duplicates config df (supported_columns (Describe.variables d))
       = Ok metrics
    /\ Describe.table d = Describe.update table_stats metrics
    /\ emits Alerts.DUPLICATES (Describe.alerts d)
       = Alerts.alert_value
           (Alerts.get_nan (table_n_duplicates (Describe.table d)))
    /\ (forall count,
          Describe.metrics_n_duplicates metrics = Some count ->
          emits Alerts.DUPLICATES (Describe.alerts d)
          = Alerts.alert_value count).
Proof.
  intros Hrun.
  apply describe_run in Hrun
    as [df [table_stats [metrics [active [found [log1 [log2 [log3
         [Hpre [_ [Htable [_ [_ [_ [_ [_ [Hmetrics [Hupdate [Halerts _]
         ]]]]]]]]]]]]]]]]]].
  exists df, table_stats, metrics.
  split; [exact Hpre|]. split; [exact Htable|]. split; [exact Hmetrics|].
  split; [exact Hupdate|].
  apply get_alerts_emits_table in Halerts as [rows [_ [_ Hdup]]].
  split; [exact Hdup|].
  intros count Hcount. rewrite Hdup, Hupdate.
  cbn [Describe.update table_n_duplicates]. now rewrite Hcount.
Qed.

Lemma compute_call_no_stage (measure : Correlations.Correlation) :
  is_stage_call (Call (Correlations.class_name measure ++ ".compute")) = false.
Proof. destruct measure; reflexivity. Qed.

Lemma calculate_correlations_no_stage config df series_description names acc
    log r log' :
  Describe.calculate_correlations compute config df series_description
    names acc log = (r, log') ->
  exists events, log' = log ++ events /\ no_stage_call events.
Proof.
  revert acc log. induction names as [|name names IH]; intros acc log; simpl.
  - unfold ret. intros [= _ <-]. exists []. split; [now rewrite app_nil_r|].
    constructor.
  - unfold mbind at 1. rewrite calculate_correlation_run.
    assert (Hev : no_stage_call
                    (events_of compute config df series_description name)).
    { unfold events_of.
      destruct (get Correlations.correlation_measures name) as [measure|];
        [|constructor].
      constructor; [apply compute_call_no_stage|].
      destruct (compute measure config df series_description) as [c|e];
        [constructor|].
      destruct (Correlations.handled e); now repeat constructor. }
    destruct (outcome compute config df series_description name) as [c|e].
    + intros H. apply IH in H as [ev [-> H]].
      eexists. split; [symmetry; apply app_assoc|].
      now apply no_stage_call_app.
    + destruct (Correlations.handled e).
      * intros H. apply IH in H as [ev [-> H]].
        eexists. split; [symmetry; apply app_assoc|].
        now apply no_stage_call_app.
      * intros [= _ <-]. eexists. split; [reflexivity|exact Hev].
Qed.

Lemma correlations_stage_no_stage config df series_description table_stats
    log r log' :
  Describe.correlations_stage compute config df series_description
    table_stats log = (r, log') ->
  exists events, log' = log ++ events /\ no_stage_call events.
Proof.
  unfold Describe.correlations_stage. rewrite mbind_lift.
  destruct (field "n" (table_n table_stats)) as [rows|e].
  - destruct (ne rows (Fin 0)).
    + intros H. apply mbind_run in H as [[a [l1 [H1 H]]]|[e [H1 _]]].
      * apply calculate_correlations_no_stage in H1. unfold ret in H.
        now injection H as _ <-.
      * now apply calculate_correlations_no_stage in H1.
    + unfold ret. intros [= _ <-]. exists []. split; [now rewrite app_nil_r|].
      constructor.
  - intros [= _ <-]. exists []. split; [now rewrite app_nil_r|constructor].
Qed.

Lemma get_missing_diagram_no_stage config df settings log r log' :
  Missing.get_missing_diagram render config df settings log = (r, log') ->
  exists events, log' = log ++ events /\ no_stage_call events.
Proof.
  unfold Missing.get_missing_diagram.
  destruct (Nat.eqb (len df) 0).
  - unfold ret. intros [= _ <-]. exists []. split; [now rewrite app_nil_r|].
    constructor.
  - unfold mbind, Missing.handle_missing, try_except, call, warn, ret.
    assert (Hcall : is_stage_call
                      (Call (Missing.function_name (Missing.function settings)))
                    = false).
    { destruct (Missing.function settings); reflexivity. }
    destruct (render (Missing.function settings) config df) as [s|e].
    + intros [= _ <-]. eexists. split; [reflexivity|]. now repeat constructor.
    + destruct e; intros [= _ <-];
        try (eexists; split; [reflexivity|]; now repeat constructor).
      eexists. split; [symmetry; apply app_assoc|]. now repeat constructor.
Qed.

Lemma missing_diagrams_of_no_stage config df items acc log r log' :
  Describe.missing_diagrams_of render config df items acc log = (r, log') ->
  exists events, log' = log ++ events /\ no_stage_call events.
Proof.
  revert acc log. induction items as [|[name settings] items IH];
    intros acc log; simpl.
  - unfold ret. intros [= _ <-]. exists []. split; [now rewrite app_nil_r|].
    constructor.
  - unfold mbind at 1.
    destruct (Missing.get_missing_diagram render config df settings log)
      as [[diagram|e] log1] eqn:E;
      apply get_missing_diagram_no_stage in E as [ev1 [-> H1]].
    + intros H. apply IH in H as [ev2 [-> H2]].
      exists (ev1 ++ ev2). split; [now rewrite app_assoc|].
      now apply no_stage_call_app.
    + intros [= _ <-]. now exists ev1.
Qed.

Ltac stage_log :=
  unfold stage_calls; simpl; rewrite ?filter_app;
  repeat match goal with
         | E : filter is_stage_call _ = [] |- _ => rewrite E; clear E
         end;
  simpl.

Ltac stage_exit H :=
  injection H as <- <-;
  split; [stage_log; eexists; reflexivity|exact I].

(** X21.  The order of the stages.  Whether a run of [describe] on a
    dataset returns or raises, the stages it entered are the first ones
    of the fixed sequence [check_dataframe], [preprocess],
    [get_series_descriptions], [get_table_stats], the scatter plots, the
    sampling, [get_duplicates], the closing stage, each entered once and
    in this order; a run that returned entered them all. *)
Theorem describe_stage_order
    (config : Settings) (df0 : DataFrame A)
    (r : result Describe.BaseDescription) (log : list event) :
  Describe.describe check_dataframe preprocess get_series_descriptions
    get_table_stats compute scatter_stage render sample_stage get_duplicates
    closing_stages config (Some df0) [] = (r, log) ->
  (exists rest, map Call stages = stage_calls log ++ rest)
  /\ match r with
     | Ok _ => stage_calls log = map Call stages
     | Raise _ => True
     end.
Proof.
  unfold Describe.describe. intros H.
  rewrite mbind_call in H.
  destruct (check_dataframe df0) as [u1|e]; [|stage_exit H].
  rewrite mbind_call in H.
  destruct (preprocess config df0) as [df|e]; [|stage_exit H].
  rewrite mbind_call in H.
  destruct (get_series_descriptions config df) as [series|e];
    [|stage_exit H].
  rewrite mbind_lift in H.
  destruct (Describe.variable_types series) as [types|e]; [|stage_exit H].
  rewrite mbind_call in H.
  destruct (get_table_stats config df series) as [table_stats|e];
    [|stage_exit H].
  apply mbind_run in H as [[cors [l1 [H1 H]]]|[e [H1 ->]]];
    apply correlations_stage_no_stage in H1 as [ev1 [-> E1]];
    apply stage_calls_none in E1;
    [|split; [stage_log; eexists; reflexivity|exact I]].
  rewrite mbind_call in H.
  destruct (scatter_stage config df _) as [u2|e]; [|stage_exit H].
  rewrite mbind_lift in H.
  destruct (Missing.get_missing_active config table_stats) as [active|e];
    [|stage_exit H].
  apply mbind_run in H as [[found [l2 [H2 H]]]|[e [H2 ->]]];
    apply missing_diagrams_of_no_stage in H2 as [ev2 [-> E2]];
    apply stage_calls_none in E2;
    [|split; [stage_log; eexists; reflexivity|exact I]].
  rewrite mbind_call in H.
  destruct (sample_stage config df) as [u3|e]; [|stage_exit H].
  rewrite mbind_call in H.
  destruct (get_duplicates config df _) as [metrics|e]; [|stage_exit H].
  rewrite mbind_lift in H.
  destruct (Alerts.get_alerts config _ series cors) as [alerts|e];
    [|stage_exit H].
  rewrite mbind_call in H.
  destruct (closing_stages config df _) as [u4|e];
    [|injection H as <- <-; split; [stage_log; now exists []|exact I]].
  unfold ret in H. injection H as <- <-.
  split; [stage_log; now exists []|stage_log; reflexivity].
Qed.

(** ** The diagrams of a run *)

Lemma get_missing_diagram_value config df settings log diagram log' :
  Missing.get_missing_diagram render config df settings log
  = (Ok diagram, log') ->
  diagram = rendered render config df settings.
Proof.
  unfold Missing.get_missing_diagram, rendered.
  destruct (Nat.eqb (len df) 0); [unfold ret; now intros [= <- _]|].
  unfold mbind, Missing.handle_missing, try_except, call, warn, ret.
  destruct (render (Missing.function settings) config df) as [text|e].
  - now intros [= <- _].
  - destruct e; try discriminate. now intros [= <- _].
Qed.

Lemma missing_diagrams_of_run config df items acc log found log' :
  Describe.missing_diagrams_of render config df items acc log
  = (Ok found, log') ->
  found = diagrams render config df items acc.
Proof.
  revert acc log. induction items as [|[name settings] items IH];
    intros acc log; simpl.
  - unfold ret. now intros [= <- _].
  - intros H. apply mbind_Ok in H as [diagram [log1 [H1 H]]].
    apply get_missing_diagram_value in H1 as ->.
    apply IH in H. exact H.
Qed.

Lemma get_diagrams config df items acc name :
  NoDup (keys items) ->
  get (diagrams render config df items acc) name
  = match get items name with
    | Some settings => Some (rendered render config df settings)
    | None => get acc name
    end.
Proof.
  unfold diagrams. revert acc.
  induction items as [|[k settings] items IH]; intros acc Hnd;
    [reflexivity|].
  inversion Hnd as [|? ? Hk Hnd']; subst. simpl. rewrite IH by assumption.
  destruct (String.eqb_spec k name) as [->|Hne].
  - apply get_None_iff in Hk. rewrite Hk, get_setitem, String.eqb_refl.
    reflexivity.
  - rewrite get_setitem. apply String.eqb_neq in Hne. now rewrite Hne.
Qed.

Lemma keys_diagrams config df items acc name :
  In name (keys (diagrams render config df items acc)) ->
  In name (keys items) \/ In name (keys acc).
Proof.
  unfold diagrams. revert acc.
  induction items as [|[k settings] items IH]; intros acc; [now right|].
  simpl. intros H. apply IH in H as [H|H]; [tauto|].
  rewrite keys_setitem in H. destruct (get acc k); [tauto|].
  apply in_app_or in H as [H|[<-|[]]]; tauto.
Qed.

Lemma NoDup_keys_diagrams config df items acc :
  NoDup (keys acc) -> NoDup (keys (diagrams render config df items acc)).
Proof.
  unfold diagrams. revert acc.
  induction items as [|[k settings] items IH]; intros acc H; [exact H|].
  simpl. apply IH. now apply NoDup_keys_setitem.
Qed.

Lemma diagrams_without_rows config df items acc :
  len df = 0 ->
  Forall (fun item => snd item = None) acc ->
  Forall (fun item => snd item = None)
    (diagrams render config df items acc).
Proof.
  intros Hlen. unfold diagrams. revert acc.
  induction items as [|[k settings] items IH]; intros acc H; [exact H|].
  simpl. apply IH. rewrite Forall_forall in *. intros [k' v'] Hin.
  apply In_setitem in Hin as [[= -> ->]|Hin]; [|now apply H].
  unfold rendered. now rewrite Hlen.
Qed.

(** X22.  The diagrams of a run.  In a run of [describe] that returned,
    the final [missing] mapping has keys among the diagrams
    [get_missing_active] selects from the table statistics; for each of
    these it holds the rendered diagram with the entry's name and caption
    when the diagram function returned, and has no key when that raised
    a [ValueError]; over a dataset without rows it is empty. *)
Theorem describe_missing_diagrams
    (config : Settings) (df0 : DataFrame A)
    (d : Describe.BaseDescription) (log : list event) :
  Describe.describe check_dataframe preprocess get_series_descriptions
    get_table_stats compute scatter_stage render sample_stage get_duplicates
    closing_stages config (Some df0) [] = (Ok d, log) ->
  exists df table_stats active,
    preprocess config df0 = Ok df
    /\ get_table_stats config df (Describe.variables d) = Ok table_stats
    /\ Missing.get_missing_active config table_stats = Ok active
    /\ (forall name,
          In name (keys (Describe.missing d)) -> In name (keys active))
    /\ (forall name settings,
          In (name, settings) active ->
          get (Describe.missing d) name = rendered render config df settings)
    /\ (len df = 0 -> Describe.missing d = []).
Proof.
  intros Hrun.
  apply describe_run in Hrun
    as [df [table_stats [metrics [active [found [log1 [log2 [log3
         [Hpre [_ [Htable [_ [_ [Hactive [Hfound [Hmissing _]]]]]]]]]]]]]]]].
  apply missing_diagrams_of_run in Hfound as ->.
  exists df, table_stats, active.
  split; [exact Hpre|]. split; [exact Htable|]. split; [exact Hactive|].
  assert (Hnd : NoDup (keys active)).
  { apply filter_active_subseq in Hactive.
    eapply subseq_NoDup; [apply subseq_map; exact Hactive|].
    repeat constructor; simpl; intuition discriminate. }
  rewrite Hmissing. split; [|split].
  - intros name Hin. apply keys_drop_none in Hin.
    apply keys_diagrams in Hin as [Hin|[]]. exact Hin.
  - intros name settings Hin.
    rewrite get_drop_none by (apply NoDup_keys_diagrams; constructor).
    rewrite get_diagrams by exact Hnd.
    rewrite (@In_get _ _ _ _ Hnd Hin).
    destruct (rendered render config df settings); reflexivity.
  - intros Hlen. apply drop_none_nothing.
    apply diagrams_without_rows; [exact Hlen|constructor].
Qed.

(** ** The calls of the correlation classes *)

Lemma compute_call_is_compute (measure : Correlations.Correlation) :
  is_compute_call (Call (Correlations.class_name measure ++ ".compute"))
  = true.
Proof. destruct measure; reflexivity. Qed.

Lemma compute_calls_of config df series_description names :
  Forall
    (fun name => absorbed (outcome compute config df series_description name))
    names ->
  exists measures,
    Forall2
      (fun name measure =>
         get Correlations.correlation_measures name = Some measure)
      names measures
    /\ filter is_compute_call
         (flat_map (events_of compute config df series_description) names)
       = map (fun measure =>
                Call (Correlations.class_name measure ++ ".compute"))
           measures.
Proof.
  induction 1 as [|name names Hname _ [measures [Hall Hcalls]]].
  - exists []. split; constructor.
  - unfold absorbed, outcome in Hname. simpl flat_map.
    rewrite filter_app, Hcalls. unfold events_of.
    destruct (get Correlations.correlation_measures name) as [measure|] eqn:E;
      [|discriminate].
    exists (measure :: measures). split; [now constructor|].
    cbn [filter]. rewrite compute_call_is_compute. cbn [map app]. f_equal.
    destruct (compute measure config df series_description) as [c|e];
      [reflexivity|].
    destruct (Correlations.handled e); reflexivity.
Qed.

(** X23.  The calls of the correlation classes.  The active methods are
    the keys of [config.correlations] whose [calculate] is set, in the
    order of the configuration.  In a run of [describe] that returned
    over a table with rows, every active method names one of the six
    correlation classes and the calls of [compute] in the log are those
    of the active methods' classes, one call each, in that order: an
    inactive method is never computed and none is computed twice. *)
Theorem describe_compute_calls
    (config : Settings) (df0 : DataFrame A)
    (d : Describe.BaseDescription) (log : list event) (rows : num) :
  Describe.describe check_dataframe preprocess get_series_descriptions
    get_table_stats compute scatter_stage render sample_stage get_duplicates
    closing_stages config (Some df0) [] = (Ok d, log) ->
  table_n (Describe.table d) = Some rows ->
  ne rows (Fin 0) = true ->
  (forall name,
     In name (Correlations.get_active_correlations config)
     <-> exists settings,
           get (correlations config) name = Some settings
           /\ calculate settings = true)
  /\ subseq (Correlations.get_active_correlations config)
       (keys (correlations config))
  /\ exists measures,
       Forall2
         (fun name measure =>
            get Correlations.correlation_measures name = Some measure)
         (Correlations.get_active_correlations config) measures
       /\ filter is_compute_call log
          = map (fun measure =>
                   Call (Correlations.class_name measure ++ ".compute"))
              measures.
Proof.
  intros Hrun Hn Hrows. split; [|split].
  - intros name. unfold Correlations.get_active_correlations.
    rewrite filter_In. split.
    + intros [_ H].
      destruct (get (correlations config) name) as [settings|];
        [|discriminate].
      now exists settings.
    + intros [settings [Hget Hcalc]]. rewrite Hget. split; [|exact Hcalc].
      apply get_In in Hget. change name with (fst (name, settings)).
      now apply in_map.
  - apply subseq_filter.
  - apply describe_run in Hrun
      as [df [table_stats [metrics [active [found [log1 [log2 [log3
           [_ [_ [_ [Hlog1 [Hstage [_ [Hfound [_ [_ [Hupdate [_ Hlog]]]]]]]]]]
           ]]]]]]]]].
    rewrite Hupdate in Hn. cbn [Describe.update table_n] in Hn.
    apply (correlations_stage_run compute config df (Describe.variables d)
             table_stats log1 Hn Hrows) in Hstage as [Habs [_ Hlog2]].
    apply missing_diagrams_of_log in Hfound as [ev [Hlog3 Hev]].
    destruct (@compute_calls_of _ _ _ _ Habs) as [measures [Hall Hcalls]].
    exists measures. split; [exact Hall|].
    rewrite Hlog, Hlog3, Hlog2, Hlog1, !filter_app, Hcalls.
    rewrite (@filter_none _ _ _ Hev). cbn. now rewrite !app_nil_r.
Qed.

End PipelineMore.

Lemma describe_duplicates_alert_witness :
  match duplicates_run with
  | (Ok d, log) =>
      table_n_duplicates table_without_counts = None
      /\ emits Alerts.DUPLICATES (Describe.alerts d) = true
  | (Raise _, _) => False
  end.
Proof.
  destruct duplicates_run as [[d|e] log] eqn:Hrun;
    [|vm_compute in Hrun; discriminate].
  unfold duplicates_run in Hrun.
  destruct (describe_duplicates_alert _ _ _ _ _ _ _ _ _ _ _ _ Hrun)
    as [df [table_stats [metrics [_ [_ [Hmetrics [_ [_ Hcount]]]]]]]].
  injection Hmetrics as <-. split; [reflexivity|].
  now rewrite (Hcount (Fin (3 # 1)) eq_refl).
Defined.

Lemma describe_stage_order_witness :
  stage_calls (snd sample_run) = map Call stages.
Proof.
  destruct sample_run as [[d|e] log] eqn:Hrun;
    [|vm_compute in Hrun; discriminate].
  unfold sample_run, sample_describe in Hrun.
  exact (proj2 (describe_stage_order _ _ _ _ _ _ _ _ _ _ _ _ Hrun)).
Defined.

Lemma describe_missing_diagrams_witness :
  match sample_run with
  | (Ok d, log) => get (Describe.missing d) "bar" <> None
  | (Raise _, _) => False
  end.
Proof.
  destruct sample_run as [[d|e] log] eqn:Hrun;
    [|vm_compute in Hrun; discriminate].
  unfold sample_run, sample_describe in Hrun.
  destruct (describe_missing_diagrams _ _ _ _ _ _ _ _ _ _ _ _ Hrun)
    as [df [table_stats [active [Hpre [Htable [Hactive [_ [Hget _]]]]]]]].
  injection Hpre as <-. injection Htable as <-.
  vm_compute in Hactive. injection Hactive as <-.
  rewrite (Hget "bar" _ (or_introl eq_refl)). discriminate.
Defined.

Lemma describe_compute_calls_witness :
  match sample_run with
  | (Ok d, log) =>
      exists measures,
        Forall2
          (fun name measure =>
             get Correlations.correlation_measures name = Some measure)
          ["pearson"; "spearman"; "phi_k"] measures
        /\ filter is_compute_call log
           = map (fun measure =>
                    Call (Correlations.class_name measure ++ ".compute"))
               measures
  | (Raise _, _) => False
  end.
Proof.
  destruct sample_run as [[d|e] log] eqn:Hrun;
    [|vm_compute in Hrun; discriminate].
  assert (Hd := Hrun). vm_compute in Hd. injection Hd as <- _.
  unfold sample_run, sample_describe in Hrun.
  exact (proj2 (proj2 (describe_compute_calls _ _ _ _ _ _ _ _ _ _ _ _
                         (rows := Fin (50 # 1)) Hrun eq_refl eq_refl))).
Defined.

(** ** Percentages *)








(** ** The text of an alert *)

Lemma mentions_app_l (text more part : string) :
  mentions text part -> mentions (text ++ more) part.
Proof.
  intros [before [after ->]]. exists before, (after ++ more)%string.
  now rewrite !string_app_assoc.
Qed.

Lemma mentions_app_r (more text part : string) :
  mentions text part -> mentions (more ++ text) part.
Proof.
  intros [before [after ->]]. exists (more ++ before)%string, after.
  now rewrite !string_app_assoc.
Qed.

Lemma mentions_refl (part : string) : mentions part part.
Proof.
  exists EmptyString, EmptyString. simpl.
  induction part as [|c part IH]; simpl; [reflexivity|now rewrite <- IH].
Qed.

Lemma mentions_concat (sep : string) (parts : list string) (part : string) :
  In part parts -> mentions (String.concat sep parts) part.
Proof.
  induction parts as [|x parts IH]; [intros []|].
  intros [->|Hin].
  - destruct parts as [|y parts]; simpl; [apply mentions_refl|].
    apply mentions_app_l, mentions_refl.
  - destruct parts as [|y parts]; [destruct Hin|].
    change (String.concat sep (x :: y :: parts))
      with (x ++ sep ++ String.concat sep (y :: parts))%string.
    apply mentions_app_r, mentions_app_r, IH, Hin.
Qed.

Lemma check_correlation_alerts_shape config correlations alerts :
  Alerts.check_correlation_alerts config correlations = Ok alerts ->
  Forall (fun a => exists col fields, a = correlation_alert col fields) alerts.
Proof.
  unfold Alerts.check_correlation_alerts.
  destruct (Alerts.consolidate config correlations []) as [d|];
    cbn [bind]; [|discriminate].
  intros [= <-]. destruct d as [|item d]; [constructor|].
  cbn [Nat.ltb Nat.leb List.length app].
  apply Forall_forall. intros a Ha. apply in_map_iff in Ha as [x [<- _]].
  now exists (fst x), (snd x).
Qed.

Lemma fmt_plain (a : Alerts.Alert) :
  Alerts.alert_type a <> Alerts.HIGH_CORRELATION ->
  AlertText.fmt a
  = Ok (AlertText.replace "_" " " (Alerts.name (Alerts.alert_type a))).
Proof.
  unfold AlertText.fmt. destruct (Alerts.alert_type a);
    try reflexivity. congruence.
Qed.

(** X25.  The text of an alert.  For an alert of any type but
    [HIGH_CORRELATION], [fmt] is the type's name with the underscores
    turned into spaces.  On every alert that [get_alerts] returns [fmt]
    returns, and for a correlation alert its text has the method label,
    the number of partners and every partner in it.  A
    [HIGH_CORRELATION] alert built without values makes [fmt] raise
    [KeyError]: the guard [self.values is not None] lets the empty
    dictionary through. *)
Theorem fmt_of_alerts
    (config : Settings) (table_stats : TableStats)
    (series_description : dict Summary) (correlations : dict Matrix)
    (alerts : list Alerts.Alert) :
  Alerts.get_alerts config table_stats series_description correlations
  = Ok alerts ->
  (forall a,
     In a alerts ->
     exists text,
       AlertText.fmt a = Ok text
       /\ (Alerts.alert_type a <> Alerts.HIGH_CORRELATION ->
           text
           = AlertText.replace "_" " " (Alerts.name (Alerts.alert_type a)))
       /\ (Alerts.alert_type a = Alerts.HIGH_CORRELATION ->
           exists col fields,
             a = correlation_alert col fields
             /\ mentions text "overall"
             /\ mentions text (AlertText.str_int (List.length fields))
             /\ forall partner, In partner fields -> mentions text partner))
  /\ (forall column,
        AlertText.fmt (Alerts.HighCorrelationAlert None column)
        = Raise (KeyError "fields")).
Proof.
  intros Hrun. split; [|reflexivity].
  apply get_alerts_parts in Hrun as [ta [pc [ca [Ht [Hc [Hr ->]]]]]].
  apply check_table_alerts_emits in Ht as [_ [_ [_ [_ Hscope]]]].
  apply column_alerts_named in Hc as Hrule.
  apply check_correlation_alerts_shape in Hr.
  rewrite Forall_forall in Hscope, Hrule, Hr.
  assert (Hplain : forall a,
            Alerts.alert_type a <> Alerts.HIGH_CORRELATION ->
            exists text,
              AlertText.fmt a = Ok text
              /\ (Alerts.alert_type a <> Alerts.HIGH_CORRELATION ->
                  text = AlertText.replace "_" " "
                           (Alerts.name (Alerts.alert_type a)))
              /\ (Alerts.alert_type a = Alerts.HIGH_CORRELATION ->
                  exists col fields,
                    a = correlation_alert col fields
                    /\ mentions text "overall"
                    /\ mentions text (AlertText.str_int (List.length fields))
                    /\ forall partner,
                         In partner fields -> mentions text partner)).
  { intros a Hty. eexists. split; [now apply fmt_plain|].
    split; [reflexivity|contradiction]. }
  intros a Ha. apply (Permutation_in _ (sort_perm _ _)) in Ha.
  apply in_app_or in Ha as [Ha|Ha]; [|apply in_app_or in Ha as [Ha|Ha]].
  - apply Hplain. destruct (Hscope a Ha) as [_ [H|[H|[]]]];
      rewrite <- H; discriminate.
  - apply Hplain. destruct (Hrule a Ha) as [H _].
    unfold of_column_rule in H. intros E. rewrite E in H. discriminate.
  - destruct (Hr a Ha) as [col [fields ->]].
    eexists. split; [reflexivity|].
    split; [intros H; now contradiction H|].
    intros _. exists col, fields. split; [reflexivity|].
    split; [|split].
    + do 5 apply mentions_app_r. apply mentions_app_l, mentions_refl.
    + do 3 apply mentions_app_r. apply mentions_app_l, mentions_refl.
    + intros partner Hin. do 7 apply mentions_app_r.
      apply mentions_app_l. now apply mentions_concat.
Qed.

Lemma fmt_of_alerts_witness :
  exists alerts,
    Alerts.get_alerts sample_config sample_table sample_series
      [("pearson", sample_matrix)] = Ok alerts
    /\ Forall (fun a => exists text, AlertText.fmt a = Ok text) alerts.
Proof.
  eexists. split; [reflexivity|].
  apply Forall_forall. intros a Ha.
  destruct (proj1 (@fmt_of_alerts sample_config sample_table sample_series
                     [("pearson", sample_matrix)] _ eq_refl) a Ha)
    as [text [Htext _]].
  now exists text.
Defined.

(** ** Values that parse as dates *)

Section TypeDateFacts.

Variables A B : Type.
Variable parse : A -> Parsed B.

(** The value parses. *)
Local Abbreviation parses :=
  (fun x => exists value, parse x = ParsedValue value).

Lemma apply_parsed (series : list A) :
  (exists values, apply parse series = ParsedValue values)
  <-> Forall parses series.
Proof.
  induction series as [|x rest IH]; simpl.
  - split; [constructor|now exists []].
  - destruct (parse x) as [value|msg|e] eqn:E.
    + destruct (apply parse rest) as [values|msg|e]; split.
      * intros _. constructor; [now exists value|]. apply IH. now exists values.
      * intros _. now exists (value :: values).
      * intros [values H]. discriminate.
      * intros H. inversion H as [|? ? _ Hrest]; subst.
        apply IH in Hrest as [values Hv]. discriminate.
      * intros [values H]. discriminate.
      * intros H. inversion H as [|? ? _ Hrest]; subst.
        apply IH in Hrest as [values Hv]. discriminate.
    + split.
      * intros [values H]. discriminate.
      * intros H. inversion H as [|? ? [v Hv] _]; subst. congruence.
    + split.
      * intros [values H]. discriminate.
      * intros H. inversion H as [|? ? [v Hv] _]; subst. congruence.
Qed.

Lemma apply_first_failure (done rest : list A) (x : A) :
  Forall parses done ->
  apply parse (done ++ x :: rest)
  = match parse x with
    | ParsedValue value =>
        match apply parse (done ++ x :: rest) with
        | ParsedValue values => ParsedValue values
        | other => other
        end
    | ParserError msg => ParserError msg
    | ParseFailure e => ParseFailure e
    end.
Proof.
  induction 1 as [|y done [v Hv] _ IH]; simpl.
  - destruct (parse x); [|reflexivity|reflexivity].
    now destruct (apply parse rest).
  - rewrite Hv. destruct (parse x) as [value|msg|e].
    + now destruct (apply parse (done ++ x :: rest)).
    + now rewrite IH.
    + now rewrite IH.
Qed.

(** X26.  [type_date_alert] holds exactly when every value of the series
    parses, so it holds of the empty series.  The first value that does
    not parse decides: a [ParserError] there gives [False] and an
    exception of another class is raised on, whatever the values after
    it are. *)
Theorem type_date_alert_first_failure (series : list A) :
  (type_date_alert parse series = Ok true <-> Forall parses series)
  /\ (forall done x rest msg,
        series = done ++ x :: rest ->
        Forall parses done ->
        parse x = ParserError msg ->
        type_date_alert parse series = Ok false)
  /\ (forall done x rest e,
        series = done ++ x :: rest ->
        Forall parses done ->
        parse x = ParseFailure e ->
        type_date_alert parse series = Raise e).
Proof.
  unfold type_date_alert. split; [|split].
  - rewrite <- apply_parsed. split.
    + destruct (apply parse series) as [values|msg|e]; try discriminate.
      intros _. now exists values.
    + intros [values ->]. reflexivity.
  - intros done x rest msg -> Hdone Hx.
    rewrite (apply_first_failure rest x Hdone), Hx. reflexivity.
  - intros done x rest e -> Hdone Hx.
    rewrite (apply_first_failure rest x Hdone), Hx. reflexivity.
Qed.

End TypeDateFacts.

Lemma type_date_alert_first_failure_witness :
  type_date_alert sample_parse ["1"; "2"; EmptyString; "x"] = Ok false.
Proof.
  apply (proj1 (proj2 (type_date_alert_first_failure sample_parse
                         ["1"; "2"; EmptyString; "x"]))
           ["1"; "2"] EmptyString ["x"] "String does not contain a date").
  - reflexivity.
  - repeat constructor; eexists; reflexivity.
  - reflexivity.
Defined.

(** ** The alerts of the overview *)

Lemma length_filter_split (A : Type) (p : A -> bool) (l : list A) :
  List.length (filter (fun x => negb (p x)) l) + List.length (filter p l)
  = List.length l.
Proof.
  induction l as [|x l IH]; [reflexivity|].
  simpl. destruct (p x); simpl; lia.
Qed.

Lemma filter_of_type_assigned t col summary alerts :
  List.length
    (filter (of_type t) (map (fun a => Alerts.assign a col summary) alerts))
  = List.length (filter (of_type t) alerts).
Proof.
  induction alerts as [|a l IH]; [reflexivity|].
  simpl. change (of_type t (Alerts.assign a col summary)) with (of_type t a).
  destruct (of_type t a); simpl; now rewrite IH.
Qed.

Lemma emits_only_filter types t alerts :
  emits_only types alerts -> ~ In t types -> filter (of_type t) alerts = [].
Proof.
  intros H Ht. apply filter_none. eapply Forall_impl; [|exact H].
  intros a Ha. unfold of_type.
  destruct (Alerts.AlertType_eqb (Alerts.alert_type a) t) eqn:E;
    [|reflexivity].
  apply AlertType_eqb_eq in E. congruence.
Qed.

Lemma check_variable_alerts_rejected config col summary alerts :
  Alerts.check_variable_alerts config col summary = Ok alerts ->
  List.length (filter (of_type Alerts.REJECTED) alerts)
  = List.length (unsupported_columns [(col, summary)]).
Proof.
  intros H. apply check_variable_alerts_parts in H
    as [type [generic [rest [Htype [Hg [-> Hrest]]]]]].
  rewrite filter_of_type_assigned, filter_app, length_app.
  apply generic_alerts_types in Hg.
  rewrite (@emits_only_filter _ Alerts.REJECTED _ Hg)
    by (simpl; intuition discriminate).
  unfold unsupported_columns. cbn [filter snd]. rewrite Htype.
  destruct Hrest as [[-> ->]|[Hu [supported [specific [Hs [-> Hsp]]]]]].
  - reflexivity.
  - apply String.eqb_neq in Hu. rewrite Hu.
    apply supported_alerts_types in Hs.
    rewrite filter_app, (@emits_only_filter _ Alerts.REJECTED _ Hs),
      (@emits_only_filter _ Alerts.REJECTED _ Hsp)
      by (simpl; intuition discriminate).
    reflexivity.
Qed.

Lemma column_alerts_rejected config series_description per_column :
  column_alerts config series_description per_column ->
  List.length (filter (of_type Alerts.REJECTED) (List.concat per_column))
  = List.length (unsupported_columns series_description).
Proof.
  induction 1 as [|[col summary] alerts items per_column Hrun _ IH];
    [reflexivity|].
  simpl in Hrun. apply check_variable_alerts_rejected in Hrun.
  simpl List.concat. rewrite filter_app, length_app, Hrun, IH.
  unfold unsupported_columns. cbn [filter snd].
  destruct (type_ summary) as [type|]; [|reflexivity].
  destruct (String.eqb type "Unsupported"); reflexivity.
Qed.

(** X27.  The number in the title of the alerts.  For the alert list of
    one report, [get_dataset_alerts] hands the list on unchanged under
    the title 警报 with the number of alerts that are not [REJECTED].
    On a list that [get_alerts] returned, this number is the length of
    the list less one for every column whose type is ["Unsupported"]:
    each such column has one [REJECTED] alert and nothing else has
    one. *)
Theorem get_dataset_alerts_count
    (Style : Type) (html_style : Settings -> Style)
    (config : Settings) (table_stats : TableStats)
    (series_description : dict Summary) (correlations : dict Matrix)
    (alerts : list Alerts.Alert) :
  Alerts.get_alerts config table_stats series_description correlations
  = Ok alerts ->
  exists count,
    Overview.get_dataset_alerts html_style config (Overview.AlertList alerts)
    = Ok {| Overview.renderable_alerts := Overview.ListContent alerts;
            Overview.renderable_name :=
              ("警报 (" ++ AlertText.str_int count ++ ")")%string;
            Overview.renderable_anchor_id := "alerts";
            Overview.renderable_style := html_style config |}
    /\ count + List.length (unsupported_columns series_description)
       = List.length alerts.
Proof.
  intros Hrun. eexists. split; [reflexivity|].
  rewrite <- (length_filter_split (of_type Alerts.REJECTED) alerts).
  change (filter Overview.not_rejected alerts)
    with (filter (fun a => negb (of_type Alerts.REJECTED a)) alerts).
  f_equal.
  apply get_alerts_parts in Hrun as [ta [pc [ca [Ht [Hc [Hr ->]]]]]].
  rewrite of_type_has_rank, (@sort_stable _ _ _ alert_key_rank),
    <- of_type_has_rank.
  rewrite !filter_app, !length_app.
  apply check_table_alerts_emits in Ht as [_ [_ [_ [_ Hscope]]]].
  apply check_correlation_alerts_columns in Hr.
  rewrite (@filter_none _ (of_type Alerts.REJECTED) ta).
  - rewrite (@filter_none _ (of_type Alerts.REJECTED) ca).
    + simpl. rewrite Nat.add_0_r. symmetry.
      now apply column_alerts_rejected with (config := config).
    + eapply Forall_impl; [|exact Hr]. intros a [Ha _].
      unfold of_type. now rewrite Ha.
  - eapply Forall_impl; [|exact Hscope]. intros a [_ [Ha|[Ha|[]]]];
      unfold of_type; now rewrite <- Ha.
Qed.

Lemma get_dataset_alerts_count_witness :
  exists alerts count,
    Alerts.get_alerts sample_config sample_table sample_series
      [("pearson", sample_matrix)] = Ok alerts
    /\ Overview.get_dataset_alerts (fun _ => tt) sample_config
         (Overview.AlertList alerts)
       = Ok {| Overview.renderable_alerts := Overview.ListContent alerts;
               Overview.renderable_name :=
                 ("警报 (" ++ AlertText.str_int count ++ ")")%string;
               Overview.renderable_anchor_id := "alerts";
               Overview.renderable_style := tt |}
    /\ count + 1 = List.length alerts.
Proof.
  eexists.
  pose proof (fun alerts =>
                @get_dataset_alerts_count unit (fun _ => tt) sample_config
                  sample_table sample_series [("pearson", sample_matrix)]
                  alerts) as Hcount.
  edestruct Hcount as [count [Hrun Hlen]]; [reflexivity|].
  exists count. split; [reflexivity|]. split; [exact Hrun|exact Hlen].
Defined.

(** ** The alerts of compared reports *)

Lemma set_nth_middle (A : Type) (l1 l2 : list A) (x v : A) :
  set_nth (l1 ++ x :: l2) (List.length l1) v = l1 ++ v :: l2.
Proof. induction l1 as [|y l1 IH]; simpl; [reflexivity|now rewrite IH]. Qed.

Lemma get_initialize (alerts : list Alerts.Alert)
    (slot : list (option Alerts.Alert))
    (acc : dict (list (option Alerts.Alert))) (key : string) :
  get (fold_left
         (fun combined alert =>
            setitem combined (Overview.alert_key alert) slot)
         alerts acc) key
  = if existsb (fun alert => String.eqb (Overview.alert_key alert) key) alerts
    then Some slot
    else get acc key.
Proof.
  revert acc. induction alerts as [|a alerts IH]; intros acc; [reflexivity|].
  simpl. rewrite IH, get_setitem.
  destruct (existsb _ alerts); [now rewrite orb_true_r|].
  now rewrite orb_false_r.
Qed.

Lemma NoDup_keys_fold_setitem (V : Type) (A : Type) (key : A -> string)
    (value : A -> V) (l : list A) (acc : dict V) :
  NoDup (keys acc) ->
  NoDup (keys (fold_left (fun d x => setitem d (key x) (value x)) l acc)).
Proof.
  revert acc. induction l as [|x l IH]; intros acc H; [exact H|].
  simpl. apply IH. now apply NoDup_keys_setitem.
Qed.

Section Combined.

(** The keys that were initialised, the number of the report at hand and
    the slots of the later reports, which are still empty. *)
Variable present : string -> bool.
Variable report_idx : nat.
Variable later : list (option Alerts.Alert).

Local Abbreviation update key :=
  (fun (found : option Alerts.Alert) (alert : Alerts.Alert) =>
     if String.eqb (Overview.alert_key alert) key then Some alert else found).

Lemma place_report_run (report_alerts : list Alerts.Alert)
    (combined : dict (list (option Alerts.Alert)))
    (earlier : string -> list (option Alerts.Alert))
    (current : string -> option Alerts.Alert) :
  (forall alert,
     In alert report_alerts -> present (Overview.alert_key alert) = true) ->
  (forall key, List.length (earlier key) = report_idx) ->
  NoDup (keys combined) ->
  (forall key,
     get combined key
     = if present key
       then Some (earlier key ++ current key :: later)
       else None) ->
  exists filled,
    Overview.place_report combined report_idx report_alerts = Ok filled
    /\ NoDup (keys filled)
    /\ forall key,
         get filled key
         = if present key
           then Some (earlier key
                      ++ fold_left (update key) report_alerts (current key)
                      :: later)
           else None.
Proof.
  revert combined current.
  induction report_alerts as [|alert rest IH];
    intros combined current Hpresent Hlen Hnd Hget.
  - exists combined. simpl. auto.
  - cbn [Overview.place_report]. unfold Overview.place, getitem.
    rewrite Hget, (Hpresent alert (or_introl eq_refl)). cbn [bind].
    rewrite length_app, Hlen. cbn [List.length].
    assert (Hlt : Nat.ltb report_idx (report_idx + S (List.length later))
                  = true) by (apply Nat.ltb_lt; lia).
    rewrite Hlt. cbn [bind].
    pose proof (set_nth_middle (earlier (Overview.alert_key alert)) later
                  (current (Overview.alert_key alert)) (Some alert)) as Hset.
    rewrite Hlen in Hset. rewrite Hset.
    apply (IH _ (fun key => update key (current key) alert)).
    + intros a Ha. apply Hpresent. now right.
    + exact Hlen.
    + now apply NoDup_keys_setitem.
    + intros key. rewrite get_setitem, Hget.
      destruct (String.eqb_spec (Overview.alert_key alert) key) as [<-|_];
        [|reflexivity].
      now rewrite (Hpresent alert (or_introl eq_refl)).
Qed.

End Combined.

Lemma combine_run (alerts : list (list Alerts.Alert)) (present : string -> bool)
    (rest done : list (list Alerts.Alert))
    (combined : dict (list (option Alerts.Alert))) (count : nat) :
  List.length alerts = List.length done + List.length rest ->
  (forall report alert,
     In report rest -> In alert report ->
     present (Overview.alert_key alert) = true) ->
  NoDup (keys combined) ->
  (forall key,
     get combined key
     = if present key
       then Some (map (last_with_key key) done
                  ++ repeat None (List.length alerts - List.length done))
       else None) ->
  exists filled,
    Overview.combine (List.length done) rest combined count
    = Ok (filled,
          count
          + list_sum
              (map (fun report =>
                      List.length (filter Overview.not_rejected report))
                 rest))
    /\ NoDup (keys filled)
    /\ forall key,
         get filled key
         = if present key
           then Some (map (last_with_key key) (done ++ rest))
           else None.
Proof.
  revert done combined count.
  induction rest as [|report rest IH];
    intros done combined count Hlen Hpresent Hnd Hget.
  - exists combined. simpl in *. rewrite Nat.add_0_r, app_nil_r.
    split; [reflexivity|]. split; [exact Hnd|].
    intros key. rewrite Hget.
    replace (List.length alerts - List.length done) with 0 by lia.
    simpl. now rewrite app_nil_r.
  - cbn [Overview.combine].
    destruct (@place_report_run present (List.length done)
                (repeat None (List.length alerts - S (List.length done)))
                report combined
                (fun key => map (last_with_key key) done)
                (fun _ => None))
      as [filled [Hrun [Hnd' Hget']]].
    + intros alert Hin. apply (Hpresent report); [now left|exact Hin].
    + intros key. apply length_map.
    + exact Hnd.
    + intros key. rewrite Hget.
      replace (List.length alerts - List.length done)
        with (S (List.length alerts - S (List.length done)))
        by (simpl in Hlen; lia).
      reflexivity.
    + rewrite Hrun. cbn [bind].
      destruct (IH (done ++ [report]) filled
                  (count
                   + List.length (filter Overview.not_rejected report)))
        as [final [Hfinal [Hnd'' Hget'']]].
      * rewrite length_app. simpl in *. lia.
      * intros r a Hr Ha. apply (Hpresent r); [now right|exact Ha].
      * exact Hnd'.
      * intros key. rewrite Hget', map_app, length_app. cbn [List.length map].
        rewrite <- app_assoc. cbn [app].
        replace (List.length alerts - (List.length done + 1))
          with (List.length alerts - S (List.length done)) by lia.
        reflexivity.
      * exists final. rewrite length_app in Hfinal. cbn [List.length] in Hfinal.
        rewrite Nat.add_1_r in Hfinal. rewrite Hfinal.
        split; [|split; [exact Hnd''|]].
        -- f_equal. f_equal. simpl. lia.
        -- intros key. rewrite Hget'', <- app_assoc. reflexivity.
Qed.

(** X28.  The alerts of compared reports.  For a tuple of alert lists
    [get_dataset_alerts] never raises.  The combined dictionary has a key
    exactly for the keys of the alerts, each once, and under a key one
    slot per report, in the order of the reports: the last alert of that
    report that has the key, or [None] when the report has none.  The
    number in the title is the sum over the reports of their alerts
    that are not [REJECTED].  The key, made of the type and the column
    joined by an underscore, does not tell every pair apart: a
    [CONSTANT] alert of a column [LENGTH_x] and a [CONSTANT_LENGTH]
    alert of a column [x] share one. *)
Theorem get_dataset_alerts_combined
    (Style : Type) (html_style : Settings -> Style)
    (config : Settings) (alerts : list (list Alerts.Alert)) :
  (exists combined,
     Overview.get_dataset_alerts html_style config (Overview.AlertTuple alerts)
     = Ok {| Overview.renderable_alerts := Overview.CombinedContent combined;
             Overview.renderable_name :=
               ("警报 ("
                ++ AlertText.str_int
                     (list_sum
                        (map (fun report =>
                                List.length
                                  (filter Overview.not_rejected report))
                           alerts))
                ++ ")")%string;
             Overview.renderable_anchor_id := "alerts";
             Overview.renderable_style := html_style config |}
     /\ NoDup (keys combined)
     /\ forall key,
          get combined key
          = if has_key alerts key
            then Some (map (last_with_key key) alerts)
            else None)
  /\ slot (Alerts.ConstantAlert None (Some "LENGTH_x"))
     <> slot (Alerts.ConstantLengthAlert None (Some "x"))
  /\ Overview.alert_key (Alerts.ConstantAlert None (Some "LENGTH_x"))
     = Overview.alert_key (Alerts.ConstantLengthAlert None (Some "x")).
Proof.
  split; [|split; [discriminate|reflexivity]].
  destruct (@combine_run alerts (has_key alerts) alerts []
              (Overview.initialize alerts) 0)
    as [filled [Hrun [Hnd Hget]]].
  - reflexivity.
  - intros report alert Hr Ha. unfold has_key. apply existsb_exists.
    exists alert. split; [|apply String.eqb_refl].
    apply in_concat. now exists report.
  - unfold Overview.initialize.
    apply (NoDup_keys_fold_setitem Overview.alert_key
             (fun _ => repeat None (List.length alerts))).
    constructor.
  - intros key. unfold Overview.initialize. rewrite get_initialize.
    unfold has_key. rewrite Nat.sub_0_r. reflexivity.
  - exists filled. unfold Overview.get_dataset_alerts.
    cbn [List.length] in Hrun. rewrite Hrun. cbn [bind fst snd].
    split; [reflexivity|]. split; [exact Hnd|exact Hget].
Qed.

Lemma get_dataset_alerts_combined_witness :
  exists combined,
    Overview.get_dataset_alerts (fun _ => tt) sample_config
      (Overview.AlertTuple two_reports)
    = Ok {| Overview.renderable_alerts := Overview.CombinedContent combined;
            Overview.renderable_name := "警报 (4)";
            Overview.renderable_anchor_id := "alerts";
            Overview.renderable_style := tt |}
    /\ get combined "AlertType.CONSTANT_LENGTH_x"
       = Some [Some (Alerts.ConstantLengthAlert None (Some "x"));
               Some (Alerts.ConstantAlert None (Some "LENGTH_x"))].
Proof.
  destruct (proj1 (@get_dataset_alerts_combined unit (fun _ => tt)
                     sample_config two_reports))
    as [combined [Hrun [_ Hget]]].
  exists combined. split; [exact Hrun|].
  rewrite Hget. reflexivity.
Defined.
